(** * Secret Santa drinking game: assignment engine, encoder, clue engine

    A shallow embedding of the gift-assignment engine ([assignments.ts]),
    of the encoder of assignment lists ([crypto.ts]) and of the clue
    engine that returns ten clues ([generateClues] with its population
    analysis, obviousness filter and backfill), followed by the
    properties of the three proved, or refuted, on the embedded code.

    Conventions.
    - A JavaScript string is a [string] of 8-bit characters; [===] on
      strings is [String.eqb], [<] is [String.ltb].
    - The integers of the code ([yearMoved], counters, lengths) are [Z]
      or [nat]; the infinities [Math.min] and [Math.max] return on no
      argument are kept ([JSNumber]).
    - A function that may [throw] returns a [result]; [Throw] carries
      the message of the [Error].
    - [Math.random()] is read from an explicit [RandomSource]; a
      function that calls it takes the source and returns what is left.
    - What the code calls but does not contain (CryptoJS's AES, the
      built-in JSON codec, the printing of a floating-point number) is a
      field of the class [Platform]; the class [Lawful] states what is
      assumed of it, and the module [Reference] gives an executable
      platform that satisfies [Lawful]. *)

From Stdlib Require Import String Ascii ZArith NArith Lia Bool Arith List
  Permutation.
From Stdlib Require Import DecimalString.
Import ListNotations.

Local Open Scope string_scope.
Local Open Scope list_scope.

Set Implicit Arguments.
Set Warnings "-register-all".

(* ================================================================== *)
(** * Data model *)
(* ================================================================== *)

Record Participant : Type := mkParticipant {
  id : string;
  gameId : string;
  name : string;
  email : string;
  gender : string;
  yearMoved : Z
}.

(** [crypto.ts]: [interface Assignment]. *)
Record Assignment : Type := mkAssignment {
  giverId : string;
  receiverId : string
}.

(** The [data] of a constraint, which is also the element type of the
    [exclusions] array of the clue engine. *)
Record Exclusion : Type := mkExclusion {
  participant1 : string;
  participant2 : string;
  reason : option string
}.

Inductive ConstraintType : Type := no_same_gender | no_couples | custom.

(** [assignments.ts]: [interface AssignmentConstraint].  The field [type]
    is called [constraint_type] here, [type] being kept for [ClueData]. *)
Record AssignmentConstraint : Type := mkConstraint {
  constraint_type : ConstraintType;
  data : option Exclusion
}.

(** Outcome of a call that may throw. *)
Inductive result (A : Type) : Type :=
| Ok (a : A)
| Throw (msg : string).

Arguments Ok {A} a.
Arguments Throw {A} msg.

(** The values [JSON.parse] returns, and [undefined] for a missing
    property.  The code never reads a number out of a decoded value;
    only the integers are represented. *)
Inductive JSValue : Type :=
| JUndefined
| JNull
| JBool (b : bool)
| JNum (n : Z)
| JStr (s : string)
| JArr (items : list JSValue)
| JObj (fields : list (string * JSValue)).

(** The JavaScript value of an [Assignment] and of an [Assignment[]]. *)
Definition js_of_assignment (a : Assignment) : JSValue :=
  JObj [("giverId", JStr (giverId a)); ("receiverId", JStr (receiverId a))].

Definition js_of_assignments (l : list Assignment) : JSValue :=
  JArr (map js_of_assignment l).

(* ================================================================== *)
(** * The random source *)
(* ================================================================== *)

(** The successive results of [Math.random()].  A result is a double in
    [0, 1) with a 53-bit fraction: entry [n] of the source, reduced modulo
    [2^53], is the numerator of the n-th result over [2^53]. *)
Definition RandomSource : Type := nat -> N.

Definition two53 : N := 2 ^ 53.

(** [Math.random()]: the numerator of the result and the rest of the
    source. *)
Definition Math_random (rs : RandomSource) : N * RandomSource :=
  ((rs 0%nat mod two53)%N, fun n => rs (S n)).

(** [Math.floor(r * m)] for [r = k / 2^53]. *)
Definition floor_times (k : N) (m : nat) : nat :=
  N.to_nat ((k * N.of_nat m) / two53).

(* ================================================================== *)
(** * Arrays *)
(* ================================================================== *)

(** [a[i] = v] for [i] inside the array (outside it JavaScript would
    extend the array; the code never writes there). *)
Fixpoint array_set {A : Type} (l : list A) (i : nat) (v : A) : list A :=
  match l, i with
  | [], _ => []
  | _ :: t, O => v :: t
  | h :: t, S i' => h :: array_set t i' v
  end.

(** [[a[i], a[j]] = [a[j], a[i]]]. *)
Definition swap {A : Type} (l : list A) (i j : nat) : list A :=
  match nth_error l i, nth_error l j with
  | Some x, Some y => array_set (array_set l i y) j x
  | _, _ => l
  end.

(* ================================================================== *)
(** * The platform: CryptoJS and JSON *)
(* ================================================================== *)

Class Platform : Type := {
  (** [process.env.NEXTAUTH_SECRET || 'fallback-secret-key']. *)
  ENCRYPTION_KEY : string;
  (** [CryptoJS.AES.encrypt(message, key).toString()]; the third argument
      is the salt CryptoJS draws for the call. *)
  AES_encrypt : string -> string -> N -> string;
  (** [CryptoJS.AES.decrypt(data, key).toString(CryptoJS.enc.Utf8)];
      [None] when it throws. *)
  AES_decrypt_utf8 : string -> string -> option string;
  JSON_stringify : JSValue -> string;
  (** [None] when [JSON.parse] throws. *)
  JSON_parse : string -> option JSValue;
  (** The text of [Math.round((sum / count) * 10) / 10] in a template
      literal. *)
  render_rounded_average : Z -> nat -> string
}.

(** What the proofs assume of the libraries. *)
Class Lawful (P : Platform) : Prop := {
  AES_roundtrip : forall (m : string) (salt : N),
    AES_decrypt_utf8 (AES_encrypt m ENCRYPTION_KEY salt) ENCRYPTION_KEY
    = Some m;
  JSON_roundtrip : forall (l : list Assignment),
    JSON_parse (JSON_stringify (js_of_assignments l))
    = Some (js_of_assignments l)
}.

(* ================================================================== *)
(** * crypto.ts *)
(* ================================================================== *)

Section Crypto.
Context {P : Platform}.

Definition encryptAssignments (assignments : list Assignment) (salt : N)
  : string :=
  let assignmentData := JSON_stringify (js_of_assignments assignments) in
  AES_encrypt assignmentData ENCRYPTION_KEY salt.

(** The value is returned as [JSON.parse] delivers it. *)
Definition decryptAssignments (encryptedData : string) : result JSValue :=
  match AES_decrypt_utf8 encryptedData ENCRYPTION_KEY with
  | None => Throw "Invalid assignment data"
  | Some decryptedData =>
      match JSON_parse decryptedData with
      | None => Throw "Invalid assignment data"
      | Some v => Ok v
      end
  end.

End Crypto.

(* ================================================================== *)
(** * assignments.ts *)
(* ================================================================== *)

Definition isValidAssignment (giver receiver : Participant)
  (existingAssignments : list Assignment)
  (constraints : list AssignmentConstraint) : bool :=
  if id giver =? id receiver then false
  else
    forallb
      (fun constraint =>
         match constraint_type constraint with
         | no_same_gender => negb (gender giver =? gender receiver)
         | no_couples =>
             match data constraint with
             | Some d =>
                 negb (((name giver =? participant1 d)
                        && (name receiver =? participant2 d))
                       || ((name giver =? participant2 d)
                           && (name receiver =? participant1 d)))
             | None => true
             end
         | custom => true
         end)
      constraints.

(** The Fisher-Yates loop [for (let i = receivers.length - 1; i > 0; i--)],
    entered with [i]. *)
Fixpoint shuffle_loop (i : nat) (receivers : list Participant)
  (rs : RandomSource) : list Participant * RandomSource :=
  match i with
  | O => (receivers, rs)
  | S i' =>
      let (k, rs') := Math_random rs in
      let j := floor_times k (i + 1) in
      shuffle_loop i' (swap receivers i j) rs'
  end.

(** The inner loop over the pool: the first valid receiver, and the pool
    after [receivers.splice(i, 1)]. *)
Fixpoint find_receiver (giver : Participant) (receivers : list Participant)
  (assignments : list Assignment) (constraints : list AssignmentConstraint)
  : option (Participant * list Participant) :=
  match receivers with
  | [] => None
  | receiver :: rest =>
      if isValidAssignment giver receiver assignments constraints
      then Some (receiver, rest)
      else
        match find_receiver giver rest assignments constraints with
        | Some (validReceiver, pool) => Some (validReceiver, receiver :: pool)
        | None => None
        end
  end.

(** The loop [for (const giver of givers)]. *)
Fixpoint assign_loop (givers receivers : list Participant)
  (assignments : list Assignment) (constraints : list AssignmentConstraint)
  : result (list Assignment) :=
  match givers with
  | [] => Ok assignments
  | giver :: givers' =>
      match find_receiver giver receivers assignments constraints with
      | None => Throw ("No valid receiver found for giver: " ++ name giver)
      | Some (validReceiver, pool) =>
          assign_loop givers' pool
            (assignments
               ++ [mkAssignment (id giver) (id validReceiver)])
            constraints
      end
  end.

Definition attemptAssignment (participants : list Participant)
  (constraints : list AssignmentConstraint) (rs : RandomSource)
  : result (list Assignment) * RandomSource :=
  let givers := participants in
  let receivers := participants in
  let (receivers', rs') :=
    shuffle_loop (length receivers - 1) receivers rs in
  (assign_loop givers receivers' [] constraints, rs').

Definition maxAttempts : nat := 100.

Section Engine.
Context {P : Platform}.

(** The loop [while (attempts < maxAttempts)], entered with
    [attempts = maxAttempts - left]. *)
Fixpoint attempt_loop (left : nat) (participants : list Participant)
  (constraints : list AssignmentConstraint) (salt : N) (rs : RandomSource)
  : result string * RandomSource :=
  match left with
  | O => (Throw "Could not generate valid assignments", rs)
  | S left' =>
      match attemptAssignment participants constraints rs with
      | (Ok assignments, rs') => (Ok (encryptAssignments assignments salt), rs')
      | (Throw _, rs') =>
          (* attempts++ *)
          match left' with
          | O =>
              (* attempts >= maxAttempts: the relaxed attempt, not guarded *)
              match attemptAssignment participants [] rs' with
              | (Ok assignments, rs'') =>
                  (Ok (encryptAssignments assignments salt), rs'')
              | (Throw msg, rs'') => (Throw msg, rs'')
              end
          | S _ => attempt_loop left' participants constraints salt rs'
          end
      end
  end.

Definition generateAssignments (participants : list Participant)
  (constraints : list AssignmentConstraint) (salt : N) (rs : RandomSource)
  : result string * RandomSource :=
  if (length participants <? 2)%nat
  then (Throw "Need at least 2 participants for Secret Santa", rs)
  else attempt_loop maxAttempts participants constraints salt rs.

End Engine.

(** [new Set(array)]: the elements in the order of their first
    occurrence. *)
Fixpoint Set_of {A : Type} (eqb : A -> A -> bool) (l : list A) : list A :=
  match l with
  | [] => []
  | x :: t => x :: filter (fun y => negb (eqb y x)) (Set_of eqb t)
  end.

(** [set.has(x)]. *)
Definition Set_has (s : list string) (x : string) : bool :=
  existsb (fun y => y =? x) s.

Definition validateAssignments (assignments : list Assignment)
  (participants : list Participant) : bool :=
  let givers := Set_of String.eqb (map giverId assignments) in
  let receivers := Set_of String.eqb (map receiverId assignments) in
  let participantIds := Set_of String.eqb (map id participants) in
  (length givers =? length participants)%nat
  && (length receivers =? length participants)%nat
  && forallb (Set_has participantIds) givers
  && forallb (Set_has participantIds) receivers.

(* ================================================================== *)
(** * crypto.ts: [getAssignmentForParticipant] *)
(* ================================================================== *)

Definition bind {A B : Type} (r : result A) (k : A -> result B) : result B :=
  match r with
  | Ok a => k a
  | Throw msg => Throw msg
  end.

Notation "x <- e ;; k" := (bind e (fun x => k))
  (at level 61, e at next level, right associativity).

(** The own property [key] of a parsed object ([JSON.parse] delivers
    objects whose keys are distinct). *)
Fixpoint get_field (fields : list (string * JSValue)) (key : string)
  : JSValue :=
  match fields with
  | [] => JUndefined
  | (k, v) :: rest => if k =? key then v else get_field rest key
  end.

(** [v.key] for the keys [giverId] and [receiverId], which no built-in
    prototype defines: a [TypeError] on [null] and [undefined], the own
    property of an object, [undefined] on every other value. *)
Definition get_property (v : JSValue) (key : string) : result JSValue :=
  match v with
  | JUndefined | JNull => Throw "TypeError: cannot read properties"
  | JObj fields => Ok (get_field fields key)
  | JBool _ | JNum _ | JStr _ | JArr _ => Ok JUndefined
  end.

(** [v === s] for a string [s]. *)
Definition strict_equals_string (v : JSValue) (s : string) : bool :=
  match v with
  | JStr s' => s' =? s
  | _ => false
  end.

(** [ToBoolean]. *)
Definition truthy (v : JSValue) : bool :=
  match v with
  | JUndefined | JNull => false
  | JBool b => b
  | JNum n => negb (n =? 0)%Z
  | JStr s => negb (s =? EmptyString)
  | JArr _ | JObj _ => true
  end.

(** [Array.prototype.find]. *)
Fixpoint Array_find (predicate : JSValue -> result bool)
  (items : list JSValue) : result JSValue :=
  match items with
  | [] => Ok JUndefined
  | a :: rest =>
      match predicate a with
      | Throw msg => Throw msg
      | Ok true => Ok a
      | Ok false => Array_find predicate rest
      end
  end.

(** [v.find(predicate)]: only an array has a method [find]. *)
Definition call_find (v : JSValue) (predicate : JSValue -> result bool)
  : result JSValue :=
  match v with
  | JArr items => Array_find predicate items
  | _ => Throw "TypeError: assignments.find is not a function"
  end.

Section Lookup.
Context {P : Platform}.

Definition getAssignmentForParticipant (encryptedData participantId : string)
  : result JSValue :=
  let attempt :=
    assignments <- decryptAssignments encryptedData ;;
    assignment <-
      call_find assignments
        (fun a =>
           g <- get_property a "giverId" ;;
           Ok (strict_equals_string g participantId)) ;;
    if truthy assignment then get_property assignment "receiverId"
    else Ok JNull
  in
  match attempt with
  | Ok v => Ok v
  | Throw _ => Ok JNull
  end.

End Lookup.

(* ================================================================== *)
(** * clues.ts (the ten-clue engine): the language support it uses *)
(* ================================================================== *)

(** ** Strings *)

(** [toLowerCase] on the letters A-Z; the other characters are kept
    (the texts and gender tags the engine lowercases are ASCII). *)
Definition lower_ascii (c : ascii) : ascii :=
  let n := nat_of_ascii c in
  if ((65 <=? n) && (n <=? 90))%nat then ascii_of_nat (n + 32) else c.

Fixpoint toLowerCase (s : string) : string :=
  match s with
  | EmptyString => EmptyString
  | String c t => String (lower_ascii c) (toLowerCase t)
  end.

(** [s.includes(sub)]. *)
Fixpoint includes (s sub : string) : bool :=
  String.prefix sub s
  || match s with
     | EmptyString => false
     | String _ t => includes t sub
     end.

(** The text of an integer in a template literal. *)
Definition show_Z (z : Z) : string := NilZero.string_of_int (Z.to_int z).

Definition show_nat (n : nat) : string := show_Z (Z.of_nat n).

(** [email.split('@')[1]]: the text between the first and the second
    [@], [None] ([undefined]) without an [@]. *)
Fixpoint up_to_at (s : string) : string :=
  match s with
  | EmptyString => EmptyString
  | String c t => if (c =? "@")%char then EmptyString else String c (up_to_at t)
  end.

Fixpoint split_at_1 (s : string) : option string :=
  match s with
  | EmptyString => None
  | String c t => if (c =? "@")%char then Some (up_to_at t) else split_at_1 t
  end.

(** The number of matches of [/[aeiou]/g]. *)
Definition is_vowel (c : ascii) : bool :=
  ((c =? "a") || (c =? "e") || (c =? "i") || (c =? "o") || (c =? "u"))%char.

Fixpoint count_vowels (s : string) : nat :=
  match s with
  | EmptyString => O
  | String c t => ((if is_vowel c then 1 else 0) + count_vowels t)%nat
  end.

(** ** Numbers *)

(** The numbers [Math.min] and [Math.max] return on integer arguments:
    an integer, or an infinity on no argument. *)
Inductive JSNumber : Type :=
| NegInfinity
| Num (z : Z)
| Infinity.

Definition Math_min (l : list Z) : JSNumber :=
  fold_left
    (fun acc z =>
       match acc with
       | Num m => Num (Z.min m z)
       | _ => Num z
       end)
    l Infinity.

Definition Math_max (l : list Z) : JSNumber :=
  fold_left
    (fun acc z =>
       match acc with
       | Num m => Num (Z.max m z)
       | _ => Num z
       end)
    l NegInfinity.

(** [z === n]. *)
Definition equals_number (z : Z) (n : JSNumber) : bool :=
  match n with
  | Num m => (z =? m)%Z
  | _ => false
  end.

(** [n + d] and the text of [n]. *)
Definition number_plus (n : JSNumber) (d : Z) : JSNumber :=
  match n with
  | Num m => Num (m + d)
  | other => other
  end.

Definition show_number (n : JSNumber) : string :=
  match n with
  | NegInfinity => "-Infinity"
  | Num z => show_Z z
  | Infinity => "Infinity"
  end.

(** [x || 0] on an integer. *)
Definition or_zero (z : Z) : Z := if (z =? 0)%Z then 0%Z else z.

(** ** Maps and sorting *)

Section Maps.
Variables (K V : Type) (eqb : K -> K -> bool).

(** [map.set(k, v)]: a new key goes last, a known key keeps its place. *)
Fixpoint Map_set (m : list (K * V)) (k : K) (v : V) : list (K * V) :=
  match m with
  | [] => [(k, v)]
  | (k', v') :: t =>
      if eqb k' k then (k, v) :: t else (k', v') :: Map_set t k v
  end.

Fixpoint Map_get (m : list (K * V)) (k : K) : option V :=
  match m with
  | [] => None
  | (k', v) :: t => if eqb k' k then Some v else Map_get t k
  end.

(** [new Map(entries)]. *)
Definition Map_of (entries : list (K * V)) : list (K * V) :=
  fold_left (fun m kv => Map_set m (fst kv) (snd kv)) entries [].

Definition Map_values (m : list (K * V)) : list V := map snd m.

End Maps.

Section Sorting.
Variable A : Type.

(** [array.sort(compare)] for a consistent [compare]: the stable order.
    The new element goes before the first element it must precede. *)
Fixpoint insert_sorted (compare : A -> A -> Z) (x : A) (sorted : list A)
  : list A :=
  match sorted with
  | [] => [x]
  | y :: t =>
      if (compare x y <? 0)%Z then x :: y :: t
      else y :: insert_sorted compare x t
  end.

Definition Array_sort (compare : A -> A -> Z) (l : list A) : list A :=
  fold_left (fun sorted x => insert_sorted compare x sorted) l [].

(** [array.sort(() => Math.random() - 0.5)].  With a comparator that
    ignores its arguments the order is left to the implementation; here
    an insertion sort, one call of [Math.random] for each comparison.
    [prefix] is the part already placed, last element first. *)
Fixpoint random_insert (x : A) (prefix : list A) (rs : RandomSource)
  : list A * RandomSource :=
  match prefix with
  | [] => ([x], rs)
  | y :: t =>
      let (k, rs') := Math_random rs in
      if (2 ^ 52 <? k)%N
      then let (placed, rs'') := random_insert x t rs' in (y :: placed, rs'')
      else (x :: y :: t, rs')
  end.

Fixpoint random_sort_loop (todo prefix : list A) (rs : RandomSource)
  : list A * RandomSource :=
  match todo with
  | [] => (rev prefix, rs)
  | x :: rest =>
      let (prefix', rs') := random_insert x prefix rs in
      random_sort_loop rest prefix' rs'
  end.

Definition Array_sort_random (l : list A) (rs : RandomSource)
  : list A * RandomSource :=
  random_sort_loop l [] rs.

End Sorting.

(** [array.sort()] on numbers: the order of their decimal texts. *)
Definition Array_sort_default (l : list Z) : list Z :=
  Array_sort
    (fun x y =>
       if String.ltb (show_Z x) (show_Z y) then (-1)%Z
       else if String.ltb (show_Z y) (show_Z x) then 1%Z else 0%Z)
    l.

(* ================================================================== *)
(** * clues.ts: population analysis and the obviousness filter *)
(* ================================================================== *)

Inductive ClueType : Type :=
  type_gender | type_year | type_count | type_specific.

Inductive Difficulty : Type := easy | medium | hard.

Record ClueData : Type := mkClue {
  text : string;
  type : ClueType;
  difficulty : Difficulty
}.

Definition ClueType_eqb (a b : ClueType) : bool :=
  match a, b with
  | type_gender, type_gender | type_year, type_year
  | type_count, type_count | type_specific, type_specific => true
  | _, _ => false
  end.

Record GenderDistribution : Type := mkGenderDistribution {
  male : nat;
  female : nat
}.

Record ParticipantAnalysis : Type := mkAnalysis {
  yearDistribution : list (Z * nat);
  genderDistribution : GenderDistribution;
  mostCommonYear : Z;
  mostCommonYearCount : JSNumber;
  uniqueYears : nat;
  totalParticipants : nat;
  excludedPairsCount : nat;
  isYearDistributionSkewed : bool;
  isGenderBalanced : bool
}.

(** [Map<string, Participant>]. *)
Definition ParticipantMap : Type := list (string * Participant).

Definition participantMap_of (participants : list Participant)
  : ParticipantMap :=
  Map_of String.eqb (map (fun p => (id p, p)) participants).

Definition get_participant (participantMap : ParticipantMap) (i : string)
  : option Participant :=
  Map_get String.eqb participantMap i.

Definition is_male (p : Participant) : bool :=
  toLowerCase (gender p) =? "male".

Definition is_female (p : Participant) : bool :=
  toLowerCase (gender p) =? "female".

(** [count / total > 0.7], computed on the integers (the quotient of two
    array lengths is never within rounding distance of the threshold). *)
Definition ratio_above_70 (count : JSNumber) (total : nat) : bool :=
  match count with
  | NegInfinity => false
  | Num c => (7 * Z.of_nat total <? 10 * c)%Z
  | Infinity => true
  end.

(** The state of the [forEach] loop of [analyzeParticipantDistribution]. *)
Record Tally : Type := mkCounts {
  tally_years : list (Z * nat);
  tally_males : nat;
  tally_females : nat
}.

Definition count_participant (t : Tally) (participant : Participant)
  : Tally :=
  let year := yearMoved participant in
  let years :=
    Map_set Z.eqb (tally_years t) year
      (match Map_get Z.eqb (tally_years t) year with
       | Some n => n
       | None => O
       end + 1)%nat in
  if is_male participant then
    mkCounts years (S (tally_males t)) (tally_females t)
  else if is_female participant then
    mkCounts years (tally_males t) (S (tally_females t))
  else mkCounts years (tally_males t) (tally_females t).

Definition analyzeParticipantDistribution (participants : list Participant)
  (exclusions : list Exclusion) : ParticipantAnalysis :=
  let t := fold_left count_participant participants (mkCounts [] 0 0) in
  let yearDistribution := tally_years t in
  let males := tally_males t in
  let females := tally_females t in
  let yearCounts := Map_values yearDistribution in
  let mostCommonYearCount := Math_max (map Z.of_nat yearCounts) in
  let mostCommonYear :=
    match find (fun yc => equals_number (Z.of_nat (snd yc)) mostCommonYearCount)
            yearDistribution with
    | Some (year, _) => or_zero year
    | None => 0%Z
    end in
  let isYearDistributionSkewed :=
    ratio_above_70 mostCommonYearCount (length participants) in
  {| yearDistribution := yearDistribution;
     genderDistribution := {| male := males; female := females |};
     mostCommonYear := mostCommonYear;
     mostCommonYearCount := mostCommonYearCount;
     uniqueYears := length yearDistribution;
     totalParticipants := length participants;
     excludedPairsCount := length exclusions;
     isYearDistributionSkewed := isYearDistributionSkewed;
     isGenderBalanced :=
       (Z.abs (Z.of_nat males - Z.of_nat females) <=? 1)%Z |}.

(** [person?.yearMoved === year] for the first participant of that
    name. *)
Definition named_moved_in (participantMap : ParticipantMap)
  (who : string) (year : Z) : bool :=
  match find (fun p => name p =? who) (Map_values participantMap) with
  | Some person => (yearMoved person =? year)%Z
  | None => false
  end.

Definition isClueObvious (clue : ClueData) (assignments : list Assignment)
  (participantMap : ParticipantMap) (analysis : ParticipantAnalysis)
  (exclusions : list Exclusion) : bool :=
  let clueText := toLowerCase (text clue) in
  let year_check :=
    if ClueType_eqb (type clue) type_year then
      (if isYearDistributionSkewed analysis then
         if includes clueText "different year"
            || includes clueText "same year"
            || includes clueText
                 "who moved to montreal in the same year as them"
         then
           let excludedPairsInMajorityYear :=
             length
               (filter
                  (fun exclusion =>
                     named_moved_in participantMap (participant1 exclusion)
                       (mostCommonYear analysis)
                     && named_moved_in participantMap
                          (participant2 exclusion) (mostCommonYear analysis))
                  exclusions) in
           (* excludedPairsInMajorityYear >= excludedPairsCount * 0.5 *)
           (excludedPairsCount analysis <=? 2 * excludedPairsInMajorityYear)%nat
         else false
       else false)
      || (uniqueYears analysis <=? 2)%nat
    else false in
  let gender_check :=
    if ClueType_eqb (type clue) type_gender then
      let male := male (genderDistribution analysis) in
      let female := female (genderDistribution analysis) in
      let totalGender := (male + female)%nat in
      (if (0 <? totalGender)%nat then
         (* Math.max(male, female) / totalGender > 0.8 *)
         (8 * totalGender <? 10 * Nat.max male female)%nat
       else false)
      || ((0 <? excludedPairsCount analysis)%nat && (totalGender <=? 4)%nat)
    else false in
  let count_check :=
    if ClueType_eqb (type clue) type_count
       && (totalParticipants analysis <=? 4)%nat
    then includes clueText "there are" && includes clueText "people"
    else false in
  year_check || gender_check || count_check.

(* ================================================================== *)
(** * clues.ts: the three candidate generators *)
(* ================================================================== *)

(** The four counters of [generateGenderGiftingClues]. *)
Record GenderTally : Type := mkTally {
  menToWomen : nat;
  womenToMen : nat;
  menToMen : nat;
  womenToWomen : nat
}.

Definition tally_genders (assignments : list Assignment)
  (participantMap : ParticipantMap) : GenderTally :=
  fold_left
    (fun t assignment =>
       match get_participant participantMap (giverId assignment),
             get_participant participantMap (receiverId assignment) with
       | Some giver, Some receiver =>
           if is_male giver && is_female receiver then
             mkTally (S (menToWomen t)) (womenToMen t) (menToMen t)
               (womenToWomen t)
           else if is_female giver && is_male receiver then
             mkTally (menToWomen t) (S (womenToMen t)) (menToMen t)
               (womenToWomen t)
           else if is_male giver && is_male receiver then
             mkTally (menToWomen t) (womenToMen t) (S (menToMen t))
               (womenToWomen t)
           else if is_female giver && is_female receiver then
             mkTally (menToWomen t) (womenToMen t) (menToMen t)
               (S (womenToWomen t))
           else t
       | _, _ => t
       end)
    assignments (mkTally 0 0 0 0).

(** The local function [isGenderPatternObvious]. *)
Definition isGenderPatternObvious (participantMap : ParticipantMap)
  (exclusions : list Exclusion) (pattern : string) : bool :=
  let participants := Map_values participantMap in
  let males := filter is_male participants in
  let females := filter is_female participants in
  let both_among (group : list Participant) (e : Exclusion) :=
    existsb (fun p => name p =? participant1 e) group
    && existsb (fun p => name p =? participant2 e) group in
  if includes pattern "women are giving gifts to other women"
     && (length females =? 2)%nat
  then existsb (both_among females) exclusions
  else if includes pattern "men are giving gifts to other men"
          && (length males =? 2)%nat
  then existsb (both_among males) exclusions
  else false.

Definition generateGenderGiftingClues (assignments : list Assignment)
  (participantMap : ParticipantMap) (exclusions : list Exclusion)
  : list ClueData :=
  let t := tally_genders assignments participantMap in
  let obvious := isGenderPatternObvious participantMap exclusions in
  (if (menToWomen t =? 0)%nat && negb (obvious "men to women") then
     [mkClue "No men are giving gifts to women" type_gender medium]
   else if (menToWomen t =? 1)%nat then
     [mkClue "Exactly one man is giving a gift to a woman" type_gender easy]
   else if (1 <? menToWomen t)%nat then
     [mkClue (show_nat (menToWomen t) ++ " men are giving gifts to women")
        type_gender easy]
   else [])
  ++ (if (womenToMen t =? 0)%nat && negb (obvious "women to men") then
        [mkClue "No women are giving gifts to men" type_gender medium]
      else if (womenToMen t =? 1)%nat then
        [mkClue "Exactly one woman is giving a gift to a man"
           type_gender easy]
      else if (1 <? womenToMen t)%nat then
        [mkClue (show_nat (womenToMen t) ++ " women are giving gifts to men")
           type_gender easy]
      else [])
  ++ (if (menToMen t =? 0)%nat
         && negb (obvious "men are giving gifts to other men")
      then [mkClue "No men are giving gifts to other men" type_gender medium]
      else [])
  ++ (if (womenToWomen t =? 0)%nat
         && negb (obvious "women are giving gifts to other women")
      then [mkClue "No women are giving gifts to other women"
              type_gender medium]
      else []).

(** An element of [yearAssignments], after the filter that keeps the
    assignments whose two ends are known. *)
Record YearAssignment : Type := mkYearAssignment {
  giverYear : Z;
  receiverYear : Z;
  giver : Participant;
  receiver : Participant
}.

Definition yearAssignments_of (assignments : list Assignment)
  (participantMap : ParticipantMap) : list YearAssignment :=
  flat_map
    (fun assignment =>
       match get_participant participantMap (giverId assignment),
             get_participant participantMap (receiverId assignment) with
       | Some g, Some r =>
           [mkYearAssignment (or_zero (yearMoved g)) (or_zero (yearMoved r))
              g r]
       | _, _ => []
       end)
    assignments.

Definition generateYearGiftingClues (assignments : list Assignment)
  (participantMap : ParticipantMap) : list ClueData :=
  let yearAssignments := yearAssignments_of assignments participantMap in
  let years := map yearMoved (Map_values participantMap) in
  let earliestYear := Math_min years in
  let latestYear := Math_max years in
  let earliestMovers :=
    filter (fun p => equals_number (yearMoved p) earliestYear)
      (Map_values participantMap) in
  let latestMovers :=
    filter (fun p => equals_number (yearMoved p) latestYear)
      (Map_values participantMap) in
  (match earliestMovers with
   | [earliestMover] =>
       match find (fun a => id (giver a) =? id earliestMover)
               yearAssignments with
       | Some assignment =>
           if negb (equals_number (receiverYear assignment) earliestYear)
           then
             [mkClue
                ("The longest Montreal resident (since "
                 ++ show_number earliestYear
                 ++ ") is giving to someone who arrived in "
                 ++ show_Z (receiverYear assignment))
                type_year medium]
           else []
       | None => []
       end
   | _ => []
   end)
  ++ (match latestMovers with
      | [latestMover] =>
          match find (fun a => id (receiver a) =? id latestMover)
                  yearAssignments with
          | Some assignment =>
              if negb (equals_number (giverYear assignment) latestYear)
              then
                [mkClue
                   ("The newest Montreal resident (arrived "
                    ++ show_number latestYear
                    ++ ") is receiving from someone who moved in "
                    ++ show_Z (giverYear assignment))
                   type_year medium]
              else []
          | None => []
          end
      | _ => []
      end)
  ++ (let uniqueYears :=
        Set_of Z.eqb
          (map giverYear yearAssignments ++ map receiverYear yearAssignments)
      in
      if (3 <=? length uniqueYears)%nat then
        let sameYearCount :=
          length
            (filter (fun a => (giverYear a =? receiverYear a)%Z)
               yearAssignments) in
        let olderToNewer :=
          length
            (filter (fun a => (giverYear a <? receiverYear a)%Z)
               yearAssignments) in
        let newerToOlder :=
          length
            (filter (fun a => (receiverYear a <? giverYear a)%Z)
               yearAssignments) in
        (if (sameYearCount =? 0)%nat then
           [mkClue
              "No one is giving a gift to someone who moved to Montreal in the same year as them"
              type_year easy]
         else if (sameYearCount =? 1)%nat then
           [mkClue
              "Exactly one person is giving a gift to someone who moved to Montreal in the same year as them"
              type_year medium]
         else if (1 <? sameYearCount)%nat
                 && (Z.of_nat sameYearCount
                     <? Z.of_nat (length yearAssignments) - 1)%Z
         then
           [mkClue
              (show_nat sameYearCount
               ++ " people are giving gifts to someone who moved to Montreal in the same year as them")
              type_year hard]
         else [])
        ++ (if (olderToNewer =? 0)%nat && (4 <=? length yearAssignments)%nat
            then
              [mkClue
                 "No longtime Montreal residents are giving gifts to newer residents"
                 type_year medium]
            else [])
        ++ (if (newerToOlder =? 0)%nat && (4 <=? length yearAssignments)%nat
            then
              [mkClue
                 "No newer Montreal residents are giving gifts to longtime residents"
                 type_year medium]
            else [])
      else []).

Definition generateSpecificPatternClues (assignments : list Assignment)
  (participantMap : ParticipantMap) (rs : RandomSource)
  : list ClueData * RandomSource :=
  let participants := Map_values participantMap in
  let years := Array_sort_default (Set_of Z.eqb (map yearMoved participants)) in
  let yearAssignments :=
    filter (fun a => negb (giverYear a =? receiverYear a)%Z)
      (yearAssignments_of assignments participantMap) in
  let uniqueGiverYears := Set_of Z.eqb (map giverYear yearAssignments) in
  let uniqueReceiverYears := Set_of Z.eqb (map receiverYear yearAssignments) in
  let (gap_clues, rs') :=
    if (0 <? length yearAssignments)%nat
       && (2 <=? length uniqueGiverYears)%nat
       && (2 <=? length uniqueReceiverYears)%nat
    then
      let (k, rs') := Math_random rs in
      (* the index is inside the array: [floor_times k n < n] *)
      match nth_error yearAssignments
              (floor_times k (length yearAssignments)) with
      | Some randomAssignment =>
          let yearGap :=
            Z.abs (giverYear randomAssignment
                   - receiverYear randomAssignment) in
          let sameYearGivers :=
            filter (fun a => (giverYear a =? giverYear randomAssignment)%Z)
              yearAssignments in
          if (1 <? yearGap)%Z
             && ((1 <? length sameYearGivers)%nat
                 || (2 <? length uniqueGiverYears)%nat)
          then
            ([mkClue
                ("Someone who moved to Montreal in "
                 ++ show_Z (giverYear randomAssignment)
                 ++ " is giving to someone who arrived in "
                 ++ show_Z (receiverYear randomAssignment))
                type_year hard], rs')
          else ([], rs')
      | None => ([], rs')
      end
    else ([], rs) in
  let range_clues :=
    if (3 <=? length years)%nat then
      let oldestYear := Math_min years in
      let newestYear := Math_max years in
      let middleYears :=
        filter
          (fun y => negb (equals_number y oldestYear)
                    && negb (equals_number y newestYear))
          years in
      if (0 <? length middleYears)%nat then
        let someoneGivingToMiddle :=
          existsb
            (fun a =>
               let receiverYear :=
                 match get_participant participantMap (receiverId a) with
                 | Some r => or_zero (yearMoved r)
                 | None => 0%Z
                 end in
               existsb (Z.eqb receiverYear) middleYears)
            assignments in
        if someoneGivingToMiddle then
          [mkClue
             ("At least one person is giving to someone who moved to Montreal between "
              ++ show_number (number_plus oldestYear 1)
              ++ " and " ++ show_number (number_plus newestYear (-1)))
             type_year medium]
        else []
      else []
    else [] in
  (gap_clues ++ range_clues, rs').

(* ================================================================== *)
(** * clues.ts: backfill and [generateClues] *)
(* ================================================================== *)

Section Clues.
Context {P : Platform}.

Definition generateSmartBackupClues (assignments : list Assignment)
  (participantMap : ParticipantMap) (analysis : ParticipantAnalysis)
  (exclusions : list Exclusion) (needed : nat) : list ClueData :=
  let participants := Map_values participantMap in
  let count_pairs (test : Participant -> Participant -> bool) : nat :=
    length
      (filter
         (fun a =>
            match get_participant participantMap (giverId a),
                  get_participant participantMap (receiverId a) with
            | Some g, Some r => test g r
            | _, _ => false
            end)
         assignments) in
  let clues :=
    (if (0 <? needed)%nat && (5 <=? totalParticipants analysis)%nat then
       let alphabeticalGiving :=
         count_pairs
           (fun g r =>
              String.ltb (toLowerCase (name g)) (toLowerCase (name r))) in
       if (0 <? alphabeticalGiving)%nat
          && negb (alphabeticalGiving =? totalParticipants analysis)%nat
       then
         [mkClue
            (show_nat alphabeticalGiving ++ " "
             ++ (if (alphabeticalGiving =? 1)%nat then "person is"
                 else "people are")
             ++ " giving gifts to someone whose name comes later in the alphabet")
            type_specific hard]
       else []
     else [])
    ++ (if (1 <? needed)%nat then
          let longToShortNames :=
            count_pairs
              (fun g r =>
                 (String.length (name r) <? String.length (name g))%nat) in
          if (0 <? longToShortNames)%nat then
            [mkClue
               (show_nat longToShortNames ++ " "
                ++ (if (longToShortNames =? 1)%nat
                    then "person with a longer name is"
                    else "people with longer names are")
                ++ " giving gifts to someone with a shorter name")
               type_specific hard]
          else []
        else [])
    ++ (if (2 <? needed)%nat && negb (isYearDistributionSkewed analysis) then
          let yearGaps :=
            filter (fun gap => (0 <? gap)%Z)
              (map
                 (fun a =>
                    match get_participant participantMap (giverId a),
                          get_participant participantMap (receiverId a) with
                    | Some g, Some r => Z.abs (yearMoved g - yearMoved r)
                    | _, _ => 0%Z
                    end)
                 assignments) in
          if (0 <? length yearGaps)%nat then
            match Math_max yearGaps with
            | Num maxGap =>
                if (2 <=? maxGap)%Z then
                  [mkClue
                     ("The biggest time gap between a gift-giver and receiver's Montreal arrival dates is "
                      ++ show_Z maxGap ++ " years")
                     type_year hard]
                else []
            | _ => []
            end
          else []
        else [])
    ++ (if (3 <? needed)%nat then
          let emailDomains := map (fun p => split_at_1 (email p)) participants in
          let same_domain (d1 d2 : option string) : bool :=
            match d1, d2 with
            | Some a, Some b => a =? b
            | None, None => true
            | _, _ => false
            end in
          let uniqueDomains := Set_of same_domain emailDomains in
          if (1 <? length uniqueDomains)%nat
             && (length uniqueDomains <? length participants)%nat
          then
            let domainCounts :=
              map
                (fun domain =>
                   Z.of_nat
                     (length (filter (fun d => same_domain d domain)
                                emailDomains)))
                uniqueDomains in
            [mkClue
               (show_number (Math_max domainCounts)
                ++ " participants share the same email provider")
               type_specific medium]
          else []
        else [])
    ++ (if (4 <? needed)%nat then
          let vowelCounts :=
            map (fun p => count_vowels (toLowerCase (name p))) participants in
          [mkClue
             ("The average number of vowels in participants' names is "
              ++ render_rounded_average
                   (Z.of_nat (fold_left Nat.add vowelCounts O))
                   (length vowelCounts))
             type_specific medium]
        else [])
    ++ (if (5 <? needed)%nat then
          let sortedByYear :=
            Array_sort (fun a b => (yearMoved b - yearMoved a)%Z)
              participants in
          let recentArrivals :=
            firstn ((length participants + 2) / 3) sortedByYear in
          let recentArrivalsReceiving :=
            length
              (filter
                 (fun a =>
                    existsb (fun p => id p =? receiverId a) recentArrivals)
                 assignments) in
          if (0 <? recentArrivalsReceiving)%nat then
            [mkClue
               (show_nat recentArrivalsReceiving
                ++ " of the most recent Montreal arrivals are receiving gifts")
               type_year medium]
          else []
        else []) in
  let nonObviousBackups :=
    filter
      (fun clue =>
         negb (isClueObvious clue assignments participantMap analysis
                 exclusions))
      clues in
  firstn needed nonObviousBackups.

(** The body of [generateClues] once the token is decoded. *)
Definition generateClues_from (assignments : list Assignment)
  (participants : list Participant) (exclusions : list Exclusion)
  (rs : RandomSource) : list ClueData * RandomSource :=
  let participantMap := participantMap_of participants in
  let participantAnalysis :=
    analyzeParticipantDistribution participants exclusions in
  let (specific, rs1) :=
    generateSpecificPatternClues assignments participantMap rs in
  let allClues :=
    generateGenderGiftingClues assignments participantMap exclusions
    ++ generateYearGiftingClues assignments participantMap
    ++ specific in
  let nonObviousClues :=
    filter
      (fun clue =>
         negb (isClueObvious clue assignments participantMap
                 participantAnalysis exclusions))
      allClues in
  let (shuffled, rs2) := Array_sort_random nonObviousClues rs1 in
  let shuffled' :=
    if (length shuffled <? 10)%nat then
      shuffled
      ++ generateSmartBackupClues assignments participantMap
           participantAnalysis exclusions (10 - length shuffled)
    else shuffled in
  (firstn 10 shuffled', rs2).

(** A decoded value read at its declared type [Assignment[]]: an array
    of objects whose [giverId] and [receiverId] are strings. *)
Definition assignment_of_js (v : JSValue) : option Assignment :=
  match v with
  | JObj fields =>
      match get_field fields "giverId", get_field fields "receiverId" with
      | JStr g, JStr r => Some (mkAssignment g r)
      | _, _ => None
      end
  | _ => None
  end.

Fixpoint assignments_of_items (items : list JSValue)
  : option (list Assignment) :=
  match items with
  | [] => Some []
  | v :: rest =>
      match assignment_of_js v, assignments_of_items rest with
      | Some a, Some l => Some (a :: l)
      | _, _ => None
      end
  end.

Definition assignments_of_js (v : JSValue) : option (list Assignment) :=
  match v with
  | JArr items => assignments_of_items items
  | _ => None
  end.

(** [generateClues].  The error of [decryptAssignments] propagates.  A
    decoded value that is not an [Assignment[]] is outside the declared
    types; what the body would do with it is not modelled. *)
Definition generateClues (encryptedAssignments : string)
  (participants : list Participant) (exclusions : list Exclusion)
  (rs : RandomSource) : result (list ClueData) * RandomSource :=
  match decryptAssignments encryptedAssignments with
  | Throw msg => (Throw msg, rs)
  | Ok v =>
      match assignments_of_js v with
      | Some assignments =>
          let (clues, rs') :=
            generateClues_from assignments participants exclusions rs in
          (Ok clues, rs')
      | None => (Throw "the decoded value is not an Assignment[]", rs)
      end
  end.

End Clues.

(* ================================================================== *)
(** * A reference platform *)
(* ================================================================== *)

(** A small executable platform, used to run the engine on concrete
    inputs: a JSON codec for the texts [JSON.stringify] writes (strings
    are escaped as JSON requires, numbers are integers), and a stand-in
    for the cipher (a keyed, salted mask over the message, behind the
    prefix every salted CryptoJS token starts with). *)
Module Reference.

Definition quote : ascii := "034"%char.
Definition backslash : ascii := "092"%char.

Definition hex_digit (n : nat) : ascii :=
  nth n ["0"; "1"; "2"; "3"; "4"; "5"; "6"; "7"; "8"; "9";
         "a"; "b"; "c"; "d"; "e"; "f"]%char "0"%char.

(** The JSON escape of one character. *)
Definition escape_char (c : ascii) : string :=
  let n := nat_of_ascii c in
  if (c =? quote)%char then String backslash (String quote EmptyString)
  else if (c =? backslash)%char then String backslash (String backslash EmptyString)
  else if (n =? 8)%nat then String backslash "b"
  else if (n =? 9)%nat then String backslash "t"
  else if (n =? 10)%nat then String backslash "n"
  else if (n =? 12)%nat then String backslash "f"
  else if (n =? 13)%nat then String backslash "r"
  else if (n <? 32)%nat then
    String backslash
      (String "u" (String "0" (String "0"
         (String (hex_digit (n / 16)) (String (hex_digit (n mod 16)) EmptyString)))))
  else String c EmptyString.

Fixpoint escape_string (s : string) : string :=
  match s with
  | EmptyString => EmptyString
  | String c t => (escape_char c ++ escape_string t)%string
  end.

Definition quoted (s : string) : string :=
  String quote (escape_string s ++ String quote EmptyString)%string.

Fixpoint stringify (v : JSValue) : string :=
  match v with
  | JUndefined | JNull => "null"
  | JBool true => "true"
  | JBool false => "false"
  | JNum n => show_Z n
  | JStr s => quoted s
  | JArr items => ("[" ++ String.concat "," (map stringify items) ++ "]")%string
  | JObj fields =>
      ("{"
       ++ String.concat ","
            (map (fun kv => match kv with
                            | (k, x) => (quoted k ++ ":" ++ stringify x)%string
                            end) fields)
       ++ "}")%string
  end.

Definition is_whitespace (c : ascii) : bool :=
  let n := nat_of_ascii c in
  ((n =? 32) || (n =? 9) || (n =? 10) || (n =? 13))%nat.

Fixpoint skip_whitespace (s : string) : string :=
  match s with
  | EmptyString => EmptyString
  | String c t => if is_whitespace c then skip_whitespace t else s
  end.

Definition hex_value (c : ascii) : option nat :=
  let n := nat_of_ascii c in
  if ((48 <=? n) && (n <=? 57))%nat then Some (n - 48)%nat
  else if ((97 <=? n) && (n <=? 102))%nat then Some (n - 87)%nat
  else if ((65 <=? n) && (n <=? 70))%nat then Some (n - 55)%nat
  else None.

Definition cons_char (c : ascii) (r : option (string * string))
  : option (string * string) :=
  match r with
  | Some (s, rest) => Some (String c s, rest)
  | None => None
  end.

(** The body of a string literal, after its opening quote: the string
    and the text after the closing quote.  Escapes above [ÿ] have no
    character in this model and are rejected. *)
Fixpoint parse_string_body (s : string) : option (string * string) :=
  match s with
  | EmptyString => None
  | String c t =>
      if (c =? quote)%char then Some (EmptyString, t)
      else if (c =? backslash)%char then
        match t with
        | EmptyString => None
        | String e t' =>
            if (e =? quote)%char || (e =? backslash)%char || (e =? "/")%char
            then cons_char e (parse_string_body t')
            else if (e =? "b")%char
            then cons_char (ascii_of_nat 8) (parse_string_body t')
            else if (e =? "t")%char
            then cons_char (ascii_of_nat 9) (parse_string_body t')
            else if (e =? "n")%char
            then cons_char (ascii_of_nat 10) (parse_string_body t')
            else if (e =? "f")%char
            then cons_char (ascii_of_nat 12) (parse_string_body t')
            else if (e =? "r")%char
            then cons_char (ascii_of_nat 13) (parse_string_body t')
            else if (e =? "u")%char then
              match t' with
              | String h1 (String h2 (String h3 (String h4 t''))) =>
                  match hex_value h1, hex_value h2,
                        hex_value h3, hex_value h4 with
                  | Some 0%nat, Some 0%nat, Some d3, Some d4 =>
                      cons_char (ascii_of_nat (16 * d3 + d4))
                        (parse_string_body t'')
                  | _, _, _, _ => None
                  end
              | _ => None
              end
            else None
        end
      else if (nat_of_ascii c <? 32)%nat then None
      else cons_char c (parse_string_body t)
  end.

Definition is_digit (c : ascii) : bool :=
  let n := nat_of_ascii c in ((48 <=? n) && (n <=? 57))%nat.

(** The digits at the head of the text, as a number continuing [acc]. *)
Fixpoint parse_digits (s : string) (acc : Z) : Z * string :=
  match s with
  | EmptyString => (acc, s)
  | String c t =>
      if is_digit c
      then parse_digits t (10 * acc + Z.of_nat (nat_of_ascii c - 48))%Z
      else (acc, s)
  end.

Definition parse_number (s : string) : option (JSValue * string) :=
  match s with
  | String c t =>
      if (c =? "-")%char then
        match t with
        | String d _ =>
            if is_digit d
            then let (n, rest) := parse_digits t 0 in Some (JNum (- n), rest)
            else None
        | EmptyString => None
        end
      else if is_digit c
      then let (n, rest) := parse_digits s 0 in Some (JNum n, rest)
      else None
  | EmptyString => None
  end.

Fixpoint strip_prefix (p s : string) : option string :=
  match p with
  | EmptyString => Some s
  | String a p' =>
      match s with
      | String b s' => if (a =? b)%char then strip_prefix p' s' else None
      | EmptyString => None
      end
  end.

Fixpoint parse_value (fuel : nat) (s : string) : option (JSValue * string) :=
  match fuel with
  | O => None
  | S fuel' =>
      match skip_whitespace s with
      | EmptyString => None
      | String c t =>
          if (c =? "{")%char then
            match skip_whitespace t with
            | String "}" rest => Some (JObj [], rest)
            | _ =>
                match parse_members fuel' t with
                | Some (fields, rest) => Some (JObj fields, rest)
                | None => None
                end
            end
          else if (c =? "[")%char then
            match skip_whitespace t with
            | String "]" rest => Some (JArr [], rest)
            | _ =>
                match parse_elements fuel' t with
                | Some (items, rest) => Some (JArr items, rest)
                | None => None
                end
            end
          else if (c =? quote)%char then
            match parse_string_body t with
            | Some (str, rest) => Some (JStr str, rest)
            | None => None
            end
          else
            match strip_prefix "null" (String c t),
                  strip_prefix "true" (String c t),
                  strip_prefix "false" (String c t) with
            | Some rest, _, _ => Some (JNull, rest)
            | _, Some rest, _ => Some (JBool true, rest)
            | _, _, Some rest => Some (JBool false, rest)
            | _, _, _ => parse_number (String c t)
            end
      end
  end

(** The elements of an array up to its closing bracket. *)
with parse_elements (fuel : nat) (s : string)
  : option (list JSValue * string) :=
  match fuel with
  | O => None
  | S fuel' =>
      match parse_value fuel' s with
      | Some (v, rest) =>
          match skip_whitespace rest with
          | String "," rest' =>
              match parse_elements fuel' rest' with
              | Some (items, rest'') => Some (v :: items, rest'')
              | None => None
              end
          | String "]" rest' => Some ([v], rest')
          | _ => None
          end
      | None => None
      end
  end

(** The members of an object up to its closing brace. *)
with parse_members (fuel : nat) (s : string)
  : option (list (string * JSValue) * string) :=
  match fuel with
  | O => None
  | S fuel' =>
      match skip_whitespace s with
      | String c t =>
          if (c =? quote)%char then
            match parse_string_body t with
            | Some (key, rest) =>
                match skip_whitespace rest with
                | String ":" rest' =>
                    match parse_value fuel' rest' with
                    | Some (v, rest'') =>
                        match skip_whitespace rest'' with
                        | String "," rest3 =>
                            match parse_members fuel' rest3 with
                            | Some (fields, rest4) =>
                                Some ((key, v) :: fields, rest4)
                            | None => None
                            end
                        | String "}" rest3 => Some ([(key, v)], rest3)
                        | _ => None
                        end
                    | None => None
                    end
                | _ => None
                end
            | None => None
            end
          else None
      | EmptyString => None
      end
  end.

Definition parse (s : string) : option JSValue :=
  match parse_value (S (String.length s)) s with
  | Some (v, rest) =>
      match skip_whitespace rest with
      | EmptyString => Some v
      | _ => None
      end
  | None => None
  end.

(** ** The stand-in cipher *)

Definition xor_ascii (a b : ascii) : ascii :=
  match a, b with
  | Ascii a0 a1 a2 a3 a4 a5 a6 a7, Ascii b0 b1 b2 b3 b4 b5 b6 b7 =>
      Ascii (xorb a0 b0) (xorb a1 b1) (xorb a2 b2) (xorb a3 b3)
        (xorb a4 b4) (xorb a5 b5) (xorb a6 b6) (xorb a7 b7)
  end.

Fixpoint key_byte (key : string) : ascii :=
  match key with
  | EmptyString => zero
  | String c t => xor_ascii c (key_byte t)
  end.

Definition salt_byte (salt : N) : ascii := ascii_of_N (salt mod 256).

Fixpoint mask_string (m : ascii) (s : string) : string :=
  match s with
  | EmptyString => EmptyString
  | String c t => String (xor_ascii c m) (mask_string m t)
  end.

(** The first characters of every salted CryptoJS token. *)
Definition salted_prefix : string := "U2FsdGVkX1".

Definition encrypt (message key : string) (salt : N) : string :=
  (salted_prefix
   ++ String (salt_byte salt)
        (mask_string (xor_ascii (key_byte key) (salt_byte salt)) message))%string.

(** A text without the prefix and the salt decrypts to the empty
    string. *)
Definition decrypt_utf8 (data key : string) : option string :=
  match strip_prefix salted_prefix data with
  | Some (String s body) =>
      Some (mask_string (xor_ascii (key_byte key) s) body)
  | _ => Some EmptyString
  end.

(** [Math.round((sum / count) * 10) / 10] on exact quotients. *)
Definition rounded_average (sum : Z) (count : nat) : string :=
  match count with
  | O => "NaN"
  | S _ =>
      let tenths := ((20 * sum + Z.of_nat count) / (2 * Z.of_nat count))%Z in
      if (tenths mod 10 =? 0)%Z then show_Z (tenths / 10)
      else (show_Z (tenths / 10) ++ "." ++ show_Z (tenths mod 10))%string
  end.

Definition platform : Platform := {|
  ENCRYPTION_KEY := "fallback-secret-key";
  AES_encrypt := encrypt;
  AES_decrypt_utf8 := decrypt_utf8;
  JSON_stringify := stringify;
  JSON_parse := parse;
  render_rounded_average := rounded_average
|}.

End Reference.

(* ================================================================== *)
(** * Concrete inputs *)
(* ================================================================== *)

Definition person (i n g : string) (y : Z) : Participant :=
  mkParticipant i "game" n (n ++ "@example.com") g y.

Definition alice : Participant := person "p1" "Alice" "female" 2015.
Definition bob : Participant := person "p2" "Bob" "male" 2018.
Definition carol : Participant := person "p3" "Carol" "female" 2020.
Definition dave : Participant := person "p4" "Dave" "male" 2021.

Definition couple (a b : string) : AssignmentConstraint :=
  mkConstraint no_couples (Some (mkExclusion a b None)).

Definition three : list Participant := [alice; bob; carol].

Definition four : list Participant := [alice; bob; carol; dave].

(** Alice may give to nobody: no derangement satisfies the exclusions. *)
Definition alice_excluded : list AssignmentConstraint :=
  [couple "Alice" "Bob"; couple "Alice" "Carol"].

Definition carol_dave : list Exclusion := [mkExclusion "Carol" "Dave" None].

(** The cycle Alice, Bob, Carol, Dave, Alice. *)
Definition demo_assignments : list Assignment :=
  [mkAssignment "p1" "p2"; mkAssignment "p2" "p3";
   mkAssignment "p3" "p4"; mkAssignment "p4" "p1"].

Definition demo_token : string :=
  encryptAssignments (P := Reference.platform) demo_assignments 0.

(** [Math.random()] returning [1 - 2^-53] at every call: every shuffle
    leaves the array as it is. *)
Definition rs_top : RandomSource := fun _ => (two53 - 1)%N.

(** [Math.random()] returning [0] at every call. *)
Definition rs_zero : RandomSource := fun _ => 0%N.

(** [Math.random()] returning [5/16] at every call. *)
Definition rs_low : RandomSource := fun _ => (5 * 2 ^ 49)%N.

(* ================================================================== *)
(** * Specification vocabulary *)
(* ================================================================== *)

Definition count_as_giver (assignments : list Assignment) (i : string) : nat :=
  length (filter (fun a => giverId a =? i) assignments).

Definition count_as_receiver (assignments : list Assignment) (i : string)
  : nat :=
  length (filter (fun a => receiverId a =? i) assignments).

(** Every participant gives exactly once and receives exactly once, and
    nobody gives to themself. *)
Definition valid_derangement (assignments : list Assignment)
  (participants : list Participant) : Prop :=
  (forall p, In p participants ->
     count_as_giver assignments (id p) = 1%nat
     /\ count_as_receiver assignments (id p) = 1%nat)
  /\ (forall a, In a assignments -> giverId a <> receiverId a).

(** The pair (giver name, receiver name) matches the exclusion in one of
    the two directions. *)
Definition matches_exclusion (e : Exclusion) (giverName receiverName : string)
  : Prop :=
  (giverName = participant1 e /\ receiverName = participant2 e)
  \/ (giverName = participant2 e /\ receiverName = participant1 e).

(** No assignment joins two participants whose names are an excluded
    pair. *)
Definition respects_exclusions (assignments : list Assignment)
  (participants : list Participant) (constraints : list AssignmentConstraint)
  : Prop :=
  forall a g r c e,
    In a assignments -> In g participants -> In r participants ->
    id g = giverId a -> id r = receiverId a ->
    In c constraints -> constraint_type c = no_couples -> data c = Some e ->
    ~ matches_exclusion e (name g) (name r).

(** The assignments that pair the givers with the receivers, in order. *)
Definition pair_up (givers receivers : list Participant) : list Assignment :=
  map (fun gr => mkAssignment (id (fst gr)) (id (snd gr)))
    (combine givers receivers).

(** Some assignment of the participants is a derangement that respects
    every exclusion. *)
Definition jointly_satisfiable (participants : list Participant)
  (constraints : list AssignmentConstraint) : Prop :=
  exists assignments,
    valid_derangement assignments participants
    /\ respects_exclusions assignments participants constraints.

(** The first [n] constrained attempts all throw; the random source left
    after them. *)
Fixpoint all_attempts_fail (n : nat) (participants : list Participant)
  (constraints : list AssignmentConstraint) (rs : RandomSource)
  : option RandomSource :=
  match n with
  | O => Some rs
  | S n' =>
      match attemptAssignment participants constraints rs with
      | (Ok _, _) => None
      | (Throw _, rs') => all_attempts_fail n' participants constraints rs'
      end
  end.

(** The candidates of the three generators that pass the obviousness
    filter, before they are shuffled. *)
Definition surviving_candidates (assignments : list Assignment)
  (participants : list Participant) (exclusions : list Exclusion)
  (rs : RandomSource) : list ClueData :=
  let participantMap := participantMap_of participants in
  filter
    (fun clue =>
       negb (isClueObvious clue assignments participantMap
               (analyzeParticipantDistribution participants exclusions)
               exclusions))
    (generateGenderGiftingClues assignments participantMap exclusions
     ++ generateYearGiftingClues assignments participantMap
     ++ fst (generateSpecificPatternClues assignments participantMap rs)).

(** The backfill appended when [survivors] candidates passed the filter:
    none when there are ten already. *)
Definition backfill_for {P : Platform} (assignments : list Assignment)
  (participants : list Participant) (exclusions : list Exclusion)
  (survivors : nat) : list ClueData :=
  if (survivors <? 10)%nat then
    generateSmartBackupClues assignments (participantMap_of participants)
      (analyzeParticipantDistribution participants exclusions) exclusions
      (10 - survivors)
  else [].


(* ================================================================== *)
(** * Further vocabulary for the assignment engine *)
(* ================================================================== *)

(** A constraint that can reject a pair: [no_same_gender], or
    [no_couples] with its [data].  The others ([custom], [no_couples]
    without [data]) fall through the [switch]. *)
Definition is_informative (c : AssignmentConstraint) : bool :=
  match constraint_type c, data c with
  | no_same_gender, _ => true
  | no_couples, Some _ => true
  | _, _ => false
  end.

(** No assignment joins two participants of the same [gender] (the
    strings are compared as they are). *)
Definition respects_gender_rule (assignments : list Assignment)
  (participants : list Participant) : Prop :=
  forall a g r,
    In a assignments -> In g participants -> In r participants ->
    id g = giverId a -> id r = receiverId a ->
    gender g <> gender r.


(* ================================================================== *)
(** * Further vocabulary for the clue engine *)
(* ================================================================== *)

(** The number of participants who moved in [year]. *)
Definition year_count (participants : list Participant) (year : Z) : nat :=
  length (filter (fun p => (yearMoved p =? year)%Z) participants).

(** The number of assignments whose giver is a participant accepted by
    [giver_test] and whose receiver is a participant accepted by
    [receiver_test], the two being found by their ids. *)
Definition pairs_matching (giver_test receiver_test : Participant -> bool)
  (assignments : list Assignment) (participants : list Participant) : nat :=
  length
    (filter
       (fun a =>
          existsb (fun g => (id g =? giverId a) && giver_test g) participants
          && existsb (fun r => (id r =? receiverId a) && receiver_test r)
               participants)
       assignments).

(** Four women, three of whom moved in 2019 and one in 2020. *)
Definition newcomers : list Participant :=
  [person "p1" "Alice" "female" 2019; person "p2" "Beth" "female" 2019;
   person "p3" "Cleo" "female" 2019; person "p4" "Dora" "female" 2020].

(** The number of assignments whose two ends are in the map and pass
    the two tests. *)
Definition resolved_pairs (giver_test receiver_test : Participant -> bool)
  (assignments : list Assignment) (participantMap : ParticipantMap) : nat :=
  length
    (filter
       (fun a =>
          match get_participant participantMap (giverId a),
                get_participant participantMap (receiverId a) with
          | Some g, Some r => giver_test g && receiver_test r
          | _, _ => false
          end)
       assignments).

(** What the text of a gender clue says of the assignments. *)
Definition gender_clue_holds (assignments : list Assignment)
  (participants : list Participant) (clueText : string) : Prop :=
  let count giver_test receiver_test :=
    pairs_matching giver_test receiver_test assignments participants in
  (clueText = "No men are giving gifts to women"
   /\ count is_male is_female = 0%nat)
  \/ (clueText = "Exactly one man is giving a gift to a woman"
      /\ count is_male is_female = 1%nat)
  \/ (clueText
      = (show_nat (count is_male is_female)
         ++ " men are giving gifts to women")%string
      /\ (1 < count is_male is_female)%nat)
  \/ (clueText = "No women are giving gifts to men"
      /\ count is_female is_male = 0%nat)
  \/ (clueText = "Exactly one woman is giving a gift to a man"
      /\ count is_female is_male = 1%nat)
  \/ (clueText
      = (show_nat (count is_female is_male)
         ++ " women are giving gifts to men")%string
      /\ (1 < count is_female is_male)%nat)
  \/ (clueText = "No men are giving gifts to other men"
      /\ count is_male is_male = 0%nat)
  \/ (clueText = "No women are giving gifts to other women"
      /\ count is_female is_female = 0%nat).

(* ================================================================== *)
(** * lib/clues.ts: the three-clue engine the routes import *)
(* ================================================================== *)

(** [Math.round(sum / count)] for a sum of positive integers, computed
    on the integers: halves round up. *)
Definition Math_round_quotient (sum : Z) (count : nat) : Z :=
  ((2 * sum + Z.of_nat count) / (2 * Z.of_nat count))%Z.

Module LibClues.

(** [generateGenderGiftingClues] of this file is, line for line, the one
    of the ten-clue engine. *)

Definition generateYearGiftingClues (assignments : list Assignment)
  (participantMap : ParticipantMap) : list ClueData :=
  let yearAssignments := yearAssignments_of assignments participantMap in
  let years := map yearMoved (Map_values participantMap) in
  let earliestYear := Math_min years in
  let latestYear := Math_max years in
  let earliestMovers :=
    filter (fun p => equals_number (yearMoved p) earliestYear)
      (Map_values participantMap) in
  let latestMovers :=
    filter (fun p => equals_number (yearMoved p) latestYear)
      (Map_values participantMap) in
  let sameYearCount :=
    length
      (filter (fun a => (giverYear a =? receiverYear a)%Z) yearAssignments) in
  let olderToNewer :=
    length
      (filter (fun a => (giverYear a <? receiverYear a)%Z) yearAssignments) in
  let newerToOlder :=
    length
      (filter (fun a => (receiverYear a <? giverYear a)%Z) yearAssignments) in
  (match earliestMovers with
   | [earliestMover] =>
       match find (fun a => id (giver a) =? id earliestMover)
               yearAssignments with
       | Some assignment =>
           if negb (equals_number (receiverYear assignment) earliestYear)
           then
             [mkClue
                ("The longest Montreal resident (since "
                 ++ show_number earliestYear
                 ++ ") is giving to someone who arrived in "
                 ++ show_Z (receiverYear assignment))
                type_year medium]
           else []
       | None => []
       end
   | _ => []
   end)
  ++ (match latestMovers with
      | [latestMover] =>
          match find (fun a => id (receiver a) =? id latestMover)
                  yearAssignments with
          | Some assignment =>
              if negb (equals_number (giverYear assignment) latestYear)
              then
                [mkClue
                   ("The newest Montreal resident (arrived "
                    ++ show_number latestYear
                    ++ ") is receiving from someone who moved in "
                    ++ show_Z (giverYear assignment))
                   type_year medium]
              else []
          | None => []
          end
      | _ => []
      end)
  ++ (if (sameYearCount =? 0)%nat then
        [mkClue
           "No one is giving a gift to someone who moved to Montreal in the same year as them"
           type_year easy]
      else if (sameYearCount =? 1)%nat then
        [mkClue
           "Exactly one person is giving a gift to someone who moved to Montreal in the same year as them"
           type_year medium]
      else if (1 <? sameYearCount)%nat then
        [mkClue
           (show_nat sameYearCount
            ++ " people are giving gifts to someone who moved to Montreal in the same year as them")
           type_year hard]
      else [])
  ++ (if (olderToNewer =? 0)%nat then
        [mkClue
           "No longtime Montreal residents are giving gifts to newer residents"
           type_year medium]
      else [])
  ++ (if (newerToOlder =? 0)%nat then
        [mkClue
           "No newer Montreal residents are giving gifts to longtime residents"
           type_year medium]
      else []).

Definition generateSpecificPatternClues (assignments : list Assignment)
  (participantMap : ParticipantMap) (rs : RandomSource)
  : list ClueData * RandomSource :=
  let participants := Map_values participantMap in
  let years := Array_sort_default (Set_of Z.eqb (map yearMoved participants)) in
  let yearAssignments :=
    filter (fun a => negb (giverYear a =? receiverYear a)%Z)
      (yearAssignments_of assignments participantMap) in
  let (gap_clues, rs') :=
    if (0 <? length yearAssignments)%nat then
      let (k, rs') := Math_random rs in
      (* the index is inside the array: [floor_times k n < n] *)
      match nth_error yearAssignments
              (floor_times k (length yearAssignments)) with
      | Some randomAssignment =>
          let yearGap :=
            Z.abs (giverYear randomAssignment
                   - receiverYear randomAssignment) in
          if (1 <? yearGap)%Z then
            ([mkClue
                ("Someone who moved to Montreal in "
                 ++ show_Z (giverYear randomAssignment)
                 ++ " is giving to someone who arrived in "
                 ++ show_Z (receiverYear randomAssignment))
                type_year hard], rs')
          else ([], rs')
      | None => ([], rs')
      end
    else ([], rs) in
  let range_clues :=
    if (3 <=? length years)%nat then
      let oldestYear := Math_min years in
      let newestYear := Math_max years in
      let middleYears :=
        filter
          (fun y => negb (equals_number y oldestYear)
                    && negb (equals_number y newestYear))
          years in
      if (0 <? length middleYears)%nat then
        let someoneGivingToMiddle :=
          existsb
            (fun a =>
               let receiverYear :=
                 match get_participant participantMap (receiverId a) with
                 | Some r => or_zero (yearMoved r)
                 | None => 0%Z
                 end in
               existsb (Z.eqb receiverYear) middleYears)
            assignments in
        if someoneGivingToMiddle then
          [mkClue
             ("At least one person is giving to someone who moved to Montreal between "
              ++ show_number (number_plus oldestYear 1)
              ++ " and " ++ show_number (number_plus newestYear (-1)))
             type_year medium]
        else []
      else []
    else [] in
  (gap_clues ++ range_clues, rs').

Definition generateBackupClues (assignments : list Assignment)
  (participantMap : ParticipantMap) (needed : nat) : list ClueData :=
  let participants := Map_values participantMap in
  let clues :=
    (if (0 <? needed)%nat then
       let crossGenderCount :=
         length
           (filter
              (fun a =>
                 match get_participant participantMap (giverId a),
                       get_participant participantMap (receiverId a) with
                 | Some g, Some r => negb (gender g =? gender r)
                 | _, _ => false
                 end)
              assignments) in
       if (0 <? crossGenderCount)%nat then
         [mkClue
            (show_nat crossGenderCount ++ " "
             ++ (if (crossGenderCount =? 1)%nat then "person is"
                 else "people are")
             ++ " giving gifts to someone of a different gender")
            type_gender easy]
       else []
     else [])
    ++ (if (1 <? needed)%nat then
          let year_or_zero (o : option Participant) : Z :=
            match o with
            | Some p => or_zero (yearMoved p)
            | None => 0%Z
            end in
          let yearDifferences :=
            filter (fun diff => (0 <? diff)%Z)
              (map
                 (fun a =>
                    Z.abs
                      (year_or_zero
                         (get_participant participantMap (giverId a))
                       - year_or_zero
                           (get_participant participantMap (receiverId a))))
                 assignments) in
          if (0 <? length yearDifferences)%nat then
            let avgYearDiff :=
              Math_round_quotient (fold_left Z.add yearDifferences 0%Z)
                (length yearDifferences) in
            [mkClue
               ("The average time difference between when gift-givers and receivers moved to Montreal is "
                ++ show_Z avgYearDiff ++ " years")
               type_year medium]
          else []
        else [])
    ++ (if (2 <? needed)%nat then
          let allYears := Array_sort_default (map yearMoved participants) in
          (* [undefined] on an empty array; a comparison with it is
             false *)
          let medianYear := nth_error allYears (length allYears / 2) in
          let oldTimersGivingToNewcomers :=
            length
              (filter
                 (fun a =>
                    match get_participant participantMap (giverId a),
                          get_participant participantMap (receiverId a),
                          medianYear with
                    | Some g, Some r, Some m =>
                        (yearMoved g <? m)%Z && (m <=? yearMoved r)%Z
                    | _, _, _ => false
                    end)
                 assignments) in
          if (0 <? oldTimersGivingToNewcomers)%nat then
            [mkClue
               (show_nat oldTimersGivingToNewcomers
                ++ " Montreal veterans (arrived before "
                ++ match medianYear with
                   | Some m => show_Z m
                   | None => "undefined"
                   end
                ++ ") are giving to newcomers")
               type_year hard]
          else []
        else []) in
  firstn needed clues.

(** The body of [generateClues] once the token is decoded. *)
Definition generateClues_from (assignments : list Assignment)
  (participants : list Participant) (exclusions : list Exclusion)
  (rs : RandomSource) : list ClueData * RandomSource :=
  let participantMap := participantMap_of participants in
  let (specific, rs1) :=
    generateSpecificPatternClues assignments participantMap rs in
  let allClues :=
    generateGenderGiftingClues assignments participantMap exclusions
    ++ generateYearGiftingClues assignments participantMap
    ++ specific in
  let (shuffled, rs2) := Array_sort_random allClues rs1 in
  let shuffled' :=
    if (length shuffled <? 3)%nat then
      shuffled
      ++ generateBackupClues assignments participantMap (3 - length shuffled)
    else shuffled in
  (firstn 3 shuffled', rs2).

(** [generateClues], with the reading of the decoded value of the
    ten-clue engine. *)
Definition generateClues {P : Platform} (encryptedAssignments : string)
  (participants : list Participant) (exclusions : list Exclusion)
  (rs : RandomSource) : result (list ClueData) * RandomSource :=
  match decryptAssignments encryptedAssignments with
  | Throw msg => (Throw msg, rs)
  | Ok v =>
      match assignments_of_js v with
      | Some assignments =>
          let (clues, rs') :=
            generateClues_from assignments participants exclusions rs in
          (Ok clues, rs')
      | None => (Throw "the decoded value is not an Assignment[]", rs)
      end
  end.

(** The candidates of the three generators, before they are shuffled. *)
Definition candidates (assignments : list Assignment)
  (participants : list Participant) (exclusions : list Exclusion)
  (rs : RandomSource) : list ClueData :=
  let participantMap := participantMap_of participants in
  generateGenderGiftingClues assignments participantMap exclusions
  ++ generateYearGiftingClues assignments participantMap
  ++ fst (generateSpecificPatternClues assignments participantMap rs).

End LibClues.

(* ================================================================== *)
(** * email.ts: the two dispatch loops *)
(* ================================================================== *)

(** The text of a value in a template literal. *)
Fixpoint js_to_string (v : JSValue) : string :=
  match v with
  | JUndefined => "undefined"
  | JNull => "null"
  | JBool true => "true"
  | JBool false => "false"
  | JNum n => show_Z n
  | JStr s => s
  | JArr items =>
      (fix join (l : list JSValue) : string :=
         match l with
         | [] => EmptyString
         | x :: rest =>
             (match x with
              | JUndefined | JNull => EmptyString
              | _ => js_to_string x
              end
              ++ match rest with
                 | [] => EmptyString
                 | _ :: _ => "," ++ join rest
                 end)%string
         end) items
  | JObj _ => "[object Object]"
  end.

Module Email.

Record EmailData : Type := mkEmailData {
  gameName : string;
  partyDate : string;
  partyAddress : string;
  giftBudget : string;
  customMessage : option string;
  gameUrl : string
}.

(** What [generateEmailContent] and [generateReminderEmailContent]
    return. *)
Record EmailContent : Type := mkEmailContent {
  html : string;
  text : string
}.

(** A row of the [clues] argument of [sendReminderEmails]. *)
Record ClueRow : Type := mkClueRow {
  clue_text : string;
  clue_type : string
}.

(** The argument of [resend.emails.send]; [content] holds its [html]
    and [text]. *)
Record EmailRequest : Type := mkEmailRequest {
  from : string;
  to : list string;
  subject : string;
  content : EmailContent
}.

(** What the module reads of its surroundings: the two variables of
    [process.env] at the time of the call, and the client [resend],
    made when the module was loaded from the key present then ([None]
    is [null]). *)
Record Env : Type := mkEnv {
  RESEND_API_KEY : option string;
  RESEND_FROM_EMAIL : option string;
  resend : option string
}.

(** The truth value of a variable of [process.env]: a string, or
    [undefined]. *)
Definition env_truthy (variable : option string) : bool :=
  match variable with
  | Some s => negb (s =? EmptyString)
  | None => false
  end.

(** [variable || fallback]. *)
Definition env_or (variable : option string) (fallback : string) : string :=
  match variable with
  | Some s => if s =? EmptyString then fallback else s
  | None => fallback
  end.

(** The end of one call of [resend.emails.send]: [Failed] stands for an
    [error] in the response and for a rejected promise, which both end
    in the [catch]. *)
Inductive SendOutcome : Type :=
| Delivered
| Failed (error : string).

(** The outcomes of the calls of [send] to come, the next one first. *)
Definition Outcomes : Type := nat -> SendOutcome.

(** What is caught and passed to [console.error]. *)
Inductive Caught : Type :=
| ErrorObject (message : string)
| ServiceError (error : string).

(** What the functions do, in order. *)
Inductive Event : Type :=
| ConsoleWarn (message : string)
| ConsoleError (message : string) (caught : option Caught)
| ConsoleLog (message : string)
| EmailSend (request : EmailRequest)
| Sleep (milliseconds : nat).

Definition requests_sent (trace : list Event) : list EmailRequest :=
  flat_map
    (fun event =>
       match event with
       | EmailSend request => [request]
       | _ => []
       end)
    trace.

Definition sleeps (trace : list Event) : nat :=
  length
    (filter
       (fun event =>
          match event with
          | Sleep _ => true
          | _ => false
          end)
       trace).

Section Dispatch.
Context {P : Platform}.

(** The two content generators format the party date with
    [toLocaleDateString]; the loops pass what they return to [send]
    without reading it. *)
Variable generateEmailContent :
  Participant -> Participant -> EmailData -> EmailContent.
Variable generateReminderEmailContent :
  Participant -> list ClueRow -> EmailData -> EmailContent.

(** The [for] loop of [sendAssignmentEmails] from index [i] on;
    [remaining] holds the participants from that index.  The result is
    [Throw] when the promise is rejected. *)
Fixpoint sendAssignmentEmails_loop (env : Env) (fromEmail : string)
  (participantMap : ParticipantMap) (encryptedAssignments : string)
  (emailData : EmailData) (participants_length i : nat)
  (remaining : list Participant) (outcomes : Outcomes)
  : list Event * result unit * Outcomes :=
  match remaining with
  | [] => ([], Ok tt, outcomes)
  | participant :: rest =>
      let continue (events : list Event) (outcomes' : Outcomes) :=
        match sendAssignmentEmails_loop env fromEmail participantMap
                encryptedAssignments emailData participants_length (S i)
                rest outcomes' with
        | (later, end_, outcomes'') => (events ++ later, end_, outcomes'')
        end in
      match getAssignmentForParticipant encryptedAssignments
              (id participant) with
      | Throw msg => ([], Throw msg, outcomes)
      | Ok receiverId =>
          if negb (truthy receiverId) then
            continue
              [ConsoleError
                 ("No assignment found for participant " ++ name participant)
                 None]
              outcomes
          else
            match
              match receiverId with
              | JStr key => get_participant participantMap key
              | _ => None
              end
            with
            | None =>
                continue
                  [ConsoleError
                     ("Receiver not found for ID "
                      ++ js_to_string receiverId)
                     None]
                  outcomes
            | Some receiver =>
                let emailContent :=
                  generateEmailContent participant receiver emailData in
                match resend env with
                | None =>
                    continue
                      [ConsoleError
                         ("Failed to send email to " ++ email participant
                          ++ ":")
                         (Some (ErrorObject "Resend client not initialized"))]
                      outcomes
                | Some _ =>
                    let request :=
                      mkEmailRequest fromEmail [email participant]
                        (gameName emailData) emailContent in
                    match outcomes O with
                    | Failed error =>
                        continue
                          [EmailSend request;
                           ConsoleError
                             ("Failed to send email to "
                              ++ email participant ++ ":")
                             (Some (ServiceError error))]
                          (fun n => outcomes (S n))
                    | Delivered =>
                        continue
                          ([EmailSend request;
                            ConsoleLog
                              ("Assignment email sent to "
                               ++ email participant)]
                           ++ (if (i <? participants_length - 1)%nat
                               then [Sleep 600] else []))
                          (fun n => outcomes (S n))
                    end
                end
            end
      end
  end.

Definition sendAssignmentEmails (env : Env) (participants : list Participant)
  (encryptedAssignments : string) (emailData : EmailData)
  (outcomes : Outcomes) : list Event * result unit * Outcomes :=
  if negb (env_truthy (RESEND_API_KEY env)) then
    ([ConsoleWarn "Resend API key not configured - skipping email sending"],
     Ok tt, outcomes)
  else
    let fromEmail :=
      env_or (RESEND_FROM_EMAIL env) "santa@secretsanta.bar" in
    let participantMap := participantMap_of participants in
    sendAssignmentEmails_loop env fromEmail participantMap
      encryptedAssignments emailData (length participants) O participants
      outcomes.

(** The [for] loop of [sendReminderEmails] from index [i] on. *)
Fixpoint sendReminderEmails_loop (env : Env) (fromEmail : string)
  (clues : list ClueRow) (emailData : EmailData)
  (participants_length i : nat) (remaining : list Participant)
  (outcomes : Outcomes) : list Event * result unit * Outcomes :=
  match remaining with
  | [] => ([], Ok tt, outcomes)
  | participant :: rest =>
      let continue (events : list Event) (outcomes' : Outcomes) :=
        match sendReminderEmails_loop env fromEmail clues emailData
                participants_length (S i) rest outcomes' with
        | (later, end_, outcomes'') => (events ++ later, end_, outcomes'')
        end in
      let emailContent :=
        generateReminderEmailContent participant clues emailData in
      match resend env with
      | None =>
          continue
            [ConsoleError
               ("Failed to send reminder email to " ++ email participant
                ++ ":")
               (Some (ErrorObject "Resend client not initialized"))]
            outcomes
      | Some _ =>
          let request :=
            mkEmailRequest fromEmail [email participant]
              (gameName emailData ++ " - Party tomorrow!") emailContent in
          match outcomes O with
          | Failed error =>
              continue
                [EmailSend request;
                 ConsoleError
                   ("Failed to send reminder email to "
                    ++ email participant ++ ":")
                   (Some (ServiceError error))]
                (fun n => outcomes (S n))
          | Delivered =>
              continue
                ([EmailSend request;
                  ConsoleLog
                    ("Reminder email sent to " ++ email participant)]
                 ++ (if (i <? participants_length - 1)%nat
                     then [Sleep 600] else []))
                (fun n => outcomes (S n))
          end
      end
  end.

Definition sendReminderEmails (env : Env) (participants : list Participant)
  (clues : list ClueRow) (emailData : EmailData) (outcomes : Outcomes)
  : list Event * result unit * Outcomes :=
  if negb (env_truthy (RESEND_API_KEY env)) then
    ([ConsoleWarn
        "Resend API key not configured - skipping reminder email sending"],
     Ok tt, outcomes)
  else
    let fromEmail :=
      env_or (RESEND_FROM_EMAIL env) "santa@secretsanta.bar" in
    sendReminderEmails_loop env fromEmail clues emailData
      (length participants) O participants outcomes.

(** The request [sendAssignmentEmails] makes for one participant, if it
    makes one: the lookup must give the id of a participant of the map,
    and the client must exist. *)
Definition planned_request (env : Env) (fromEmail : string)
  (participantMap : ParticipantMap) (encryptedAssignments : string)
  (emailData : EmailData) (participant : Participant) : list EmailRequest :=
  match getAssignmentForParticipant encryptedAssignments (id participant),
        resend env with
  | Ok (JStr key), Some _ =>
      if key =? EmptyString then []
      else
        match get_participant participantMap key with
        | Some receiver =>
            [mkEmailRequest fromEmail [email participant]
               (gameName emailData)
               (generateEmailContent participant receiver emailData)]
        | None => []
        end
  | _, _ => []
  end.

End Dispatch.

End Email.

(** The participant a participant gives to, read off an assignment
    list; the participant itself when there is none. *)
Definition receiver_in (assignments : list Assignment)
  (participants : list Participant) (p : Participant) : Participant :=
  match find (fun a => giverId a =? id p) assignments with
  | Some a =>
      match find (fun q => id q =? receiverId a) participants with
      | Some q => q
      | None => p
      end
  | None => p
  end.

(** Concrete surroundings for the dispatch loops. *)
Definition demo_env : Email.Env :=
  Email.mkEnv (Some "re_key") None (Some "re_key").


Definition demo_email_data : Email.EmailData :=
  Email.mkEmailData "Holiday party" "2025-12-20" "1 Main St" "$20" None
    "https://example.com/party/game".

Definition demo_content (giver receiver : Participant)
  (emailData : Email.EmailData) : Email.EmailContent :=
  Email.mkEmailContent
    ("<p>" ++ name giver ++ " gives to " ++ name receiver ++ "</p>")
    (name giver ++ " gives to " ++ name receiver).

Definition demo_reminder_content (participant : Participant)
  (clues : list Email.ClueRow) (emailData : Email.EmailData)
  : Email.EmailContent :=
  Email.mkEmailContent
    ("<p>" ++ name participant ++ "</p>")
    (String.concat ", " (map Email.clue_text clues)).

Definition demo_clue_rows : list Email.ClueRow :=
  [Email.mkClueRow "No men are giving gifts to other men" "gender"].

(** Every second call of [send] fails. *)
Definition flaky : Email.Outcomes :=
  fun n => if Nat.even n then Email.Failed "rate limited" else Email.Delivered.

(** Alice and Carol, the two women of [four], as an excluded pair. *)
Definition alice_carol : list Exclusion := [mkExclusion "Alice" "Carol" None].
(* ================================================================== *)
(** * Properties of the assignment engine *)
(* ================================================================== *)

(** ** Random indices are inside the array *)

Lemma Math_random_lt (rs : RandomSource) :
  (fst (Math_random rs) < two53)%N.
Proof. simpl. apply N.mod_lt. discriminate. Qed.

(** [Math.floor(Math.random() * m)] is one of [0 .. m - 1]. *)
Lemma floor_times_lt (k : N) (m : nat) :
  (k < two53)%N -> (0 < m)%nat -> (floor_times k m < m)%nat.
Proof.
  intros Hk Hm. unfold floor_times.
  assert (H : (k * N.of_nat m / two53 < N.of_nat m)%N).
  { apply N.Div0.div_lt_upper_bound.
    apply N.mul_lt_mono_pos_r; [lia | exact Hk]. }
  lia.
Qed.

(** ** The shuffle is a permutation *)

Lemma array_set_nth_perm {A : Type} (l : list A) (j : nat) (x y : A) :
  nth_error l j = Some y ->
  Permutation (y :: array_set l j x) (x :: l).
Proof.
  revert j; induction l as [|h t IH]; intros [|j] H; simpl in *;
    try discriminate.
  - injection H as ->. apply perm_swap.
  - apply IH in H.
    transitivity (h :: y :: array_set t j x); [apply perm_swap|].
    transitivity (h :: x :: t); [now apply perm_skip | apply perm_swap].
Qed.

Lemma swap_Permutation {A : Type} (l : list A) (i j : nat) :
  Permutation (swap l i j) l.
Proof.
  unfold swap.
  revert i j; induction l as [|h t IH]; intros i j.
  - destruct i, j; reflexivity.
  - destruct i as [|i], j as [|j]; simpl.
    + reflexivity.
    + destruct (nth_error t j) as [y|] eqn:E; [|reflexivity].
      now apply array_set_nth_perm.
    + destruct (nth_error t i) as [y|] eqn:E; [|reflexivity].
      simpl. now apply array_set_nth_perm.
    + specialize (IH i j).
      destruct (nth_error t i), (nth_error t j); simpl; auto.
Qed.

Lemma shuffle_loop_Permutation (i : nat) :
  forall receivers rs,
    Permutation (fst (shuffle_loop i receivers rs)) receivers.
Proof.
  induction i as [|i IH]; intros receivers rs; simpl.
  - reflexivity.
  - rewrite IH. apply swap_Permutation.
Qed.

(** ** The greedy loop *)

Lemma isValidAssignment_existing giver receiver l1 l2 constraints :
  isValidAssignment giver receiver l1 constraints
  = isValidAssignment giver receiver l2 constraints.
Proof. reflexivity. Qed.

Lemma find_receiver_Some giver :
  forall receivers assignments constraints r pool,
    find_receiver giver receivers assignments constraints = Some (r, pool) ->
    isValidAssignment giver r [] constraints = true
    /\ Permutation receivers (r :: pool).
Proof.
  induction receivers as [|x t IH]; intros assignments constraints r pool H;
    simpl in H; [discriminate|].
  destruct (isValidAssignment giver x assignments constraints) eqn:V.
  - injection H as <- <-. split; [exact V | reflexivity].
  - destruct (find_receiver giver t assignments constraints)
      as [[v p]|] eqn:F; [|discriminate].
    injection H as <- <-.
    destruct (IH _ _ _ _ F) as [Hv Hp]. split; [exact Hv|].
    rewrite Hp. apply perm_swap.
Qed.

Lemma find_receiver_None giver :
  forall receivers assignments constraints,
    find_receiver giver receivers assignments constraints = None ->
    forall r, In r receivers ->
      isValidAssignment giver r assignments constraints = false.
Proof.
  induction receivers as [|x t IH]; intros assignments constraints H r Hin;
    simpl in *; [contradiction|].
  destruct (isValidAssignment giver x assignments constraints) eqn:V;
    [discriminate|].
  destruct (find_receiver giver t assignments constraints)
    as [[v p]|] eqn:F; [discriminate|].
  destruct Hin as [<-|Hin]; [exact V | eauto].
Qed.

Lemma assign_loop_Ok constraints :
  forall givers receivers assignments result,
    assign_loop givers receivers assignments constraints = Ok result ->
    exists chosen rest,
      result = assignments ++ pair_up givers chosen
      /\ length chosen = length givers
      /\ Permutation receivers (chosen ++ rest)
      /\ Forall2 (fun g r => isValidAssignment g r [] constraints = true)
           givers chosen.
Proof.
  induction givers as [|g gs IH]; intros receivers assignments result H;
    simpl in H.
  - injection H as <-. exists [], receivers.
    unfold pair_up; simpl. rewrite app_nil_r. auto.
  - destruct (find_receiver g receivers assignments constraints)
      as [[v pool]|] eqn:F; [|discriminate].
    apply find_receiver_Some in F. destruct F as [Hv Hp].
    destruct (IH _ _ _ H) as (chosen & rest & -> & Hlen & Hperm & Hall).
    exists (v :: chosen), rest. repeat split.
    + unfold pair_up; simpl. now rewrite <- app_assoc.
    + simpl; congruence.
    + rewrite Hp. simpl. now apply perm_skip.
    + now constructor.
Qed.

Lemma attemptAssignment_Ok participants constraints rs result rs' :
  attemptAssignment participants constraints rs = (Ok result, rs') ->
  exists chosen,
    result = pair_up participants chosen
    /\ length chosen = length participants
    /\ Permutation chosen participants
    /\ Forall2 (fun g r => isValidAssignment g r [] constraints = true)
         participants chosen.
Proof.
  unfold attemptAssignment.
  pose proof (shuffle_loop_Permutation (length participants - 1)
                participants rs) as Hsh.
  destruct (shuffle_loop (length participants - 1) participants rs)
    as [receivers' rs1]; simpl in Hsh.
  intros H. injection H as H _.
  apply assign_loop_Ok in H.
  destruct H as (chosen & rest & -> & Hlen & Hperm & Hall).
  exists chosen. repeat split; auto.
  assert (rest = []) as ->.
  { apply Permutation_length in Hperm, Hsh.
    rewrite length_app in Hperm.
    destruct rest; [reflexivity | simpl in Hperm; lia]. }
  rewrite app_nil_r in Hperm. now rewrite <- Hperm, Hsh.
Qed.

(** A failed attempt names the giver it could not serve. *)
Lemma assign_loop_Throw constraints :
  forall givers receivers assignments msg,
    assign_loop givers receivers assignments constraints = Throw msg ->
    exists g,
      In g givers
      /\ msg = ("No valid receiver found for giver: " ++ name g)%string.
Proof.
  induction givers as [|g gs IH]; intros receivers assignments msg H;
    simpl in H; [discriminate|].
  destruct (find_receiver g receivers assignments constraints)
    as [[v pool]|].
  - apply IH in H. destruct H as (g' & Hin & ->).
    exists g'. split; [now right | reflexivity].
  - injection H as <-. exists g. split; [now left | reflexivity].
Qed.

Lemma attemptAssignment_Throw participants constraints rs msg rs' :
  attemptAssignment participants constraints rs = (Throw msg, rs') ->
  exists g,
    In g participants
    /\ msg = ("No valid receiver found for giver: " ++ name g)%string.
Proof.
  unfold attemptAssignment.
  destruct (shuffle_loop (length participants - 1) participants rs)
    as [receivers' rs1].
  intros H. injection H as H _. eapply assign_loop_Throw; eassumption.
Qed.

(** ** Consequences for one successful attempt *)

Lemma pair_up_givers : forall givers chosen,
  length chosen = length givers ->
  map giverId (pair_up givers chosen) = map id givers.
Proof.
  unfold pair_up.
  induction givers as [|g gs IH]; intros [|c cs] H; simpl in *;
    try discriminate; [reflexivity|].
  f_equal. apply IH. lia.
Qed.

Lemma pair_up_receivers : forall givers chosen,
  length chosen = length givers ->
  map receiverId (pair_up givers chosen) = map id chosen.
Proof.
  unfold pair_up.
  induction givers as [|g gs IH]; intros [|c cs] H; simpl in *;
    try discriminate; [reflexivity|].
  f_equal. apply IH. lia.
Qed.

Lemma count_filter_eqb (f : Assignment -> string) :
  forall l i,
    length (filter (fun a => f a =? i) l)
    = count_occ string_dec (map f l) i.
Proof.
  induction l as [|a l IH]; intros i; simpl; [reflexivity|].
  destruct (String.eqb_spec (f a) i) as [E|E];
    destruct (string_dec (f a) i); try contradiction; simpl; auto.
Qed.

Lemma isValidAssignment_ids giver receiver assignments constraints :
  isValidAssignment giver receiver assignments constraints = true ->
  id giver <> id receiver.
Proof.
  unfold isValidAssignment.
  destruct (String.eqb_spec (id giver) (id receiver)); [discriminate | auto].
Qed.

Lemma isValidAssignment_exclusion giver receiver assignments constraints c e :
  isValidAssignment giver receiver assignments constraints = true ->
  In c constraints -> constraint_type c = no_couples -> data c = Some e ->
  ~ matches_exclusion e (name giver) (name receiver).
Proof.
  unfold isValidAssignment, matches_exclusion.
  destruct (id giver =? id receiver); [discriminate|].
  rewrite forallb_forall. intros H Hin Ht Hd.
  specialize (H c Hin). rewrite Ht, Hd in H.
  apply negb_true_iff in H. apply orb_false_iff in H.
  destruct H as [H1 H2].
  intros [[E1 E2]|[E1 E2]].
  - rewrite E1, E2, !String.eqb_refl in H1. discriminate.
  - rewrite E1, E2, !String.eqb_refl in H2. discriminate.
Qed.

Lemma pair_up_In : forall givers chosen a,
  In a (pair_up givers chosen) ->
  exists g r, In (g, r) (combine givers chosen)
              /\ a = mkAssignment (id g) (id r).
Proof.
  unfold pair_up. intros givers chosen a H.
  apply in_map_iff in H. destruct H as ([g r] & <- & Hin).
  exists g, r. auto.
Qed.

Lemma Forall2_combine {A B : Type} (R : A -> B -> Prop) :
  forall l1 l2, Forall2 R l1 l2 ->
    forall x y, In (x, y) (combine l1 l2) -> R x y.
Proof.
  induction 1; simpl; intros a b Hin; [contradiction|].
  destruct Hin as [E|Hin]; [injection E as <- <-; assumption | auto].
Qed.

Lemma attempt_valid_derangement participants constraints rs result rs' :
  NoDup (map id participants) ->
  attemptAssignment participants constraints rs = (Ok result, rs') ->
  valid_derangement result participants.
Proof.
  intros Hnd H. apply attemptAssignment_Ok in H.
  destruct H as (chosen & -> & Hlen & Hperm & Hall).
  split.
  - intros p Hp. unfold count_as_giver, count_as_receiver.
    rewrite !count_filter_eqb, pair_up_givers, pair_up_receivers by auto.
    split.
    + apply NoDup_count_occ'; auto. now apply in_map.
    + assert (Hpm : Permutation (map id chosen) (map id participants))
        by now apply Permutation_map.
      apply NoDup_count_occ'.
      * eapply Permutation_NoDup; [symmetry; exact Hpm | exact Hnd].
      * eapply Permutation_in; [symmetry; exact Hpm | now apply in_map].
  - intros a Ha. apply pair_up_In in Ha.
    destruct Ha as (g & r & Hin & ->). simpl.
    eapply isValidAssignment_ids. eapply (Forall2_combine Hall). exact Hin.
Qed.

Lemma attempt_receivers_permuted participants constraints rs result rs' :
  attemptAssignment participants constraints rs = (Ok result, rs') ->
  Permutation (map receiverId result) (map id participants).
Proof.
  intros H. apply attemptAssignment_Ok in H.
  destruct H as (chosen & -> & Hlen & Hperm & _).
  rewrite pair_up_receivers by exact Hlen. now apply Permutation_map.
Qed.

Lemma attempt_no_self_assignment participants constraints rs result rs' :
  attemptAssignment participants constraints rs = (Ok result, rs') ->
  forall a, In a result -> giverId a <> receiverId a.
Proof.
  intros H. apply attemptAssignment_Ok in H.
  destruct H as (chosen & -> & Hlen & Hperm & Hall).
  intros a Ha. apply pair_up_In in Ha.
  destruct Ha as (g & r & Hin & ->). simpl.
  eapply isValidAssignment_ids. eapply (Forall2_combine Hall). exact Hin.
Qed.

Lemma attempt_giver_order participants constraints rs result rs' :
  attemptAssignment participants constraints rs = (Ok result, rs') ->
  map giverId result = map id participants.
Proof.
  intros H. apply attemptAssignment_Ok in H.
  destruct H as (chosen & -> & Hlen & _). now apply pair_up_givers.
Qed.

Lemma attempt_respects_exclusions participants constraints rs result rs' :
  NoDup (map id participants) ->
  attemptAssignment participants constraints rs = (Ok result, rs') ->
  respects_exclusions result participants constraints.
Proof.
  intros Hnd H. apply attemptAssignment_Ok in H.
  destruct H as (chosen & -> & Hlen & Hperm & Hall).
  intros a g r c e Ha Hg Hr Eg Er Hc Ht Hd.
  apply pair_up_In in Ha. destruct Ha as (g' & r' & Hin & ->).
  simpl in Eg, Er.
  pose proof (Forall2_combine Hall _ _ Hin) as Hv.
  assert (Hg' : In g' participants) by (eapply in_combine_l; eauto).
  assert (Hr' : In r' participants).
  { eapply Permutation_in; [exact Hperm | eapply in_combine_r; eauto]. }
  assert (Hinj : forall x y, In x participants -> In y participants ->
                             id x = id y -> x = y).
  { clear -Hnd. induction participants as [|p ps IH]; simpl;
      [contradiction|].
    inversion Hnd as [|? ? Hnot Hnd']; subst.
    intros x y [<-|Hx] [<-|Hy] E; auto.
    - exfalso. apply Hnot. rewrite E. now apply in_map.
    - exfalso. apply Hnot. rewrite <- E. now apply in_map. }
  rewrite (Hinj g g' Hg Hg' Eg), (Hinj r r' Hr Hr' Er).
  simpl in Hv. eapply isValidAssignment_exclusion; eassumption.
Qed.

(** ** The retry loop *)

Section RetryLoop.
Context {P : Platform}.

(** A token comes from a successful attempt, constrained or relaxed. *)
Lemma attempt_loop_Ok participants constraints salt :
  forall left rs token rs',
    attempt_loop left participants constraints salt rs = (Ok token, rs') ->
    exists assignments rs0 constraints',
      (constraints' = constraints \/ constraints' = [])
      /\ attemptAssignment participants constraints' rs0
         = (Ok assignments, rs')
      /\ token = encryptAssignments assignments salt.
Proof.
  induction left as [|left IH]; intros rs token rs' H; simpl in H.
  - discriminate.
  - destruct (attemptAssignment participants constraints rs)
      as [[a|msg] rs1] eqn:E.
    + injection H as <- <-. exists a, rs, constraints. auto.
    + destruct left as [|left'].
      * destruct (attemptAssignment participants [] rs1)
          as [[a|msg'] rs2] eqn:E'; [|discriminate].
        injection H as <- <-. exists a, rs1, []. auto.
      * apply IH in H. exact H.
Qed.

(** Unless all the constrained attempts fail, the token comes from a
    constrained attempt. *)
Lemma attempt_loop_constrained participants constraints salt :
  forall left rs token rs',
    all_attempts_fail left participants constraints rs = None ->
    attempt_loop left participants constraints salt rs = (Ok token, rs') ->
    exists assignments rs0,
      attemptAssignment participants constraints rs0 = (Ok assignments, rs')
      /\ token = encryptAssignments assignments salt.
Proof.
  induction left as [|left IH]; intros rs token rs' Hf H; simpl in Hf, H.
  - discriminate.
  - destruct (attemptAssignment participants constraints rs)
      as [[a|msg] rs1] eqn:E.
    + injection H as <- <-. exists a, rs. auto.
    + destruct left as [|left'].
      * simpl in Hf. discriminate.
      * eapply IH; eassumption.
Qed.

(** When all the constrained attempts fail, the outcome is that of the
    relaxed attempt, error included. *)
Lemma attempt_loop_fallback participants constraints salt :
  forall left rs rs1,
    (0 < left)%nat ->
    all_attempts_fail left participants constraints rs = Some rs1 ->
    attempt_loop left participants constraints salt rs
    = match attemptAssignment participants [] rs1 with
      | (Ok assignments, rs2) => (Ok (encryptAssignments assignments salt), rs2)
      | (Throw msg, rs2) => (Throw msg, rs2)
      end.
Proof.
  induction left as [|left IH]; intros rs rs1 Hpos Hf; [lia|].
  simpl in Hf |- *.
  destruct (attemptAssignment participants constraints rs)
    as [[a|msg] rs0] eqn:E; [discriminate|].
  destruct left as [|left'].
  - simpl in Hf. injection Hf as ->. reflexivity.
  - apply IH; [lia | exact Hf].
Qed.

(** As soon as one constrained attempt succeeds, the loop returns the
    token of a constrained attempt. *)
Lemma attempt_loop_first_success participants constraints salt :
  forall left rs,
    all_attempts_fail left participants constraints rs = None ->
    exists assignments rs0 rs',
      attemptAssignment participants constraints rs0 = (Ok assignments, rs')
      /\ attempt_loop left participants constraints salt rs
         = (Ok (encryptAssignments assignments salt), rs').
Proof.
  induction left as [|left IH]; intros rs Hf; simpl in Hf |- *.
  - discriminate.
  - destruct (attemptAssignment participants constraints rs)
      as [[a|msg] rs1] eqn:E.
    + exists a, rs, rs1. auto.
    + destruct left as [|left'].
      * simpl in Hf. discriminate.
      * apply IH. exact Hf.
Qed.

(** The only error of the loop is the error of the relaxed attempt. *)
Lemma attempt_loop_Throw participants constraints salt :
  forall left rs msg rs',
    (0 < left)%nat ->
    attempt_loop left participants constraints salt rs = (Throw msg, rs') ->
    exists g,
      In g participants
      /\ msg = ("No valid receiver found for giver: " ++ name g)%string.
Proof.
  induction left as [|left IH]; intros rs msg rs' Hpos H; [lia|].
  simpl in H.
  destruct (attemptAssignment participants constraints rs)
    as [[a|m] rs1] eqn:E; [discriminate|].
  destruct left as [|left'].
  - destruct (attemptAssignment participants [] rs1)
      as [[a|m'] rs2] eqn:E'; [discriminate|].
    injection H as <- <-. eapply attemptAssignment_Throw; eassumption.
  - eapply IH; [lia | eassumption].
Qed.

(** [generateAssignments] throws its own error exactly on fewer than two
    participants; its other error is that of the relaxed attempt. *)
Lemma generateAssignments_Throw participants constraints salt rs msg rs' :
  generateAssignments participants constraints salt rs = (Throw msg, rs') ->
  ((length participants < 2)%nat
   /\ msg = "Need at least 2 participants for Secret Santa")
  \/ ((2 <= length participants)%nat
      /\ exists g,
           In g participants
           /\ msg = ("No valid receiver found for giver: " ++ name g)%string).
Proof.
  unfold generateAssignments.
  destruct (Nat.ltb_spec (length participants) 2) as [Hlt|Hge]; intros H.
  - left. injection H as <- _. auto.
  - right. split; [exact Hge|].
    eapply attempt_loop_Throw; [|eassumption]. unfold maxAttempts. lia.
Qed.

Lemma generateAssignments_insufficient_iff participants constraints salt rs :
  fst (generateAssignments participants constraints salt rs)
  = Throw "Need at least 2 participants for Secret Santa"
  <-> (length participants < 2)%nat.
Proof.
  split.
  - destruct (generateAssignments participants constraints salt rs)
      as [r rs'] eqn:E. simpl. intros ->.
    apply generateAssignments_Throw in E.
    destruct E as [[Hlt _]|[_ (g & _ & Hmsg)]]; [exact Hlt|].
    discriminate Hmsg.
  - intros Hlt. unfold generateAssignments.
    apply Nat.ltb_lt in Hlt. now rewrite Hlt.
Qed.

Lemma generateAssignments_Ok participants constraints salt rs token rs' :
  generateAssignments participants constraints salt rs = (Ok token, rs') ->
  (2 <= length participants)%nat
  /\ exists assignments rs0 constraints',
      (constraints' = constraints \/ constraints' = [])
      /\ attemptAssignment participants constraints' rs0
         = (Ok assignments, rs')
      /\ token = encryptAssignments assignments salt.
Proof.
  unfold generateAssignments.
  destruct (Nat.ltb_spec (length participants) 2) as [Hlt|Hge];
    [discriminate|].
  intros H. split; [lia|]. eapply attempt_loop_Ok; eassumption.
Qed.

Lemma decrypt_encrypt {L : Lawful P} assignments salt :
  decryptAssignments (encryptAssignments assignments salt)
  = Ok (js_of_assignments assignments).
Proof.
  unfold decryptAssignments, encryptAssignments.
  now rewrite AES_roundtrip, JSON_roundtrip.
Qed.

End RetryLoop.

(* ================================================================== *)
(** * Properties of the encoder *)
(* ================================================================== *)

Lemma assignment_of_js_fields (v : JSValue) (a : Assignment) :
  assignment_of_js v = Some a ->
  exists fields,
    v = JObj fields
    /\ get_field fields "giverId" = JStr (giverId a)
    /\ get_field fields "receiverId" = JStr (receiverId a).
Proof.
  destruct v as [| | | | |items|fields]; simpl; try discriminate.
  destruct (get_field fields "giverId") as [| | | |g| |] eqn:Eg;
    try discriminate.
  destruct (get_field fields "receiverId") as [| | | |r| |] eqn:Er;
    try discriminate.
  intros H. injection H as <-. exists fields. auto.
Qed.

(** The search and the read of [receiverId] on a decoded array that is
    an [Assignment[]]. *)
Lemma lookup_in_items (participantId : string) :
  forall items assignments,
    assignments_of_items items = Some assignments ->
    (assignment <-
       Array_find
         (fun a =>
            g <- get_property a "giverId" ;;
            Ok (strict_equals_string g participantId))
         items ;;
     if truthy assignment then get_property assignment "receiverId"
     else Ok JNull)
    = Ok match find (fun a => giverId a =? participantId) assignments with
         | Some a => JStr (receiverId a)
         | None => JNull
         end.
Proof.
  induction items as [|v items IH]; intros assignments H; simpl in H.
  - injection H as <-. reflexivity.
  - destruct (assignment_of_js v) as [a|] eqn:Ea; [|discriminate].
    destruct (assignments_of_items items) as [l|] eqn:El; [|discriminate].
    injection H as <-.
    apply assignment_of_js_fields in Ea.
    destruct Ea as (fields & -> & Hg & Hr).
    simpl. rewrite Hg. simpl.
    destruct (giverId a =? participantId).
    + simpl. now rewrite Hr.
    + apply IH. reflexivity.
Qed.

(** On any lawful platform, the token of a JSON text decodes to the value
    of the text, whatever that value is. *)
Lemma decrypt_of_encrypted_text {P : Platform} {L : Lawful P}
  (text : string) (salt : N) (v : JSValue) :
  JSON_parse text = Some v ->
  decryptAssignments (AES_encrypt text ENCRYPTION_KEY salt) = Ok v.
Proof.
  intros Hp. unfold decryptAssignments. now rewrite AES_roundtrip, Hp.
Qed.

(* ================================================================== *)
(** * Properties of the validator *)
(* ================================================================== *)

Lemma filter_other_notin (x : string) :
  forall l, ~ In x l -> filter (fun y => negb (y =? x)) l = l.
Proof.
  induction l as [|y l IH]; intros Hnot; simpl; [reflexivity|].
  destruct (String.eqb_spec y x) as [->|Hne]; simpl.
  - exfalso. apply Hnot. now left.
  - rewrite IH; [reflexivity|]. intros Hin. apply Hnot. now right.
Qed.

(** A list without repetition is its own set. *)
Lemma Set_of_NoDup : forall l, NoDup l -> Set_of String.eqb l = l.
Proof.
  induction 1 as [|x l Hnot Hnd IH]; simpl; [reflexivity|].
  now rewrite IH, filter_other_notin.
Qed.

Lemma Set_has_In (s : list string) (x : string) :
  Set_has s x = true <-> In x s.
Proof.
  unfold Set_has. rewrite existsb_exists. split.
  - intros (y & Hin & E). apply String.eqb_eq in E. now subst.
  - intros Hin. exists x. split; [exact Hin | apply String.eqb_refl].
Qed.

(** Among participants told apart by their ids, the validator accepts
    every list whose givers and whose receivers are the participants. *)
Lemma validateAssignments_accepts assignments participants :
  NoDup (map id participants) ->
  Permutation (map giverId assignments) (map id participants) ->
  Permutation (map receiverId assignments) (map id participants) ->
  validateAssignments assignments participants = true.
Proof.
  intros Hnd Hg Hr. unfold validateAssignments.
  assert (Hndg : NoDup (map giverId assignments))
    by (eapply Permutation_NoDup; [symmetry; exact Hg | exact Hnd]).
  assert (Hndr : NoDup (map receiverId assignments))
    by (eapply Permutation_NoDup; [symmetry; exact Hr | exact Hnd]).
  rewrite !Set_of_NoDup by assumption.
  rewrite (Permutation_length Hg), (Permutation_length Hr), length_map.
  rewrite Nat.eqb_refl. simpl.
  apply andb_true_iff. split; apply forallb_forall; intros x Hx;
    apply Set_has_In.
  - exact (Permutation_in x Hg Hx).
  - exact (Permutation_in x Hr Hx).
Qed.

(** What [generateAssignments] builds passes the validator. *)
Lemma attempt_validates participants constraints rs result rs' :
  NoDup (map id participants) ->
  attemptAssignment participants constraints rs = (Ok result, rs') ->
  validateAssignments result participants = true.
Proof.
  intros Hnd H. apply validateAssignments_accepts; [exact Hnd | |].
  - erewrite attempt_giver_order by eassumption. reflexivity.
  - eapply attempt_receivers_permuted; eassumption.
Qed.

Lemma Set_of_In (x : string) :
  forall l, In x (Set_of String.eqb l) <-> In x l.
Proof.
  induction l as [|y l IH]; simpl; [reflexivity|].
  rewrite filter_In, IH. split.
  - intros [E|[Hin _]]; auto.
  - intros [E|Hin]; [now left|].
    destruct (String.eqb_spec x y) as [->|Hne]; [now left|].
    right. split; [exact Hin | reflexivity].
Qed.

Lemma Set_of_is_NoDup : forall l, NoDup (Set_of String.eqb l).
Proof.
  induction l as [|y l IH]; simpl; constructor.
  - rewrite filter_In. intros [_ H].
    now rewrite String.eqb_refl in H.
  - now apply NoDup_filter.
Qed.

(** What the validator checks is an equality of sets: when it accepts,
    among participants told apart by their ids, the ids that give are
    the ids of the participants, and so are the ids that receive; how
    many times an id gives or receives is not looked at. *)
Lemma validateAssignments_sets assignments participants :
  NoDup (map id participants) ->
  validateAssignments assignments participants = true ->
  (forall i, In i (map giverId assignments) <-> In i (map id participants))
  /\ (forall i,
        In i (map receiverId assignments) <-> In i (map id participants)).
Proof.
  intros Hnd H. unfold validateAssignments in H.
  rewrite !andb_true_iff, !Nat.eqb_eq, !forallb_forall in H.
  destruct H as [[[Hlg Hlr] Hg] Hr].
  rewrite (Set_of_NoDup Hnd) in Hg, Hr.
  assert (Hside : forall l,
             length (Set_of String.eqb l) = length participants ->
             (forall x, In x (Set_of String.eqb l) ->
                        Set_has (map id participants) x = true) ->
             forall i, In i l <-> In i (map id participants)).
  { intros l Hlen Hin i. rewrite <- (Set_of_In i l). split.
    - intros Hi. apply Set_has_In. now apply Hin.
    - apply (NoDup_length_incl (Set_of_is_NoDup l)).
      + rewrite Hlen, length_map. lia.
      + intros x Hx. apply Set_has_In. now apply Hin. }
  split; apply Hside; assumption.
Qed.

(* ================================================================== *)
(** * Properties of the clue engine *)
(* ================================================================== *)

(** ** The random sort permutes *)

Lemma random_insert_Permutation {A : Type} (x : A) :
  forall prefix rs,
    Permutation (fst (random_insert x prefix rs)) (x :: prefix).
Proof.
  induction prefix as [|y t IH]; intros rs; simpl.
  - reflexivity.
  - match goal with
    | |- context [if ?c then _ else _] => destruct c
    end.
    + specialize (IH (fun n => rs (S n))).
      destruct (random_insert x t (fun n => rs (S n))) as [placed rs''].
      simpl in *. rewrite IH. apply perm_swap.
    + reflexivity.
Qed.

Lemma random_sort_loop_Permutation {A : Type} :
  forall (todo prefix : list A) rs,
    Permutation (fst (random_sort_loop todo prefix rs)) (todo ++ prefix).
Proof.
  induction todo as [|x rest IH]; intros prefix rs; simpl.
  - symmetry. apply Permutation_rev.
  - pose proof (random_insert_Permutation x prefix rs) as Hins.
    destruct (random_insert x prefix rs) as [prefix' rs']. simpl in Hins.
    rewrite IH, Hins. symmetry. apply Permutation_middle.
Qed.

Lemma Array_sort_random_Permutation {A : Type} (l : list A) rs :
  Permutation (fst (Array_sort_random l rs)) l.
Proof.
  unfold Array_sort_random.
  rewrite random_sort_loop_Permutation. now rewrite app_nil_r.
Qed.

Lemma firstn_In {A : Type} (x : A) :
  forall n l, In x (firstn n l) -> In x l.
Proof.
  induction n as [|n IH]; intros [|y l]; simpl; try contradiction.
  intros [E|H]; [left; exact E | right; apply IH; exact H].
Qed.

(** ** Reading back an encoded list *)

Lemma assignments_of_js_of_assignments (l : list Assignment) :
  assignments_of_js (js_of_assignments l) = Some l.
Proof.
  unfold js_of_assignments, assignments_of_js.
  induction l as [|[g r] l IH]; simpl; [reflexivity|].
  now rewrite IH.
Qed.

(** ** The gender counts of the analysis *)

Lemma male_not_female (p : Participant) :
  is_male p = true -> is_female p = false.
Proof.
  unfold is_male, is_female. intros H.
  apply String.eqb_eq in H. now rewrite H.
Qed.

Lemma count_participants_genders (participants : list Participant) :
  forall t,
    tally_males (fold_left count_participant participants t)
    = (tally_males t + length (filter is_male participants))%nat
    /\ tally_females (fold_left count_participant participants t)
       = (tally_females t + length (filter is_female participants))%nat.
Proof.
  induction participants as [|p ps IH]; intros t; simpl.
  - split; lia.
  - destruct (IH (count_participant t p)) as [Hm Hf]. rewrite Hm, Hf.
    unfold count_participant.
    destruct (is_male p) eqn:Em.
    + rewrite (male_not_female p Em). simpl. split; lia.
    + destruct (is_female p); simpl; split; lia.
Qed.

(** The analysis counts the participants whose gender is [male] and
    those whose gender is [female], letter case apart. *)
Lemma analysis_gender_counts participants exclusions :
  male (genderDistribution
          (analyzeParticipantDistribution participants exclusions))
  = length (filter is_male participants)
  /\ female (genderDistribution
               (analyzeParticipantDistribution participants exclusions))
     = length (filter is_female participants).
Proof.
  unfold analyzeParticipantDistribution. cbn [genderDistribution male female].
  destruct (count_participants_genders participants (mkCounts [] 0 0))
    as [Hm Hf].
  now rewrite Hm, Hf.
Qed.

(** ** What the filter lets through *)

Section ClueProperties.
Context {P : Platform}.

(** A gender clue is obvious as soon as there is an exclusion and at
    most four participants are counted as male or female. *)
Lemma gender_clue_obvious clue assignments participantMap analysis exclusions :
  type clue = type_gender ->
  (0 < excludedPairsCount analysis)%nat ->
  (male (genderDistribution analysis)
   + female (genderDistribution analysis) <= 4)%nat ->
  isClueObvious clue assignments participantMap analysis exclusions = true.
Proof.
  intros Ht Hex Htot. unfold isClueObvious. rewrite Ht. simpl.
  apply Nat.ltb_lt in Hex. apply Nat.leb_le in Htot.
  rewrite Hex, Htot. simpl. now rewrite !orb_true_r.
Qed.

Lemma backup_clues_not_obvious assignments participantMap analysis exclusions
  needed clue :
  In clue
    (generateSmartBackupClues assignments participantMap analysis exclusions
       needed) ->
  isClueObvious clue assignments participantMap analysis exclusions = false.
Proof.
  unfold generateSmartBackupClues. intros H.
  apply firstn_In in H. apply filter_In in H. destruct H as [_ H].
  now apply negb_true_iff in H.
Qed.

Lemma backup_clues_length assignments participantMap analysis exclusions
  needed :
  (length
     (generateSmartBackupClues assignments participantMap analysis exclusions
        needed) <= needed)%nat.
Proof. unfold generateSmartBackupClues. apply firstn_le_length. Qed.

(** Every clue returned passed the filter, computed on the analysis of
    the participants. *)
Lemma generateClues_from_not_obvious assignments participants exclusions rs
  clue :
  In clue (fst (generateClues_from assignments participants exclusions rs)) ->
  isClueObvious clue assignments (participantMap_of participants)
    (analyzeParticipantDistribution participants exclusions) exclusions
  = false.
Proof.
  unfold generateClues_from.
  destruct (generateSpecificPatternClues assignments
              (participantMap_of participants) rs) as [specific rs1].
  match goal with
  | |- context [Array_sort_random ?l rs1] =>
      pose proof (Array_sort_random_Permutation l rs1) as Hperm;
      destruct (Array_sort_random l rs1) as [shuffled rs2]
  end.
  cbn [fst] in Hperm |- *. intros H. apply firstn_In in H.
  assert (Hsh : In clue shuffled ->
                isClueObvious clue assignments (participantMap_of participants)
                  (analyzeParticipantDistribution participants exclusions)
                  exclusions = false).
  { intros Hin. eapply Permutation_in in Hin; [|exact Hperm].
    apply filter_In in Hin. destruct Hin as [_ Hin].
    now apply negb_true_iff in Hin. }
  destruct (length shuffled <? 10)%nat; [|auto].
  apply in_app_or in H. destruct H as [H|H]; [auto|].
  eapply backup_clues_not_obvious; eassumption.
Qed.

(** The clues returned are the first ten of the shuffled survivors
    followed by the backfill. *)
Lemma generateClues_from_shape assignments participants exclusions rs :
  exists shuffled,
    Permutation shuffled
      (surviving_candidates assignments participants exclusions rs)
    /\ fst (generateClues_from assignments participants exclusions rs)
       = firstn 10
           (shuffled
            ++ backfill_for assignments participants exclusions
                 (length shuffled)).
Proof.
  unfold generateClues_from, surviving_candidates, backfill_for.
  destruct (generateSpecificPatternClues assignments
              (participantMap_of participants) rs) as [specific rs1].
  cbn [fst].
  match goal with
  | |- context [Array_sort_random ?l rs1] =>
      pose proof (Array_sort_random_Permutation l rs1) as Hperm;
      destruct (Array_sort_random l rs1) as [shuffled rs2]
  end.
  cbn [fst] in Hperm |- *. exists shuffled. split; [exact Hperm|].
  destruct (length shuffled <? 10)%nat; [reflexivity|].
  now rewrite app_nil_r.
Qed.

Lemma generateClues_from_length assignments participants exclusions rs :
  (length (fst (generateClues_from assignments participants exclusions rs))
   <= 10)%nat.
Proof.
  unfold generateClues_from.
  destruct (generateSpecificPatternClues assignments
              (participantMap_of participants) rs) as [specific rs1].
  destruct (Array_sort_random _ rs1) as [shuffled rs2].
  cbn [fst]. apply firstn_le_length.
Qed.

Lemma generateClues_decodable token participants exclusions rs v assignments :
  decryptAssignments token = Ok v ->
  assignments_of_js v = Some assignments ->
  generateClues token participants exclusions rs
  = (Ok (fst (generateClues_from assignments participants exclusions rs)),
     snd (generateClues_from assignments participants exclusions rs)).
Proof.
  intros Hd Ha. unfold generateClues. rewrite Hd, Ha.
  now destruct (generateClues_from assignments participants exclusions rs).
Qed.

End ClueProperties.

(* ================================================================== *)
(** * The reference platform satisfies the laws *)
(* ================================================================== *)

Module ReferenceLaws.
Import Reference.

Local Open Scope string_scope.

Lemma append_assoc (a b c : string) : (a ++ b) ++ c = a ++ (b ++ c).
Proof. induction a as [|x a IH]; simpl; [reflexivity | now rewrite IH]. Qed.

Lemma length_append (a b : string) :
  String.length (a ++ b) = (String.length a + String.length b)%nat.
Proof. induction a as [|x a IH]; simpl; [reflexivity | now rewrite IH]. Qed.

(** ** The cipher *)

Lemma xor_ascii_involutive (c m : ascii) : xor_ascii (xor_ascii c m) m = c.
Proof.
  destruct c, m; simpl.
  now rewrite !xorb_assoc, !xorb_nilpotent, !xorb_false_r.
Qed.

Lemma mask_string_involutive (m : ascii) (s : string) :
  mask_string m (mask_string m s) = s.
Proof.
  induction s as [|c s IH]; simpl; [reflexivity|].
  now rewrite xor_ascii_involutive, IH.
Qed.

Lemma reference_decrypt_encrypt (message key : string) (salt : N) :
  decrypt_utf8 (encrypt message key salt) key = Some message.
Proof.
  unfold decrypt_utf8, encrypt. simpl.
  now rewrite mask_string_involutive.
Qed.

(** ** String literals *)

Lemma parse_escaped_char (c : ascii) (t : string) :
  parse_string_body (escape_char c ++ t) = cons_char c (parse_string_body t).
Proof.
  destruct c as [[] [] [] [] [] [] [] []]; reflexivity.
Qed.

Lemma parse_escaped_string (s rest : string) :
  parse_string_body (escape_string s ++ String quote rest) = Some (s, rest).
Proof.
  induction s as [|c s IH]; simpl.
  - reflexivity.
  - now rewrite append_assoc, parse_escaped_char, IH.
Qed.

(** ** Unfolding the parser on the texts of assignments *)

Lemma skip_whitespace_other (c : ascii) (t : string) :
  is_whitespace c = false -> skip_whitespace (String c t) = String c t.
Proof. intros H. simpl. now rewrite H. Qed.

Lemma parse_value_literal (fuel : nat) (t : string) :
  parse_value (S fuel) (String quote t)
  = match parse_string_body t with
    | Some (str, rest) => Some (JStr str, rest)
    | None => None
    end.
Proof. reflexivity. Qed.

Lemma parse_value_object (fuel : nat) (t : string) :
  parse_value (S fuel) (String "{" (String quote t))
  = match parse_members fuel (String quote t) with
    | Some (fields, rest) => Some (JObj fields, rest)
    | None => None
    end.
Proof. reflexivity. Qed.

Lemma parse_value_array (fuel : nat) (t : string) :
  parse_value (S fuel) (String "[" (String "{" t))
  = match parse_elements fuel (String "{" t) with
    | Some (items, rest) => Some (JArr items, rest)
    | None => None
    end.
Proof. reflexivity. Qed.

(** A member whose value is a string, followed by [next]. *)
Lemma parse_member_string (fuel : nat) (key val : string) (next : ascii)
  (rest : string) :
  is_whitespace next = false ->
  parse_members (S (S fuel))
    (String quote
       (escape_string key
        ++ String quote (String ":" (String quote
             (escape_string val ++ String quote (String next rest))))))
  = match next with
    | ","%char =>
        match parse_members (S fuel) rest with
        | Some (fields, rest') => Some ((key, JStr val) :: fields, rest')
        | None => None
        end
    | "}"%char => Some ([(key, JStr val)], rest)
    | _ => None
    end.
Proof.
  intros Hnext.
  transitivity
    (match parse_string_body
             (escape_string key
              ++ String quote (String ":" (String quote
                   (escape_string val ++ String quote (String next rest)))))
     with
     | Some (k, r) =>
         match skip_whitespace r with
         | String ":" r' =>
             match parse_value (S fuel) r' with
             | Some (v, r'') =>
                 match skip_whitespace r'' with
                 | String "," r3 =>
                     match parse_members (S fuel) r3 with
                     | Some (fields, r4) => Some ((k, v) :: fields, r4)
                     | None => None
                     end
                 | String "}" r3 => Some ([(k, v)], r3)
                 | _ => None
                 end
             | None => None
             end
         | _ => None
         end
     | None => None
     end); [reflexivity|].
  rewrite parse_escaped_string.
  rewrite (skip_whitespace_other ":") by reflexivity.
  cbv beta iota.
  rewrite parse_value_literal, parse_escaped_string.
  rewrite (skip_whitespace_other next) by exact Hnext.
  reflexivity.
Qed.

Lemma stringify_assignment (a : Assignment) (rest : string) :
  stringify (js_of_assignment a) ++ rest
  = String "{" (String quote
      (escape_string "giverId"
       ++ String quote (String ":" (String quote
            (escape_string (giverId a)
             ++ String quote (String "," (String quote
                  (escape_string "receiverId"
                   ++ String quote (String ":" (String quote
                        (escape_string (receiverId a)
                         ++ String quote (String "}" rest)))))))))))).
Proof.
  unfold js_of_assignment, stringify, quoted. simpl.
  repeat (rewrite ?append_assoc; simpl). reflexivity.
Qed.

Lemma parse_assignment (fuel : nat) (a : Assignment) (rest : string) :
  parse_value (4 + fuel) (stringify (js_of_assignment a) ++ rest)
  = Some (js_of_assignment a, rest).
Proof.
  rewrite stringify_assignment.
  change (4 + fuel)%nat with (S (S (S (S fuel)))).
  rewrite parse_value_object.
  rewrite parse_member_string by reflexivity. cbv beta iota.
  rewrite parse_member_string by reflexivity.
  reflexivity.
Qed.

Lemma parse_elements_step (fuel : nat) (t : string) :
  parse_elements (S fuel) t
  = match parse_value fuel t with
    | Some (v, rest) =>
        match skip_whitespace rest with
        | String "," rest' =>
            match parse_elements fuel rest' with
            | Some (items, rest'') => Some (v :: items, rest'')
            | None => None
            end
        | String "]" rest' => Some ([v], rest')
        | _ => None
        end
    | None => None
    end.
Proof. reflexivity. Qed.

Lemma parse_assignment_elements :
  forall (l : list Assignment) (a : Assignment) (fuel : nat) (rest : string),
    parse_elements (length l + 5 + fuel)
      (String.concat "," (map stringify (map js_of_assignment (a :: l)))
       ++ String "]" rest)
    = Some (map js_of_assignment (a :: l), rest).
Proof.
  induction l as [|b l IH]; intros a fuel rest.
  - change (length (@nil Assignment) + 5 + fuel)%nat with (S (4 + fuel)).
    change (String.concat "," (map stringify (map js_of_assignment [a])))
      with (stringify (js_of_assignment a)).
    rewrite parse_elements_step, parse_assignment.
    reflexivity.
  - replace (length (b :: l) + 5 + fuel)%nat
      with (S (4 + (length l + 1 + fuel)))%nat by (simpl; lia).
    change (String.concat ","
              (map stringify (map js_of_assignment (a :: b :: l))))
      with (stringify (js_of_assignment a)
            ++ String ","
                 (String.concat ","
                    (map stringify (map js_of_assignment (b :: l))))).
    rewrite append_assoc, parse_elements_step, parse_assignment.
    change (String ","
              (String.concat ","
                 (map stringify (map js_of_assignment (b :: l))))
            ++ String "]" rest)
      with (String ","
              (String.concat ","
                 (map stringify (map js_of_assignment (b :: l)))
               ++ String "]" rest)).
    rewrite (skip_whitespace_other ",") by reflexivity. cbv beta iota.
    replace (4 + (length l + 1 + fuel))%nat with (length l + 5 + fuel)%nat
      by lia.
    rewrite IH. reflexivity.
Qed.

Lemma length_assignment_text (a : Assignment) (rest : string) :
  (12 + String.length rest
   <= String.length (stringify (js_of_assignment a) ++ rest))%nat.
Proof.
  rewrite stringify_assignment. simpl.
  rewrite !length_append. simpl. rewrite !length_append. simpl. lia.
Qed.

Lemma length_elements_text :
  forall (l : list Assignment) (a : Assignment) (rest : string),
    (length l + 12 + String.length rest
     <= String.length
          (String.concat "," (map stringify (map js_of_assignment (a :: l)))
           ++ rest))%nat.
Proof.
  induction l as [|b l IH]; intros a rest.
  - change (String.concat "," (map stringify (map js_of_assignment [a])))
      with (stringify (js_of_assignment a)).
    pose proof (length_assignment_text a rest).
    change (length (@nil Assignment)) with 0%nat. lia.
  - change (String.concat ","
              (map stringify (map js_of_assignment (a :: b :: l))))
      with (stringify (js_of_assignment a)
            ++ String ","
                 (String.concat ","
                    (map stringify (map js_of_assignment (b :: l))))).
    rewrite append_assoc.
    pose proof (length_assignment_text a
                  (String ","
                     (String.concat ","
                        (map stringify (map js_of_assignment (b :: l))))
                   ++ rest)) as H.
    specialize (IH b rest).
    change (String ","
              (String.concat ","
                 (map stringify (map js_of_assignment (b :: l))))
            ++ rest)
      with (String ","
              (String.concat ","
                 (map stringify (map js_of_assignment (b :: l)))
               ++ rest)) in *.
    remember (String.concat ","
                (map stringify (map js_of_assignment (b :: l))) ++ rest)
      as tail.
    change (String.length (String "," tail))
      with (S (String.length tail)) in H.
    change (length (b :: l)) with (S (length l)). lia.
Qed.

Lemma assignment_elements_head (l : list Assignment) (a : Assignment)
  (rest : string) :
  exists t,
    String.concat "," (map stringify (map js_of_assignment (a :: l))) ++ rest
    = String "{" t.
Proof.
  destruct l as [|b l].
  - change (String.concat "," (map stringify (map js_of_assignment [a])))
      with (stringify (js_of_assignment a)).
    rewrite stringify_assignment. eauto.
  - change (String.concat ","
              (map stringify (map js_of_assignment (a :: b :: l))))
      with (stringify (js_of_assignment a)
            ++ String ","
                 (String.concat ","
                    (map stringify (map js_of_assignment (b :: l))))).
    rewrite append_assoc, stringify_assignment. eauto.
Qed.

Lemma parse_stringify (l : list Assignment) :
  parse (stringify (js_of_assignments l)) = Some (js_of_assignments l).
Proof.
  destruct l as [|a l]; [reflexivity|].
  unfold parse, js_of_assignments.
  change (stringify (JArr (map js_of_assignment (a :: l))))
    with (String "["
            (String.concat ","
               (map stringify (map js_of_assignment (a :: l)))
             ++ String "]" EmptyString)).
  pose proof (length_elements_text l a (String "]" EmptyString)) as Hlen.
  change (String.length (String "]" EmptyString)) with 1%nat in Hlen.
  destruct (assignment_elements_head l a (String "]" EmptyString)) as [t Ht].
  set (body := String.concat ","
                 (map stringify (map js_of_assignment (a :: l)))
               ++ String "]" EmptyString) in *.
  change (String.length (String "[" body)) with (S (String.length body)).
  assert (exists fuel, S (String.length body) = (length l + 5 + fuel)%nat)
    as [fuel Hfuel]
    by (exists (S (String.length body) - (length l + 5))%nat; lia).
  rewrite Ht, parse_value_array, <- Ht, Hfuel.
  unfold body. rewrite parse_assignment_elements. reflexivity.
Qed.

Lemma lawful : Lawful platform.
Proof.
  split.
  - intros m salt. apply reference_decrypt_encrypt.
  - intros l. apply parse_stringify.
Qed.

End ReferenceLaws.

(* ================================================================== *)
(** * The properties of the specification *)
(* ================================================================== *)

(** ** Generation *)

Lemma four_distinct_ids : NoDup (map id four).
Proof.
  repeat constructor; simpl; intuition discriminate.
Qed.

(** With [Math.random()] at 0 the constrained attempts fail and the
    relaxed attempt succeeds. *)
Lemma generate_four_zero :
  generateAssignments (P := Reference.platform) four
    [couple "Carol" "Dave"] 0 rs_zero
  = (Ok (encryptAssignments (P := Reference.platform) demo_assignments 0),
     rs_zero).
Proof. reflexivity. Qed.

(** C1. Whenever [generateAssignments] returns a token (from a constrained
    attempt or from the relaxed fallback), the list decoded from the token
    is a derangement of the participants: its givers are the participants
    in order, its receivers are the participants in some order, and no
    assignment has its giver as receiver; so, participants being told
    apart by their ids, every participant is the giver of exactly one
    assignment and the receiver of exactly one. *)
Theorem C1_generated_token_decodes_to_derangement
  {P : Platform} {L : Lawful P}
  (participants : list Participant) (constraints : list AssignmentConstraint)
  (salt : N) (rs rs' : RandomSource) (token : string) :
  generateAssignments participants constraints salt rs = (Ok token, rs') ->
  exists assignments,
    decryptAssignments token = Ok (js_of_assignments assignments)
    /\ map giverId assignments = map id participants
    /\ Permutation (map receiverId assignments) (map id participants)
    /\ (forall a, In a assignments -> giverId a <> receiverId a)
    /\ (NoDup (map id participants) ->
        valid_derangement assignments participants).
Proof.
  intros H. apply generateAssignments_Ok in H.
  destruct H as (_ & assignments & rs0 & constraints' & _ & Ha & ->).
  exists assignments. split; [apply decrypt_encrypt|].
  split; [eapply attempt_giver_order; eassumption|].
  split; [eapply attempt_receivers_permuted; eassumption|].
  split; [eapply attempt_no_self_assignment; eassumption|].
  intros Hnd. eapply attempt_valid_derangement; eassumption.
Qed.

Lemma C1_witness :
  exists assignments,
    decryptAssignments (P := Reference.platform)
      (encryptAssignments (P := Reference.platform) demo_assignments 0)
    = Ok (js_of_assignments assignments)
    /\ map giverId assignments = map id four
    /\ Permutation (map receiverId assignments) (map id four)
    /\ (forall a, In a assignments -> giverId a <> receiverId a)
    /\ (NoDup (map id four) -> valid_derangement assignments four).
Proof.
  exact (@C1_generated_token_decodes_to_derangement
           Reference.platform ReferenceLaws.lawful four
           [couple "Carol" "Dave"] 0%N rs_zero _ _ generate_four_zero).
Defined.

(** C10. Whenever [generateAssignments] returns a token, the decoded list
    has the length of the participant list and its i-th assignment has
    the id of the i-th participant as [giverId]. *)
Theorem C10_decoded_list_keeps_giver_order
  {P : Platform} {L : Lawful P}
  (participants : list Participant) (constraints : list AssignmentConstraint)
  (salt : N) (rs rs' : RandomSource) (token : string) :
  generateAssignments participants constraints salt rs = (Ok token, rs') ->
  exists assignments,
    decryptAssignments token = Ok (js_of_assignments assignments)
    /\ length assignments = length participants
    /\ forall i p, nth_error participants i = Some p ->
         exists a, nth_error assignments i = Some a /\ giverId a = id p.
Proof.
  intros H. apply generateAssignments_Ok in H.
  destruct H as (_ & assignments & rs0 & constraints' & _ & Ha & ->).
  exists assignments. split; [apply decrypt_encrypt|].
  apply attempt_giver_order in Ha.
  split.
  - rewrite <- (length_map giverId), Ha. apply length_map.
  - intros i p Hp.
    assert (Hi : nth_error (map giverId assignments) i = Some (id p))
      by (rewrite Ha; now apply map_nth_error).
    rewrite nth_error_map in Hi.
    destruct (nth_error assignments i) as [a|]; [|discriminate].
    exists a. split; [reflexivity|]. simpl in Hi. congruence.
Qed.

Lemma C10_witness :
  exists assignments,
    decryptAssignments (P := Reference.platform)
      (encryptAssignments (P := Reference.platform) demo_assignments 0)
    = Ok (js_of_assignments assignments)
    /\ length assignments = length four
    /\ forall i p, nth_error four i = Some p ->
         exists a, nth_error assignments i = Some a /\ giverId a = id p.
Proof.
  exact (@C10_decoded_list_keeps_giver_order
           Reference.platform ReferenceLaws.lawful four
           [couple "Carol" "Dave"] 0%N rs_zero _ _ generate_four_zero).
Defined.

(** ** The retry loop and its fallback *)

Lemma alice_has_no_receiver (pool : list Participant)
  (assignments : list Assignment) :
  incl pool three ->
  find_receiver alice pool assignments alice_excluded = None.
Proof.
  induction pool as [|r pool IH]; intros Hincl; simpl; [reflexivity|].
  assert (Hr : In r three) by (apply Hincl; now left).
  assert (Hv : isValidAssignment alice r assignments alice_excluded = false).
  { destruct Hr as [<-|[<-|[<-|[]]]]; reflexivity. }
  rewrite Hv, IH; [reflexivity|].
  intros x Hx. apply Hincl. now right.
Qed.

(** Whatever the shuffles, every constrained attempt on that input
    throws: the loop always reaches the relaxed attempt. *)
Lemma alice_excluded_attempt_fails (rs : RandomSource) :
  exists msg rs',
    attemptAssignment three alice_excluded rs = (Throw msg, rs').
Proof.
  unfold attemptAssignment.
  pose proof (shuffle_loop_Permutation (length three - 1) three rs) as Hp.
  destruct (shuffle_loop (length three - 1) three rs) as [pool rs0].
  cbn [fst] in Hp. unfold three at 1. cbn [assign_loop].
  rewrite alice_has_no_receiver; [eauto|].
  intros x Hx. eapply Permutation_in; eassumption.
Qed.

Lemma alice_excluded_attempts_fail (n : nat) :
  forall rs, exists rs1,
    all_attempts_fail n three alice_excluded rs = Some rs1.
Proof.
  induction n as [|n IH]; intros rs; cbn [all_attempts_fail]; [eauto|].
  destruct (alice_excluded_attempt_fails rs) as (msg & rs' & ->).
  apply IH.
Qed.

(** C2. The claim fails on the code.  Three participants and exclusions
    that leave Alice no receiver: whatever the shuffles, the hundred
    constrained attempts throw and the outcome of [generateAssignments]
    is that of the relaxed attempt, its error included.  When the shuffle
    of the relaxed attempt keeps the order Alice, Bob, Carol, Alice takes
    Bob, Bob takes Alice, Carol is left with herself, and the error
    reaches the caller although there are three participants.  The same
    happens without any exclusion when no shuffle changes the order. *)
Theorem C2_relaxed_attempt_error_reaches_caller {P : Platform} (salt : N) :
  (2 <= length three)%nat
  /\ (forall rs, exists rs1,
        all_attempts_fail maxAttempts three alice_excluded rs = Some rs1
        /\ generateAssignments three alice_excluded salt rs
           = match attemptAssignment three [] rs1 with
             | (Ok assignments, rs2) =>
                 (Ok (encryptAssignments assignments salt), rs2)
             | (Throw msg, rs2) => (Throw msg, rs2)
             end)
  /\ fst (generateAssignments three alice_excluded salt rs_top)
     = Throw "No valid receiver found for giver: Carol"
  /\ fst (generateAssignments three [] salt rs_top)
     = Throw "No valid receiver found for giver: Carol".
Proof.
  split; [simpl; lia|]. split; [|split; vm_compute; reflexivity].
  intros rs.
  destruct (alice_excluded_attempts_fail maxAttempts rs) as [rs1 Hf].
  exists rs1. split; [exact Hf|].
  unfold generateAssignments. change (length three <? 2)%nat with false.
  cbv iota. apply attempt_loop_fallback; [unfold maxAttempts; lia | exact Hf].
Qed.

(** C3, as stated, fails: the exclusion of Carol and Dave is satisfiable,
    but when every shuffle keeps the order of the array the hundred
    constrained attempts dead-end at Carol and the relaxed attempt pairs
    Carol with Dave. *)
Lemma C3_counterexample :
  jointly_satisfiable four [couple "Carol" "Dave"]
  /\ exists token rs' assignments,
       generateAssignments (P := Reference.platform) four
         [couple "Carol" "Dave"] 0 rs_top = (Ok token, rs')
       /\ decryptAssignments (P := Reference.platform) token
          = Ok (js_of_assignments assignments)
       /\ ~ respects_exclusions assignments four [couple "Carol" "Dave"].
Proof.
  split.
  - exists [mkAssignment "p1" "p3"; mkAssignment "p2" "p4";
            mkAssignment "p3" "p2"; mkAssignment "p4" "p1"].
    split; [split|].
    + intros p [<-|[<-|[<-|[<-|[]]]]]; split; reflexivity.
    + intros a [<-|[<-|[<-|[<-|[]]]]]; simpl; discriminate.
    + intros a g r c e Ha Hg Hr Eg Er [<-|[]] _ Hd.
      injection Hd as <-.
      destruct Ha as [<-|[<-|[<-|[<-|[]]]]];
        destruct Hg as [<-|[<-|[<-|[<-|[]]]]]; try discriminate Eg;
        destruct Hr as [<-|[<-|[<-|[<-|[]]]]]; try discriminate Er;
        intros [[E1 E2]|[E1 E2]]; discriminate.
  - exists (encryptAssignments (P := Reference.platform)
              [mkAssignment "p1" "p2"; mkAssignment "p2" "p1";
               mkAssignment "p3" "p4"; mkAssignment "p4" "p3"] 0).
    eexists.
    exists [mkAssignment "p1" "p2"; mkAssignment "p2" "p1";
            mkAssignment "p3" "p4"; mkAssignment "p4" "p3"].
    split; [vm_compute; reflexivity|].
    split; [apply (decrypt_encrypt (L := ReferenceLaws.lawful))|].
    intros H.
    apply (H (mkAssignment "p3" "p4") carol dave (couple "Carol" "Dave")
             (mkExclusion "Carol" "Dave" None)); simpl; auto 6.
    left. split; reflexivity.
Qed.

(** C3, amended. When one of the hundred constrained attempts succeeds,
    [generateAssignments] returns a token, and the list decoded from it
    joins no two participants whose names are an excluded pair, in either
    direction. *)
Theorem C3_constrained_attempt_respects_exclusions
  {P : Platform} {L : Lawful P}
  (participants : list Participant) (constraints : list AssignmentConstraint)
  (salt : N) (rs : RandomSource) :
  NoDup (map id participants) ->
  (2 <= length participants)%nat ->
  all_attempts_fail maxAttempts participants constraints rs = None ->
  exists token rs' assignments,
    generateAssignments participants constraints salt rs = (Ok token, rs')
    /\ decryptAssignments token = Ok (js_of_assignments assignments)
    /\ respects_exclusions assignments participants constraints.
Proof.
  intros Hnd Hlen Hf.
  destruct (attempt_loop_first_success participants constraints salt _ _ Hf)
    as (assignments & rs0 & rs' & Ha & Hloop).
  exists (encryptAssignments assignments salt), rs', assignments.
  split; [|split].
  - unfold generateAssignments.
    destruct (Nat.ltb_spec (length participants) 2); [lia | exact Hloop].
  - apply decrypt_encrypt.
  - eapply attempt_respects_exclusions; eassumption.
Qed.

Lemma C3_witness :
  exists token rs' assignments,
    generateAssignments (P := Reference.platform) four
      [couple "Carol" "Dave"] 0 rs_low = (Ok token, rs')
    /\ decryptAssignments (P := Reference.platform) token
       = Ok (js_of_assignments assignments)
    /\ respects_exclusions assignments four [couple "Carol" "Dave"].
Proof.
  apply (@C3_constrained_attempt_respects_exclusions
           Reference.platform ReferenceLaws.lawful four
           [couple "Carol" "Dave"] 0%N rs_low four_distinct_ids).
  - simpl; lia.
  - vm_compute; reflexivity.
Defined.

(** ** The encoder *)

(** C4. Decoding the token of an assignment list gives the list back,
    whatever the ids and the salt. *)
Theorem C4_decrypt_encrypt_roundtrip {P : Platform} {L : Lawful P}
  (assignments : list Assignment) (salt : N) :
  decryptAssignments (encryptAssignments assignments salt)
  = Ok (js_of_assignments assignments)
  /\ assignments_of_js (js_of_assignments assignments) = Some assignments.
Proof.
  split; [apply decrypt_encrypt | apply assignments_of_js_of_assignments].
Qed.

Lemma C4_witness :
  decryptAssignments (P := Reference.platform)
    (encryptAssignments (P := Reference.platform) demo_assignments 7)
  = Ok (js_of_assignments demo_assignments)
  /\ assignments_of_js (js_of_assignments demo_assignments)
     = Some demo_assignments.
Proof.
  exact (@C4_decrypt_encrypt_roundtrip Reference.platform
           ReferenceLaws.lawful demo_assignments 7%N).
Defined.

(** C5, as stated, fails: the token of the text [42] decodes without
    error to the number 42, which is not a list of assignments. *)
Lemma C5_counterexample :
  decryptAssignments (P := Reference.platform)
    (Reference.encrypt "42" "fallback-secret-key" 0)
  = Ok (JNum 42)
  /\ assignments_of_js (JNum 42) = None.
Proof. split; reflexivity. Qed.

(** C5, amended. [decryptAssignments] throws, always with the message
    [Invalid assignment data], exactly when the decryption to UTF-8 throws
    or the decrypted text is not JSON; when the text is JSON, the parsed
    value is returned as it is, with no check of its shape. *)
Theorem C5_decode_fails_only_on_cipher_or_json_errors {P : Platform}
  (encryptedData : string) :
  (forall msg,
     decryptAssignments encryptedData = Throw msg <->
     msg = "Invalid assignment data"
     /\ (AES_decrypt_utf8 encryptedData ENCRYPTION_KEY = None
         \/ exists decryptedData,
              AES_decrypt_utf8 encryptedData ENCRYPTION_KEY
              = Some decryptedData
              /\ JSON_parse decryptedData = None))
  /\ (forall v,
        decryptAssignments encryptedData = Ok v <->
        exists decryptedData,
          AES_decrypt_utf8 encryptedData ENCRYPTION_KEY = Some decryptedData
          /\ JSON_parse decryptedData = Some v).
Proof.
  unfold decryptAssignments.
  destruct (AES_decrypt_utf8 encryptedData ENCRYPTION_KEY) as [text|].
  - destruct (JSON_parse text) as [v|] eqn:Ep; split.
    + intros msg. split; [discriminate|].
      intros [_ [H|(t & Ht & Hp)]]; [discriminate|].
      injection Ht as <-. congruence.
    + intros v'. split.
      * intros H. injection H as <-. eauto.
      * intros (t & Ht & Hp). injection Ht as <-. congruence.
    + intros msg. split.
      * intros H. injection H as <-. split; eauto.
      * intros [-> _]. reflexivity.
    + intros v'. split; [discriminate|].
      intros (t & Ht & Hp). injection Ht as <-. congruence.
  - split.
    + intros msg. split.
      * intros H. injection H as <-. auto.
      * intros [-> _]. reflexivity.
    + intros v. split; [discriminate|].
      intros (t & Ht & _). discriminate.
Qed.

(** C6. [getAssignmentForParticipant] never throws.  On a token that
    decodes to an assignment list it returns the [receiverId] of the first
    assignment whose [giverId] is the participant, and [null] when there
    is none; when decoding throws it returns [null]. *)
Theorem C6_lookup_never_throws {P : Platform}
  (encryptedData participantId : string) :
  (exists v, getAssignmentForParticipant encryptedData participantId = Ok v)
  /\ (forall value assignments,
        decryptAssignments encryptedData = Ok value ->
        assignments_of_js value = Some assignments ->
        getAssignmentForParticipant encryptedData participantId
        = Ok match find (fun a => giverId a =? participantId) assignments with
             | Some a => JStr (receiverId a)
             | None => JNull
             end)
  /\ (forall msg,
        decryptAssignments encryptedData = Throw msg ->
        getAssignmentForParticipant encryptedData participantId = Ok JNull).
Proof.
  unfold getAssignmentForParticipant. split; [|split].
  - match goal with
    | |- exists v, match ?e with _ => _ end = _ => destruct e; eauto
    end.
  - intros value assignments Hd Ha. rewrite Hd. cbn [bind].
    destruct value as [| | | | |items|fields]; try discriminate.
    cbn [call_find]. simpl in Ha.
    now rewrite (lookup_in_items participantId _ Ha).
  - intros msg Hd. rewrite Hd. reflexivity.
Qed.

(** ** The validator *)

(** C7. The claim fails on the code.  Alice gives twice in the list
    below, yet the validator, which compares sets of ids, accepts it. *)
Theorem C7_validator_accepts_repeated_giver :
  validateAssignments
    [mkAssignment "p1" "p2"; mkAssignment "p2" "p1"; mkAssignment "p1" "p2"]
    [alice; bob]
  = true
  /\ count_as_giver
       [mkAssignment "p1" "p2"; mkAssignment "p2" "p1";
        mkAssignment "p1" "p2"]
       (id alice)
     = 2%nat.
Proof. split; reflexivity. Qed.

(** ** The clue engine *)

Lemma demo_token_decodes :
  decryptAssignments (P := Reference.platform) demo_token
  = Ok (js_of_assignments demo_assignments).
Proof. apply (decrypt_encrypt (L := ReferenceLaws.lawful)). Qed.

(** C8. On a token that decodes to an assignment list, [generateClues]
    throws nothing and returns at most ten clues: the first ten of the
    candidates that survive the filter followed by the backfill, hence all
    of them when they are fewer than ten. *)
Theorem C8_generateClues_returns_at_most_ten {P : Platform}
  (encryptedAssignments : string) (participants : list Participant)
  (exclusions : list Exclusion) (rs : RandomSource)
  (value : JSValue) (assignments : list Assignment) :
  decryptAssignments encryptedAssignments = Ok value ->
  assignments_of_js value = Some assignments ->
  exists clues rs',
    generateClues encryptedAssignments participants exclusions rs
    = (Ok clues, rs')
    /\ (length clues <= 10)%nat
    /\ let survivors :=
         length (surviving_candidates assignments participants exclusions rs)
       in
       length clues
       = Nat.min 10
           (survivors
            + length (backfill_for assignments participants exclusions
                        survivors)).
Proof.
  intros Hd Ha.
  rewrite (generateClues_decodable _ participants exclusions rs Hd Ha).
  eexists. eexists. split; [reflexivity|].
  split; [apply generateClues_from_length|].
  destruct (generateClues_from_shape assignments participants exclusions rs)
    as (shuffled & Hperm & ->).
  cbv zeta. rewrite length_firstn, length_app.
  now rewrite (Permutation_length Hperm).
Qed.

Lemma C8_witness :
  exists clues rs',
    generateClues (P := Reference.platform) demo_token four carol_dave rs_low
    = (Ok clues, rs')
    /\ (length clues <= 10)%nat
    /\ let survivors :=
         length (surviving_candidates demo_assignments four carol_dave rs_low)
       in
       length clues
       = Nat.min 10
           (survivors
            + length (backfill_for (P := Reference.platform)
                        demo_assignments four carol_dave survivors)).
Proof.
  exact (@C8_generateClues_returns_at_most_ten Reference.platform
           demo_token four carol_dave rs_low _ _ demo_token_decodes
           (assignments_of_js_of_assignments demo_assignments)).
Defined.

(** C9. On a token that decodes to an assignment list, when at least one
    exclusion is supplied and the participants counted as male or female
    are at most four, [generateClues] returns no clue of type [gender],
    from the generators or from the backfill. *)
Theorem C9_no_gender_clue_in_small_group {P : Platform}
  (encryptedAssignments : string) (participants : list Participant)
  (exclusions : list Exclusion) (rs : RandomSource)
  (value : JSValue) (assignments : list Assignment) :
  decryptAssignments encryptedAssignments = Ok value ->
  assignments_of_js value = Some assignments ->
  exclusions <> [] ->
  (length (filter is_male participants)
   + length (filter is_female participants) <= 4)%nat ->
  exists clues rs',
    generateClues encryptedAssignments participants exclusions rs
    = (Ok clues, rs')
    /\ Forall (fun clue => type clue <> type_gender) clues.
Proof.
  intros Hd Ha Hex Htot.
  rewrite (generateClues_decodable _ participants exclusions rs Hd Ha).
  eexists. eexists. split; [reflexivity|].
  apply Forall_forall. intros clue Hin Ht.
  apply generateClues_from_not_obvious in Hin.
  destruct (analysis_gender_counts participants exclusions) as [Hm Hf].
  rewrite gender_clue_obvious in Hin; [discriminate | exact Ht | | ].
  - destruct exclusions; [contradiction | simpl; lia].
  - now rewrite Hm, Hf.
Qed.

Lemma C9_witness :
  exists clues rs',
    generateClues (P := Reference.platform) demo_token four carol_dave rs_low
    = (Ok clues, rs')
    /\ Forall (fun clue => type clue <> type_gender) clues.
Proof.
  apply (@C9_no_gender_clue_in_small_group Reference.platform
           demo_token four carol_dave rs_low _ _ demo_token_decodes
           (assignments_of_js_of_assignments demo_assignments)).
  - discriminate.
  - vm_compute. lia.
Defined.

(* ================================================================== *)
(** * More of the assignment engine *)
(* ================================================================== *)

(** ** Errors of [generateAssignments] *)

(** X1. [generateAssignments] throws its own error exactly on fewer than two
    participants; any other error is the one of the relaxed attempt and
    names a participant; the error after the loop is never thrown. *)
Theorem generateAssignments_errors {P : Platform}
  (participants : list Participant) (constraints : list AssignmentConstraint)
  (salt : N) (rs : RandomSource) :
  (fst (generateAssignments participants constraints salt rs)
   = Throw "Need at least 2 participants for Secret Santa"
   <-> (length participants < 2)%nat)
  /\ (forall msg,
        fst (generateAssignments participants constraints salt rs)
        = Throw msg ->
        msg = "Need at least 2 participants for Secret Santa"
        \/ exists g,
             In g participants
             /\ msg = ("No valid receiver found for giver: " ++ name g)%string)
  /\ fst (generateAssignments participants constraints salt rs)
     <> Throw "Could not generate valid assignments".
Proof.
  assert (Hmsg : forall msg,
             fst (generateAssignments participants constraints salt rs)
             = Throw msg ->
             msg = "Need at least 2 participants for Secret Santa"
             \/ exists g,
                  In g participants
                  /\ msg
                     = ("No valid receiver found for giver: " ++ name g)%string).
  { intros msg H.
    destruct (generateAssignments participants constraints salt rs)
      as [r rs'] eqn:E. simpl in H. subst r.
    apply generateAssignments_Throw in E.
    destruct E as [[_ ->]|[_ Hg]]; auto. }
  split; [apply generateAssignments_insufficient_iff|].
  split; [exact Hmsg|].
  intros H. destruct (Hmsg _ H) as [E|(g & _ & E)]; discriminate E.
Qed.

(** ** Two participants *)

(** X2. With two participants who may give to each other, every attempt
    succeeds, whatever the random draw: each gives to the other, and the
    token is that of the first attempt. *)
Theorem two_participants_exchange {P : Platform}
  (a b : Participant) (constraints : list AssignmentConstraint)
  (salt : N) (rs : RandomSource) :
  isValidAssignment a b [] constraints = true ->
  isValidAssignment b a [] constraints = true ->
  generateAssignments [a; b] constraints salt rs
  = (Ok (encryptAssignments
           [mkAssignment (id a) (id b); mkAssignment (id b) (id a)] salt),
     fun n => rs (S n)).
Proof.
  intros Hab Hba.
  assert (Haa : forall l, isValidAssignment a a l constraints = false)
    by (intros l; unfold isValidAssignment; now rewrite String.eqb_refl).
  assert (Hbb : forall l, isValidAssignment b b l constraints = false)
    by (intros l; unfold isValidAssignment; now rewrite String.eqb_refl).
  assert (Hatt : attemptAssignment [a; b] constraints rs
                 = (Ok [mkAssignment (id a) (id b);
                        mkAssignment (id b) (id a)],
                    fun n => rs (S n))).
  { unfold attemptAssignment. cbn [length Nat.sub shuffle_loop Math_random].
    assert (Hswap : swap [a; b] 1 (floor_times (rs 0%nat mod two53) (1 + 1))
                    = [a; b]
                    \/ swap [a; b] 1
                         (floor_times (rs 0%nat mod two53) (1 + 1))
                       = [b; a]).
    { destruct (floor_times (rs 0%nat mod two53) (1 + 1)) as [|[|j]];
        [right | left | left]; try reflexivity.
      unfold swap. simpl. now destruct j. }
    destruct Hswap as [-> | ->]; cbn [assign_loop find_receiver];
      rewrite ?Haa, ?Hbb;
      rewrite ?(isValidAssignment_existing a b _ [] constraints), ?Hab;
      cbn [assign_loop find_receiver app];
      rewrite ?Hbb;
      rewrite ?(isValidAssignment_existing b a _ [] constraints), ?Hba;
      reflexivity. }
  unfold generateAssignments. cbn [length Nat.ltb Nat.leb].
  unfold maxAttempts. cbn [attempt_loop]. now rewrite Hatt.
Qed.

Lemma two_participants_exchange_witness :
  generateAssignments (P := Reference.platform) [alice; bob] [] 3 rs_low
  = (Ok (encryptAssignments (P := Reference.platform)
           [mkAssignment (id alice) (id bob);
            mkAssignment (id bob) (id alice)] 3),
     fun n => rs_low (S n)).
Proof.
  exact (@two_participants_exchange Reference.platform alice bob [] 3%N
           rs_low eq_refl eq_refl).
Defined.

(** ** Where the relaxed attempt can fail *)

Lemma find_receiver_relaxed_None giver :
  forall receivers assignments,
    find_receiver giver receivers assignments [] = None ->
    forall r, In r receivers -> id r = id giver.
Proof.
  intros receivers assignments H r Hin.
  pose proof (find_receiver_None _ _ _ _ H r Hin) as Hv.
  unfold isValidAssignment in Hv. simpl in Hv.
  destruct (String.eqb_spec (id giver) (id r)); [congruence | discriminate].
Qed.

Lemma same_ids_NoDup_short (i : string) :
  forall l : list Participant,
    NoDup (map id l) -> (forall r, In r l -> id r = i) ->
    (length l <= 1)%nat.
Proof.
  intros [|x [|y l]] Hnd Hall; simpl; try lia.
  exfalso. inversion Hnd as [|? ? Hnot _]; subst.
  apply Hnot. simpl. left.
  rewrite (Hall x), (Hall y); simpl; auto.
Qed.

Lemma assign_loop_relaxed_Throw :
  forall givers receivers assignments msg,
    NoDup (map id receivers) ->
    length receivers = length givers ->
    assign_loop givers receivers assignments [] = Throw msg ->
    exists front p,
      givers = front ++ [p]
      /\ msg = ("No valid receiver found for giver: " ++ name p)%string.
Proof.
  induction givers as [|g gs IH]; intros receivers assignments msg Hnd Hlen H;
    simpl in H; [discriminate|].
  destruct (find_receiver g receivers assignments []) as [[v pool]|] eqn:F.
  - apply find_receiver_Some in F. destruct F as [_ Hperm].
    assert (Hnd' : NoDup (map id pool)).
    { apply (Permutation_map id) in Hperm.
      apply (Permutation_NoDup Hperm) in Hnd. simpl in Hnd.
      now inversion Hnd. }
    assert (Hlen' : length pool = length gs).
    { apply Permutation_length in Hperm. simpl in Hperm, Hlen. lia. }
    destruct (IH _ _ _ Hnd' Hlen' H) as (front & p & -> & ->).
    exists (g :: front), p. auto.
  - injection H as <-.
    pose proof (@same_ids_NoDup_short (id g) receivers Hnd
                  (find_receiver_relaxed_None _ _ _ F)) as Hshort.
    destruct gs as [|g' gs]; [|simpl in Hlen; lia].
    exists [], g. auto.
Qed.

Lemma attempt_loop_Throw_relaxed {P : Platform} participants constraints salt :
  forall left rs msg rs',
    (0 < left)%nat ->
    attempt_loop left participants constraints salt rs = (Throw msg, rs') ->
    exists rs0, attemptAssignment participants [] rs0 = (Throw msg, rs').
Proof.
  induction left as [|left IH]; intros rs msg rs' Hpos H; [lia|].
  simpl in H.
  destruct (attemptAssignment participants constraints rs)
    as [[a|m] rs1] eqn:E; [discriminate|].
  destruct left as [|left'].
  - destruct (attemptAssignment participants [] rs1)
      as [[a|m'] rs2] eqn:E'; [discriminate|].
    injection H as <- <-. eauto.
  - eapply IH; [lia | eassumption].
Qed.

(** X3. Among two or more participants told apart by their ids, the only
    way [generateAssignments] fails is the dead end of the relaxed
    attempt at the last participant of the list, left with themself. *)
Theorem relaxed_failure_names_last_participant {P : Platform}
  (participants : list Participant) (constraints : list AssignmentConstraint)
  (salt : N) (rs rs' : RandomSource) (msg : string) :
  NoDup (map id participants) ->
  (2 <= length participants)%nat ->
  generateAssignments participants constraints salt rs = (Throw msg, rs') ->
  exists front p,
    participants = front ++ [p]
    /\ msg = ("No valid receiver found for giver: " ++ name p)%string.
Proof.
  intros Hnd Hlen H. unfold generateAssignments in H.
  destruct (Nat.ltb_spec (length participants) 2) as [Hlt|_]; [lia|].
  apply attempt_loop_Throw_relaxed in H; [|unfold maxAttempts; lia].
  destruct H as [rs0 H]. unfold attemptAssignment in H.
  pose proof (shuffle_loop_Permutation (length participants - 1)
                participants rs0) as Hperm.
  destruct (shuffle_loop (length participants - 1) participants rs0)
    as [pool rs1].
  cbn [fst] in Hperm. injection H as H _.
  eapply assign_loop_relaxed_Throw; [| |exact H].
  - eapply Permutation_NoDup; [|exact Hnd].
    apply Permutation_map. now symmetry.
  - now apply Permutation_length.
Qed.

Lemma three_distinct_ids : NoDup (map id three).
Proof. repeat constructor; simpl; intuition discriminate. Qed.

Lemma generate_three_top :
  generateAssignments (P := Reference.platform) three alice_excluded 0 rs_top
  = (Throw "No valid receiver found for giver: Carol", rs_top).
Proof. vm_compute. reflexivity. Qed.

Lemma relaxed_failure_names_last_participant_witness :
  exists front p,
    three = front ++ [p]
    /\ "No valid receiver found for giver: Carol"
       = ("No valid receiver found for giver: " ++ name p)%string.
Proof.
  apply (@relaxed_failure_names_last_participant Reference.platform
           three alice_excluded 0%N rs_top rs_top _ three_distinct_ids).
  - simpl; lia.
  - exact generate_three_top.
Defined.

(** ** Constraints *)

(** X4. An exclusion forbids both directions, and so does the gender rule:
    whether a pair is allowed does not depend on who gives. *)
Theorem exclusions_are_undirected (giver receiver : Participant)
  (l l' : list Assignment) (constraints : list AssignmentConstraint) :
  isValidAssignment giver receiver l constraints
  = isValidAssignment receiver giver l' constraints.
Proof.
  unfold isValidAssignment. rewrite (String.eqb_sym (id receiver)).
  destruct (id giver =? id receiver); [reflexivity|].
  induction constraints as [|c cs IH]; simpl; [reflexivity|].
  rewrite IH. f_equal.
  destruct (constraint_type c); [| |reflexivity].
  - now rewrite String.eqb_sym.
  - destruct (data c) as [d|]; [|reflexivity].
    destruct (name giver =? participant1 d), (name receiver =? participant2 d),
      (name giver =? participant2 d), (name receiver =? participant1 d);
      reflexivity.
Qed.

Lemma isValidAssignment_informative giver receiver l constraints :
  isValidAssignment giver receiver l constraints
  = isValidAssignment giver receiver l (filter is_informative constraints).
Proof.
  unfold isValidAssignment.
  destruct (id giver =? id receiver); [reflexivity|].
  induction constraints as [|c cs IH]; simpl; [reflexivity|].
  unfold is_informative at 1.
  destruct (constraint_type c) eqn:Et; simpl.
  - rewrite Et. now rewrite IH.
  - destruct (data c) eqn:Ed; simpl.
    + rewrite Et, Ed. now rewrite IH.
    + exact IH.
  - exact IH.
Qed.

Lemma attemptAssignment_ext participants constraints constraints' rs :
  (forall g r l,
     isValidAssignment g r l constraints
     = isValidAssignment g r l constraints') ->
  attemptAssignment participants constraints rs
  = attemptAssignment participants constraints' rs.
Proof.
  intros Hext. unfold attemptAssignment.
  destruct (shuffle_loop (length participants - 1) participants rs)
    as [pool rs1].
  f_equal. generalize (@nil Assignment) as acc. revert pool.
  assert (Hfind : forall g pool acc,
             find_receiver g pool acc constraints
             = find_receiver g pool acc constraints').
  { intros g pool acc. induction pool as [|r pool IH]; simpl;
      [reflexivity|]. now rewrite Hext, IH. }
  induction participants as [|g gs IH]; intros pool acc; simpl;
    [reflexivity|].
  rewrite Hfind.
  destruct (find_receiver g pool acc constraints') as [[v pool']|];
    [apply IH | reflexivity].
Qed.

(** X5. Constraints of type [custom], and [no_couples] constraints without
    [data], change nothing: [generateAssignments] returns what it
    returns without them, for the same random draws. *)
Theorem uninformative_constraints_are_ignored {P : Platform}
  (participants : list Participant) (constraints : list AssignmentConstraint)
  (salt : N) (rs : RandomSource) :
  generateAssignments participants constraints salt rs
  = generateAssignments participants (filter is_informative constraints)
      salt rs.
Proof.
  unfold generateAssignments.
  destruct (length participants <? 2)%nat; [reflexivity|].
  generalize maxAttempts as left. intros left. revert rs.
  induction left as [|left IH]; intros rs; simpl; [reflexivity|].
  rewrite <- (attemptAssignment_ext participants constraints
                (filter is_informative constraints) rs
                (fun g r l => isValidAssignment_informative g r l constraints)).
  destruct (attemptAssignment participants constraints rs) as [[a|m] rs1];
    [reflexivity|].
  destruct left as [|left']; [reflexivity | apply IH].
Qed.

(** What a successful attempt pairs is allowed by every constraint. *)
Lemma attempt_pairs_valid participants constraints rs result rs' :
  NoDup (map id participants) ->
  attemptAssignment participants constraints rs = (Ok result, rs') ->
  forall a g r,
    In a result -> In g participants -> In r participants ->
    id g = giverId a -> id r = receiverId a ->
    isValidAssignment g r [] constraints = true.
Proof.
  intros Hnd H. apply attemptAssignment_Ok in H.
  destruct H as (chosen & -> & Hlen & Hperm & Hall).
  intros a g r Ha Hg Hr Eg Er.
  apply pair_up_In in Ha. destruct Ha as (g' & r' & Hin & ->).
  simpl in Eg, Er.
  pose proof (Forall2_combine Hall _ _ Hin) as Hv. simpl in Hv.
  assert (Hg' : In g' participants) by (eapply in_combine_l; eauto).
  assert (Hr' : In r' participants).
  { eapply Permutation_in; [exact Hperm | eapply in_combine_r; eauto]. }
  assert (Hinj : forall x y, In x participants -> In y participants ->
                             id x = id y -> x = y).
  { clear -Hnd. induction participants as [|p ps IH]; simpl;
      [contradiction|].
    inversion Hnd as [|? ? Hnot Hnd']; subst.
    intros x y [<-|Hx] [<-|Hy] E; auto.
    - exfalso. apply Hnot. rewrite E. now apply in_map.
    - exfalso. apply Hnot. rewrite <- E. now apply in_map. }
  now rewrite (Hinj g g' Hg Hg' Eg), (Hinj r r' Hr Hr' Er).
Qed.

Lemma isValidAssignment_gender giver receiver l constraints c :
  isValidAssignment giver receiver l constraints = true ->
  In c constraints -> constraint_type c = no_same_gender ->
  gender giver <> gender receiver.
Proof.
  unfold isValidAssignment.
  destruct (id giver =? id receiver); [discriminate|].
  rewrite forallb_forall. intros H Hin Ht.
  specialize (H c Hin). rewrite Ht in H.
  apply negb_true_iff in H. now apply String.eqb_neq.
Qed.

(** X6. With a [no_same_gender] constraint, when one of the hundred
    constrained attempts succeeds, the decoded list joins no two
    participants whose [gender] strings are equal. *)
Theorem constrained_attempt_respects_gender_rule
  {P : Platform} {L : Lawful P}
  (participants : list Participant) (constraints : list AssignmentConstraint)
  (salt : N) (rs : RandomSource) :
  NoDup (map id participants) ->
  (2 <= length participants)%nat ->
  (exists c, In c constraints /\ constraint_type c = no_same_gender) ->
  all_attempts_fail maxAttempts participants constraints rs = None ->
  exists token rs' assignments,
    generateAssignments participants constraints salt rs = (Ok token, rs')
    /\ decryptAssignments token = Ok (js_of_assignments assignments)
    /\ respects_gender_rule assignments participants.
Proof.
  intros Hnd Hlen (c & Hc & Ht) Hf.
  destruct (attempt_loop_first_success participants constraints salt _ _ Hf)
    as (assignments & rs0 & rs' & Ha & Hloop).
  exists (encryptAssignments assignments salt), rs', assignments.
  split; [|split].
  - unfold generateAssignments.
    destruct (Nat.ltb_spec (length participants) 2); [lia | exact Hloop].
  - apply decrypt_encrypt.
  - intros a g r Hin Hg Hr Eg Er.
    eapply isValidAssignment_gender; [|exact Hc | exact Ht].
    eapply attempt_pairs_valid; eassumption.
Qed.

Lemma constrained_attempt_respects_gender_rule_witness :
  exists token rs' assignments,
    generateAssignments (P := Reference.platform) four
      [mkConstraint no_same_gender None] 0 rs_low = (Ok token, rs')
    /\ decryptAssignments (P := Reference.platform) token
       = Ok (js_of_assignments assignments)
    /\ respects_gender_rule assignments four.
Proof.
  apply (@constrained_attempt_respects_gender_rule
           Reference.platform ReferenceLaws.lawful four
           [mkConstraint no_same_gender None] 0%N rs_low four_distinct_ids).
  - simpl; lia.
  - exists (mkConstraint no_same_gender None). simpl. auto.
  - vm_compute; reflexivity.
Defined.

(** ** Random numbers read by an attempt *)

Lemma shuffle_loop_draws (i : nat) :
  forall receivers rs n,
    snd (shuffle_loop i receivers rs) n = rs (n + i)%nat.
Proof.
  induction i as [|i IH]; intros receivers rs n; simpl.
  - now rewrite Nat.add_0_r.
  - rewrite IH. f_equal. lia.
Qed.

(** X7. An attempt on [n] participants reads [n - 1] random numbers, whether
    it succeeds or throws; the next call of [Math.random] gets the
    number after them. *)
Theorem attempt_reads_one_number_per_swap
  (participants : list Participant) (constraints : list AssignmentConstraint)
  (rs : RandomSource) (n : nat) :
  snd (attemptAssignment participants constraints rs) n
  = rs (n + (length participants - 1))%nat.
Proof.
  unfold attemptAssignment.
  pose proof (shuffle_loop_draws (length participants - 1) participants rs n)
    as H.
  destruct (shuffle_loop (length participants - 1) participants rs)
    as [pool rs1].
  exact H.
Qed.

(* ================================================================== *)
(** * More of the validator *)
(* ================================================================== *)

Lemma filter_length_le {A : Type} (f : A -> bool) (l : list A) :
  (length (filter f l) <= length l)%nat.
Proof.
  induction l as [|x l IH]; simpl; [lia|].
  destruct (f x); simpl; lia.
Qed.

Lemma Set_of_length_le (l : list string) :
  (length (Set_of String.eqb l) <= length l)%nat.
Proof.
  induction l as [|x l IH]; simpl; [lia|].
  pose proof (filter_length_le (fun y => negb (y =? x))
                (Set_of String.eqb l)).
  lia.
Qed.

(** A list as long as its set has no repetition. *)
Lemma Set_of_full_length_NoDup :
  forall l : list string,
    length (Set_of String.eqb l) = length l -> NoDup l.
Proof.
  induction l as [|x l IH]; simpl; intros H; constructor.
  - intros Hin.
    pose proof (Set_of_length_le l) as Hle.
    pose proof (filter_length_le (fun y => negb (y =? x))
                  (Set_of String.eqb l)) as Hfl.
    assert (Hlen : length (filter (fun y => negb (y =? x))
                             (Set_of String.eqb l))
                   = length (Set_of String.eqb l)) by lia.
    apply (Set_of_In x l) in Hin.
    assert (Hall : forall l',
               In x l' ->
               (length (filter (fun y => negb (y =? x)%string) l')
                < length l')%nat).
    { induction l' as [|y l' IH']; simpl; [contradiction|].
      pose proof (filter_length_le (fun y => negb (y =? x)%string) l').
      intros [->|Hx].
      - rewrite String.eqb_refl. simpl. lia.
      - specialize (IH' Hx). destruct (negb (y =? x)); simpl; lia. }
    specialize (Hall _ Hin). lia.
  - apply IH.
    pose proof (Set_of_length_le l) as Hle.
    pose proof (filter_length_le (fun y => negb (y =? x))
                  (Set_of String.eqb l)) as Hfl.
    lia.
Qed.

Lemma same_elements_same_set_size (l ids : list string) :
  NoDup ids ->
  (forall i, In i l <-> In i ids) ->
  length (Set_of String.eqb l) = length ids.
Proof.
  intros Hnd Hsame. apply Permutation_length.
  apply NoDup_Permutation; [apply Set_of_is_NoDup | exact Hnd|].
  intros i. now rewrite Set_of_In.
Qed.

(** X8. Among participants told apart by their ids, the validator accepts a
    list exactly when the ids that give are the ids of the participants
    and the ids that receive are the ids of the participants, as sets:
    repetitions in the list and self-assignments are not looked at. *)
Theorem validateAssignments_iff_same_id_sets
  (assignments : list Assignment) (participants : list Participant) :
  NoDup (map id participants) ->
  (validateAssignments assignments participants = true
   <-> (forall i,
          In i (map giverId assignments) <-> In i (map id participants))
       /\ (forall i,
             In i (map receiverId assignments)
             <-> In i (map id participants))).
Proof.
  intros Hnd. split; [now apply validateAssignments_sets|].
  intros [Hg Hr]. unfold validateAssignments.
  rewrite (same_elements_same_set_size _ Hnd Hg),
    (same_elements_same_set_size _ Hnd Hr), length_map, Nat.eqb_refl.
  rewrite (Set_of_NoDup Hnd). simpl.
  apply andb_true_iff. split; apply forallb_forall; intros x Hx;
    apply Set_has_In; apply (proj1 (Set_of_In x _)) in Hx.
  - exact (proj1 (Hg x) Hx).
  - exact (proj1 (Hr x) Hx).
Qed.

Lemma validateAssignments_iff_same_id_sets_witness :
  validateAssignments
    [mkAssignment "p1" "p1"; mkAssignment "p2" "p2"] [alice; bob] = true
  <-> (forall i,
         In i (map giverId
                 [mkAssignment "p1" "p1"; mkAssignment "p2" "p2"])
         <-> In i (map id [alice; bob]))
      /\ (forall i,
            In i (map receiverId
                    [mkAssignment "p1" "p1"; mkAssignment "p2" "p2"])
            <-> In i (map id [alice; bob])).
Proof.
  apply validateAssignments_iff_same_id_sets.
  repeat constructor; simpl; intuition discriminate.
Defined.

(** X9. A participant list in which an id is repeated never validates,
    whatever the assignments. *)
Theorem validateAssignments_rejects_repeated_ids
  (assignments : list Assignment) (participants : list Participant) :
  ~ NoDup (map id participants) ->
  validateAssignments assignments participants = false.
Proof.
  intros Hdup.
  destruct (validateAssignments assignments participants) eqn:H;
    [exfalso | reflexivity].
  unfold validateAssignments in H.
  rewrite !andb_true_iff, !Nat.eqb_eq, !forallb_forall in H.
  destruct H as [[[Hlg _] Hg] _].
  apply Hdup. apply Set_of_full_length_NoDup.
  pose proof (Set_of_length_le (map id participants)) as Hle.
  assert (Hincl : incl (Set_of String.eqb (map giverId assignments))
                    (Set_of String.eqb (map id participants))).
  { intros x Hx. apply Set_has_In. now apply Hg. }
  pose proof (NoDup_incl_length (Set_of_is_NoDup _) Hincl) as Hle'.
  rewrite Hlg, <- (length_map id) in Hle'. lia.
Qed.

Lemma validateAssignments_rejects_repeated_ids_witness :
  validateAssignments [mkAssignment "p1" "p1"] [alice; alice] = false.
Proof.
  apply validateAssignments_rejects_repeated_ids.
  intros H. inversion H as [|? ? Hnot _]. apply Hnot. now left.
Defined.

(** X10. What [generateAssignments] returns passes the validator once
    decoded, on the constrained and on the relaxed path. *)
Theorem generated_assignments_validate {P : Platform} {L : Lawful P}
  (participants : list Participant) (constraints : list AssignmentConstraint)
  (salt : N) (rs rs' : RandomSource) (token : string) :
  NoDup (map id participants) ->
  generateAssignments participants constraints salt rs = (Ok token, rs') ->
  exists assignments,
    decryptAssignments token = Ok (js_of_assignments assignments)
    /\ validateAssignments assignments participants = true.
Proof.
  intros Hnd H. apply generateAssignments_Ok in H.
  destruct H as (_ & assignments & rs0 & constraints' & _ & Ha & ->).
  exists assignments. split; [apply decrypt_encrypt|].
  eapply attempt_validates; eassumption.
Qed.

Lemma generated_assignments_validate_witness :
  exists assignments,
    decryptAssignments (P := Reference.platform)
      (encryptAssignments (P := Reference.platform) demo_assignments 0)
    = Ok (js_of_assignments assignments)
    /\ validateAssignments assignments four = true.
Proof.
  exact (@generated_assignments_validate
           Reference.platform ReferenceLaws.lawful four
           [couple "Carol" "Dave"] 0%N rs_zero _ _
           four_distinct_ids generate_four_zero).
Defined.

(* ================================================================== *)
(** * More of the encoder *)
(* ================================================================== *)

Section LookupProperties.
Context {P : Platform}.

Lemma lookup_decoded (encryptedData participantId : string)
  (value : JSValue) (assignments : list Assignment) :
  decryptAssignments encryptedData = Ok value ->
  assignments_of_js value = Some assignments ->
  getAssignmentForParticipant encryptedData participantId
  = Ok match find (fun a => giverId a =? participantId) assignments with
       | Some a => JStr (receiverId a)
       | None => JNull
       end.
Proof.
  intros Hd Ha. unfold getAssignmentForParticipant. rewrite Hd. cbn [bind].
  destruct value as [| | | | |items|fields]; try discriminate.
  cbn [call_find]. simpl in Ha.
  now rewrite (lookup_in_items participantId _ Ha).
Qed.

Lemma Array_find_giver (participantId : string) :
  forall items v,
    Array_find
      (fun a =>
         g <- get_property a "giverId" ;;
         Ok (strict_equals_string g participantId))
      items = Ok v ->
    v = JUndefined
    \/ exists fields,
         v = JObj fields /\ In v items
         /\ get_field fields "giverId" = JStr participantId.
Proof.
  induction items as [|a items IH]; intros v H; simpl in H.
  - injection H as <-. now left.
  - assert (Hrest : Array_find
                      (fun a =>
                         g <- get_property a "giverId" ;;
                         Ok (strict_equals_string g participantId))
                      items = Ok v ->
                    v = JUndefined
                    \/ exists fields,
                         v = JObj fields /\ In v (a :: items)
                         /\ get_field fields "giverId" = JStr participantId).
    { intros H'. destruct (IH _ H') as [->|(fields & -> & Hin & Hg)];
        [now left | right]. exists fields. simpl. auto. }
    destruct a as [| | | | |l|fields]; simpl in H; try discriminate; auto.
    destruct (get_field fields "giverId") as [| | | |s| |] eqn:Eg;
      simpl in H; auto.
    destruct (String.eqb_spec s participantId) as [->|Hne]; auto.
    injection H as <-. right. exists fields. simpl. auto.
Qed.

(** X11. [getAssignmentForParticipant] returns [null] unless the token
    decodes to an array that holds an object whose [giverId] is the
    participant's id; it then returns the [receiverId] of that object,
    whatever it is. *)
Theorem lookup_is_null_or_read_from_matching_object
  (encryptedData participantId : string) :
  getAssignmentForParticipant encryptedData participantId = Ok JNull
  \/ exists items fields,
       decryptAssignments encryptedData = Ok (JArr items)
       /\ In (JObj fields) items
       /\ get_field fields "giverId" = JStr participantId
       /\ getAssignmentForParticipant encryptedData participantId
          = Ok (get_field fields "receiverId").
Proof.
  unfold getAssignmentForParticipant.
  destruct (decryptAssignments encryptedData) as [value|msg];
    [|now left].
  cbn [bind].
  destruct value as [| | | | |items|fields]; try (now left).
  cbn [call_find].
  destruct (Array_find
              (fun a =>
                 g <- get_property a "giverId" ;;
                 Ok (strict_equals_string g participantId))
              items) as [v|msg] eqn:Ef; [|now left].
  destruct (Array_find_giver _ _ Ef) as [->|(fields & -> & Hin & Hg)];
    [now left|].
  right. exists items, fields. auto.
Qed.

End LookupProperties.

Lemma find_giver_In (i : string) :
  forall assignments,
    In i (map giverId assignments) ->
    exists a,
      find (fun a => giverId a =? i) assignments = Some a
      /\ In a assignments /\ giverId a = i.
Proof.
  induction assignments as [|x l IH]; simpl; [contradiction|].
  destruct (String.eqb_spec (giverId x) i) as [E|Hne].
  - intros _. exists x. auto.
  - intros [E|Hin]; [contradiction|].
    destruct (IH Hin) as (a & Hf & Ha & Hg). exists a. auto.
Qed.

Lemma find_giver_None (i : string) :
  forall assignments,
    ~ In i (map giverId assignments) ->
    find (fun a => giverId a =? i) assignments = None.
Proof.
  induction assignments as [|x l IH]; simpl; [reflexivity|].
  intros Hnot.
  destruct (String.eqb_spec (giverId x) i) as [E|Hne];
    [exfalso; auto | apply IH; auto].
Qed.

Lemma NoDup_map_injective {A B : Type} (f : A -> B) :
  forall l x y,
    NoDup (map f l) -> In x l -> In y l -> f x = f y -> x = y.
Proof.
  induction l as [|z l IH]; simpl; intros x y Hnd Hx Hy E;
    [contradiction|].
  inversion Hnd as [|? ? Hnot Hnd']; subst.
  destruct Hx as [<-|Hx], Hy as [<-|Hy]; auto.
  - exfalso. apply Hnot. rewrite E. now apply in_map.
  - exfalso. apply Hnot. rewrite <- E. now apply in_map.
Qed.

(** X12. On a token returned by [generateAssignments], every participant
    looks up the id of another participant, an id that belongs to no
    participant looks up [null], and, participants being told apart by
    their ids, no two of them look up the same receiver. *)
Theorem lookup_after_generation {P : Platform} {L : Lawful P}
  (participants : list Participant) (constraints : list AssignmentConstraint)
  (salt : N) (rs rs' : RandomSource) (token : string) :
  generateAssignments participants constraints salt rs = (Ok token, rs') ->
  (forall p, In p participants ->
     exists q,
       In q participants /\ id q <> id p
       /\ getAssignmentForParticipant token (id p) = Ok (JStr (id q)))
  /\ (forall i, ~ In i (map id participants) ->
        getAssignmentForParticipant token i = Ok JNull)
  /\ (NoDup (map id participants) ->
      forall p p', In p participants -> In p' participants ->
        getAssignmentForParticipant token (id p)
        = getAssignmentForParticipant token (id p') ->
        p = p').
Proof.
  intros H. apply generateAssignments_Ok in H.
  destruct H as (_ & assignments & rs0 & constraints' & _ & Ha & ->).
  pose proof (attempt_giver_order _ _ _ Ha) as Hg.
  pose proof (attempt_receivers_permuted _ _ _ Ha) as Hr.
  pose proof (attempt_no_self_assignment _ _ _ Ha) as Hself.
  assert (Hlook : forall i,
             getAssignmentForParticipant
               (encryptAssignments assignments salt) i
             = Ok match find (fun a => giverId a =? i) assignments with
                  | Some a => JStr (receiverId a)
                  | None => JNull
                  end).
  { intros i. apply (lookup_decoded _ i (decrypt_encrypt assignments salt)).
    apply assignments_of_js_of_assignments. }
  assert (Hfound : forall p, In p participants ->
             exists a,
               find (fun a => giverId a =? id p) assignments = Some a
               /\ In a assignments /\ giverId a = id p).
  { intros p Hp. apply find_giver_In. rewrite Hg. now apply in_map. }
  split; [|split].
  - intros p Hp. destruct (Hfound p Hp) as (a & Hf & Hin & Ega).
    assert (Hq : In (receiverId a) (map id participants)).
    { eapply Permutation_in; [exact Hr | now apply in_map]. }
    apply in_map_iff in Hq. destruct Hq as (q & Eq & Hq).
    exists q. split; [exact Hq|]. split.
    + rewrite Eq, <- Ega. intros E. apply (Hself a Hin). now symmetry.
    + rewrite Hlook, Hf. now rewrite Eq.
  - intros i Hi. rewrite Hlook, find_giver_None; [reflexivity|].
    now rewrite Hg.
  - intros Hnd p p' Hp Hp' E.
    destruct (Hfound p Hp) as (a & Hf & Hin & Ega).
    destruct (Hfound p' Hp') as (a' & Hf' & Hin' & Ega').
    rewrite !Hlook, Hf, Hf' in E. injection E as E.
    assert (Hndr : NoDup (map receiverId assignments))
      by (eapply Permutation_NoDup; [symmetry; exact Hr | exact Hnd]).
    pose proof (NoDup_map_injective receiverId _ a a' Hndr Hin Hin' E) as Eaa.
    apply (NoDup_map_injective id _ p p' Hnd Hp Hp').
    rewrite <- Ega, <- Ega'. now rewrite Eaa.
Qed.

Lemma lookup_after_generation_witness :
  (forall p, In p four ->
     exists q,
       In q four /\ id q <> id p
       /\ getAssignmentForParticipant (P := Reference.platform)
            (encryptAssignments (P := Reference.platform) demo_assignments 0)
            (id p)
          = Ok (JStr (id q)))
  /\ (forall i, ~ In i (map id four) ->
        getAssignmentForParticipant (P := Reference.platform)
          (encryptAssignments (P := Reference.platform) demo_assignments 0) i
        = Ok JNull)
  /\ (NoDup (map id four) ->
      forall p p', In p four -> In p' four ->
        getAssignmentForParticipant (P := Reference.platform)
          (encryptAssignments (P := Reference.platform) demo_assignments 0)
          (id p)
        = getAssignmentForParticipant (P := Reference.platform)
            (encryptAssignments (P := Reference.platform) demo_assignments 0)
            (id p') ->
        p = p').
Proof.
  exact (@lookup_after_generation Reference.platform ReferenceLaws.lawful
           four [couple "Carol" "Dave"] 0%N rs_zero _ _ generate_four_zero).
Defined.

(* ================================================================== *)
(** * More of the clue engine: maps and the population analysis *)
(* ================================================================== *)

Section MapLemmas.
Variables (K V : Type) (eqb : K -> K -> bool).
Hypothesis eqb_spec : forall x y, reflect (x = y) (eqb x y).

Lemma Map_get_set_same (m : list (K * V)) (k : K) (v : V) :
  Map_get eqb (Map_set eqb m k v) k = Some v.
Proof.
  induction m as [|[k' v'] m IH]; simpl.
  - now destruct (eqb_spec k k).
  - destruct (eqb_spec k' k) as [->|Hne]; simpl.
    + now destruct (eqb_spec k k).
    + now destruct (eqb_spec k' k).
Qed.

Lemma Map_get_set_other (m : list (K * V)) (k k0 : K) (v : V) :
  k <> k0 ->
  Map_get eqb (Map_set eqb m k v) k0 = Map_get eqb m k0.
Proof.
  intros Hne. induction m as [|[k' v'] m IH]; simpl.
  - now destruct (eqb_spec k k0).
  - destruct (eqb_spec k' k) as [->|Hne']; simpl.
    + now destruct (eqb_spec k k0).
    + now rewrite IH.
Qed.

Lemma Map_set_keys_known (m : list (K * V)) (k : K) (v : V) :
  In k (map fst m) -> map fst (Map_set eqb m k v) = map fst m.
Proof.
  induction m as [|[k' v'] m IH]; simpl; [contradiction|].
  intros Hin. destruct (eqb_spec k' k) as [->|Hne]; simpl; [reflexivity|].
  destruct Hin as [E|Hin]; [contradiction|]. now rewrite IH.
Qed.

Lemma Map_set_new (m : list (K * V)) (k : K) (v : V) :
  ~ In k (map fst m) -> Map_set eqb m k v = m ++ [(k, v)].
Proof.
  induction m as [|[k' v'] m IH]; simpl; [reflexivity|].
  intros Hnot. destruct (eqb_spec k' k) as [->|Hne]; [exfalso; auto|].
  rewrite IH; auto.
Qed.

Lemma Map_get_None (m : list (K * V)) (k : K) :
  Map_get eqb m k = None <-> ~ In k (map fst m).
Proof.
  induction m as [|[k' v'] m IH]; simpl; [tauto|].
  destruct (eqb_spec k' k) as [->|Hne].
  - split; [discriminate | intros H; exfalso; auto].
  - rewrite IH. tauto.
Qed.

Lemma Map_get_In (m : list (K * V)) (k : K) (v : V) :
  NoDup (map fst m) ->
  (Map_get eqb m k = Some v <-> In (k, v) m).
Proof.
  induction m as [|[k' v'] m IH]; simpl; intros Hnd.
  - split; [discriminate | contradiction].
  - inversion Hnd as [|? ? Hnot Hnd']; subst.
    destruct (eqb_spec k' k) as [->|Hne].
    + split.
      * intros E. injection E as ->. now left.
      * intros [E|Hin]; [now injection E as -> |].
        exfalso. apply Hnot. change k with (fst (k, v)). now apply in_map.
    + rewrite (IH Hnd'). split; [auto|].
      intros [E|Hin]; [injection E as -> _; contradiction | exact Hin].
Qed.

(** [new Set(array)] holds the elements of the array, once each. *)
Lemma Set_of_In_iff (x : K) :
  forall l, In x (Set_of eqb l) <-> In x l.
Proof.
  induction l as [|y l IH]; simpl; [tauto|].
  rewrite filter_In, IH.
  destruct (eqb_spec x y) as [->|Hne]; simpl.
  - tauto.
  - split; [tauto|]. intros [E|Hin]; [now left; symmetry in E |].
    right. auto.
Qed.

Lemma Set_of_NoDup_any :
  forall l, NoDup (Set_of eqb l).
Proof.
  induction l as [|y l IH]; simpl; constructor.
  - rewrite filter_In. intros [_ H].
    now destruct (eqb_spec y y).
  - now apply NoDup_filter.
Qed.

End MapLemmas.

Lemma tally_years_count_participant (t : Tally) (p : Participant) :
  tally_years (count_participant t p)
  = Map_set Z.eqb (tally_years t) (yearMoved p)
      (match Map_get Z.eqb (tally_years t) (yearMoved p) with
       | Some n => n
       | None => O
       end + 1)%nat.
Proof.
  unfold count_participant.
  destruct (is_male p); [reflexivity|]. now destruct (is_female p).
Qed.

Lemma year_count_cons (p : Participant) (ps : list Participant) (year : Z) :
  year_count (p :: ps) year
  = ((if (yearMoved p =? year)%Z then 1 else 0) + year_count ps year)%nat.
Proof.
  unfold year_count. cbn [filter].
  now destruct (yearMoved p =? year)%Z.
Qed.

Lemma tally_years_get (year : Z) :
  forall participants t,
    Map_get Z.eqb
      (tally_years (fold_left count_participant participants t)) year
    = match Map_get Z.eqb (tally_years t) year with
      | Some n => Some (n + year_count participants year)%nat
      | None =>
          if (year_count participants year =? 0)%nat then None
          else Some (year_count participants year)
      end.
Proof.
  induction participants as [|p ps IH]; intros t.
  - simpl. destruct (Map_get Z.eqb (tally_years t) year) as [n|];
      [now rewrite Nat.add_0_r | reflexivity].
  - cbn [fold_left]. rewrite IH, tally_years_count_participant.
    rewrite (year_count_cons p ps year).
    destruct (Z.eqb_spec (yearMoved p) year) as [E|Hne].
    + rewrite E, (@Map_get_set_same _ _ _ Z.eqb_spec).
      destruct (Map_get Z.eqb (tally_years t) year) as [n|].
      * f_equal. lia.
      * cbn [Nat.add Nat.eqb]. f_equal.
    + rewrite (@Map_get_set_other _ _ _ Z.eqb_spec) by exact Hne.
      reflexivity.
Qed.

Lemma tally_years_keys :
  forall participants t,
    NoDup (map fst (tally_years t)) ->
    NoDup (map fst
             (tally_years (fold_left count_participant participants t))).
Proof.
  induction participants as [|p ps IH]; intros t Hnd; [exact Hnd|].
  cbn [fold_left]. apply IH. rewrite tally_years_count_participant.
  destruct (in_dec Z.eq_dec (yearMoved p) (map fst (tally_years t)))
    as [Hin|Hnot].
  - now rewrite (@Map_set_keys_known _ _ _ Z.eqb_spec).
  - rewrite (@Map_set_new _ _ _ Z.eqb_spec) by exact Hnot.
    rewrite map_app. cbn [map fst].
    apply NoDup_app; [exact Hnd | repeat constructor; auto |].
    intros y Hy [<-|[]]. contradiction.
Qed.

Lemma year_count_positive (participants : list Participant) (year : Z) :
  (0 < year_count participants year)%nat
  <-> In year (map yearMoved participants).
Proof.
  unfold year_count. induction participants as [|p ps IH]; simpl.
  - split; [lia | contradiction].
  - destruct (Z.eqb_spec (yearMoved p) year) as [E|Hne]; simpl.
    + split; [auto | lia].
    + rewrite IH. tauto.
Qed.

(** X13. The year histogram of the analysis gives, for each year in which a
    participant moved, the number of participants who moved that year,
    and has no entry for the other years; [uniqueYears] is the number of
    distinct years. *)
Theorem analysis_year_histogram (participants : list Participant)
  (exclusions : list Exclusion) :
  let analysis := analyzeParticipantDistribution participants exclusions in
  (forall year,
     Map_get Z.eqb (yearDistribution analysis) year
     = if (year_count participants year =? 0)%nat then None
       else Some (year_count participants year))
  /\ NoDup (map fst (yearDistribution analysis))
  /\ (forall year,
        In year (map fst (yearDistribution analysis))
        <-> In year (map yearMoved participants))
  /\ uniqueYears analysis = length (map fst (yearDistribution analysis)).
Proof.
  cbv zeta. unfold analyzeParticipantDistribution.
  cbn [yearDistribution uniqueYears].
  assert (Hget : forall year,
             Map_get Z.eqb
               (tally_years
                  (fold_left count_participant participants
                     (mkCounts [] 0 0))) year
             = if (year_count participants year =? 0)%nat then None
               else Some (year_count participants year))
    by (intros year; now rewrite tally_years_get).
  split; [exact Hget|]. split; [apply tally_years_keys; constructor|].
  split; [|now rewrite length_map].
  intros year. rewrite <- year_count_positive.
  pose proof (@Map_get_None _ _ _ Z.eqb_spec
                (tally_years
                   (fold_left count_participant participants
                      (mkCounts [] 0 0))) year) as Hnone.
  rewrite Hget in Hnone.
  destruct (Nat.eqb_spec (year_count participants year) 0) as [E|Hne].
  - rewrite E. split; [|lia]. intros Hin. exfalso.
    now apply (proj1 Hnone).
  - split; [lia|]. intros _.
    destruct (in_dec Z.eq_dec year
                (map fst
                   (tally_years
                      (fold_left count_participant participants
                         (mkCounts [] 0 0))))) as [Hin|Hnot]; [exact Hin|].
    apply Hnone in Hnot. discriminate.
Qed.

Lemma year_distribution_entries (participants : list Participant)
  (exclusions : list Exclusion) (year : Z) (n : nat) :
  In (year, n)
    (yearDistribution (analyzeParticipantDistribution participants exclusions))
  <-> n = year_count participants year /\ (0 < n)%nat.
Proof.
  unfold analyzeParticipantDistribution. cbn [yearDistribution].
  rewrite <- (@Map_get_In _ _ _ Z.eqb_spec)
    by (apply tally_years_keys; constructor).
  rewrite tally_years_get. cbn [tally_years Map_get].
  destruct (Nat.eqb_spec (year_count participants year) 0) as [E|Hne].
  - split; [discriminate | lia].
  - split.
    + intros H. injection H as <-. lia.
    + intros [-> _]. reflexivity.
Qed.

Lemma Math_max_from :
  forall l a,
    exists m,
      fold_left
        (fun acc z =>
           match acc with
           | Num m => Num (Z.max m z)
           | _ => Num z
           end)
        l (Num a) = Num m
      /\ (m = a \/ In m l) /\ (a <= m)%Z /\ Forall (fun z => (z <= m)%Z) l.
Proof.
  induction l as [|x l IH]; intros a; simpl.
  - exists a. repeat split; auto; lia.
  - destruct (IH (Z.max a x)) as (m & -> & Hm & Hle & Hall).
    exists m. split; [reflexivity|]. split; [|split].
    + destruct Hm as [->|Hin]; [|auto].
      destruct (Z.max_spec a x) as [[_ ->]|[_ ->]]; auto.
    + lia.
    + constructor; [lia | exact Hall].
Qed.

(** [Math.max(...l)] is the greatest element of a non-empty [l], and
    [-Infinity] on no argument. *)
Lemma Math_max_spec (l : list Z) :
  match l with
  | [] => Math_max l = NegInfinity
  | _ :: _ =>
      exists m,
        Math_max l = Num m /\ In m l /\ Forall (fun z => (z <= m)%Z) l
  end.
Proof.
  destruct l as [|x l]; [reflexivity|].
  unfold Math_max. cbn [fold_left].
  destruct (Math_max_from l x) as (m & -> & Hm & Hle & Hall).
  exists m. split; [reflexivity|]. split.
  - destruct Hm as [->|Hin]; [now left | now right].
  - now constructor.
Qed.

Lemma greatest_year_count (participants : list Participant)
  (exclusions : list Exclusion) :
  participants <> [] ->
  exists year,
    In year (map yearMoved participants)
    /\ mostCommonYearCount
         (analyzeParticipantDistribution participants exclusions)
       = Num (Z.of_nat (year_count participants year))
    /\ forall other,
         (year_count participants other <= year_count participants year)%nat.
Proof.
  intros Hne.
  pose proof (year_distribution_entries participants exclusions) as Hentries.
  unfold analyzeParticipantDistribution in *.
  cbn [yearDistribution mostCommonYearCount] in *.
  set (dist := tally_years
                 (fold_left count_participant participants
                    (mkCounts [] 0 0))) in *.
  unfold Map_values.
  pose proof (Math_max_spec (map Z.of_nat (map snd dist))) as Hmax.
  destruct (map Z.of_nat (map snd dist)) as [|c cs] eqn:Ec.
  - exfalso. destruct participants as [|p ps]; [contradiction|].
    assert (Hin : In (yearMoved p,
                      year_count (p :: ps) (yearMoved p)) dist).
    { apply Hentries. split; [reflexivity|].
      apply year_count_positive. now left. }
    destruct dist; [contradiction | discriminate].
  - destruct Hmax as (m & -> & Hin & Hall). rewrite <- Ec in Hin, Hall.
    apply in_map_iff in Hin. destruct Hin as (n & <- & Hin).
    apply in_map_iff in Hin. destruct Hin as ([year n'] & E & Hin).
    simpl in E. subst n'.
    apply Hentries in Hin. destruct Hin as [-> Hpos].
    exists year. split; [now apply year_count_positive|].
    split; [reflexivity|]. intros other.
    destruct (Nat.eq_dec (year_count participants other) 0) as [E|Hnz];
      [lia|].
    assert (Ho : In (other, year_count participants other) dist)
      by (apply Hentries; split; [reflexivity | lia]).
    rewrite Forall_forall in Hall.
    assert (Hle : (Z.of_nat (year_count participants other)
                   <= Z.of_nat (year_count participants year))%Z).
    { apply Hall. apply in_map.
      change (year_count participants other)
        with (snd (other, year_count participants other)).
      now apply in_map. }
    lia.
Qed.

Lemma majority_year_is_skewed (participants : list Participant)
  (exclusions : list Exclusion) (year : Z) :
  (7 * length participants < 10 * year_count participants year)%nat ->
  isYearDistributionSkewed
    (analyzeParticipantDistribution participants exclusions) = true.
Proof.
  intros H.
  assert (Hne : participants <> []) by (intros ->; simpl in H; lia).
  destruct (@greatest_year_count participants exclusions Hne)
    as (modal & _ & Hc & Hmax).
  change (isYearDistributionSkewed
            (analyzeParticipantDistribution participants exclusions))
    with (ratio_above_70
            (mostCommonYearCount
               (analyzeParticipantDistribution participants exclusions))
            (length participants)).
  rewrite Hc. unfold ratio_above_70. rewrite Z.ltb_lt.
  specialize (Hmax year). lia.
Qed.

(** X14. The analysis calls the year distribution skewed exactly when more
    than 70% of the participants moved in one same year. *)
Theorem year_distribution_skewed_iff (participants : list Participant)
  (exclusions : list Exclusion) :
  isYearDistributionSkewed
    (analyzeParticipantDistribution participants exclusions) = true
  <-> exists year,
        (7 * length participants < 10 * year_count participants year)%nat.
Proof.
  destruct participants as [|p ps].
  - split; [discriminate|]. intros [year H]. simpl in H. lia.
  - assert (Hne : p :: ps <> []) by discriminate.
    destruct (@greatest_year_count (p :: ps) exclusions Hne)
      as (year & _ & Hc & Hmax).
    change (isYearDistributionSkewed
              (analyzeParticipantDistribution (p :: ps) exclusions))
      with (ratio_above_70
              (mostCommonYearCount
                 (analyzeParticipantDistribution (p :: ps) exclusions))
              (length (p :: ps))).
    rewrite Hc. unfold ratio_above_70. rewrite Z.ltb_lt.
    split.
    + intros H. exists year. lia.
    + intros [other H]. specialize (Hmax other). lia.
Qed.

Lemma or_zero_same (z : Z) : or_zero z = z.
Proof. unfold or_zero. now destruct (Z.eqb_spec z 0). Qed.

(** X15. With at least one participant, [mostCommonYear] is a year in which
    no fewer participants moved than in any other, and
    [mostCommonYearCount] is the number of participants who moved that
    year. *)
Theorem most_common_year_is_modal (participants : list Participant)
  (exclusions : list Exclusion) :
  participants <> [] ->
  let analysis := analyzeParticipantDistribution participants exclusions in
  In (mostCommonYear analysis) (map yearMoved participants)
  /\ mostCommonYearCount analysis
     = Num (Z.of_nat (year_count participants (mostCommonYear analysis)))
  /\ forall year,
       (year_count participants year
        <= year_count participants (mostCommonYear analysis))%nat.
Proof.
  intros Hne. cbv zeta.
  destruct (@greatest_year_count participants exclusions Hne)
    as (year & Hin & Hc & Hmax).
  pose proof (year_distribution_entries participants exclusions) as Hentries.
  assert (Hmode :
            exists y n,
              In (y, n)
                (yearDistribution
                   (analyzeParticipantDistribution participants exclusions))
              /\ Z.of_nat n = Z.of_nat (year_count participants year)
              /\ mostCommonYear
                   (analyzeParticipantDistribution participants exclusions)
                 = y).
  { unfold analyzeParticipantDistribution in *.
    cbn [yearDistribution mostCommonYearCount mostCommonYear] in *.
    set (dist := tally_years
                   (fold_left count_participant participants
                      (mkCounts [] 0 0))) in *.
    rewrite Hc.
    destruct (find
                (fun yc =>
                   equals_number (Z.of_nat (snd yc))
                     (Num (Z.of_nat (year_count participants year))))
                dist) as [[y n]|] eqn:Ef.
    - apply find_some in Ef. destruct Ef as [Hy Hn].
      cbn [snd equals_number] in Hn. apply Z.eqb_eq in Hn.
      exists y, n. rewrite or_zero_same. auto.
    - exfalso.
      assert (Hy : In (year, year_count participants year) dist).
      { apply Hentries. split; [reflexivity|].
        now apply year_count_positive. }
      apply (find_none _ _ Ef) in Hy. cbn [snd equals_number] in Hy.
      now rewrite Z.eqb_refl in Hy. }
  destruct Hmode as (y & n & Hy & Hn & ->).
  apply Hentries in Hy. destruct Hy as [-> Hpos].
  assert (E : year_count participants y = year_count participants year)
    by lia.
  split; [now apply year_count_positive|]. split.
  - rewrite Hc. now rewrite E.
  - intros other. rewrite E. apply Hmax.
Qed.

Lemma most_common_year_is_modal_witness :
  four <> []
  /\ (let analysis := analyzeParticipantDistribution four carol_dave in
      In (mostCommonYear analysis) (map yearMoved four)
      /\ mostCommonYearCount analysis
         = Num (Z.of_nat (year_count four (mostCommonYear analysis)))
      /\ forall year,
           (year_count four year
            <= year_count four (mostCommonYear analysis))%nat).
Proof.
  split; [discriminate|].
  apply (@most_common_year_is_modal four carol_dave). discriminate.
Defined.

(* ================================================================== *)
(** * More of the clue engine: where a returned clue comes from *)
(* ================================================================== *)

Ltac clue_types :=
  repeat first
    [ apply Forall_nil
    | apply Forall_cons; [cbn [type]; auto; fail |]
    | apply Forall_app; split
    | match goal with
      | |- Forall _ (if ?c then _ else _) => destruct c
      | |- Forall _ (match ?x with _ => _ end) => destruct x
      end ].

Lemma gender_clues_type assignments participantMap exclusions :
  Forall (fun clue => type clue = type_gender)
    (generateGenderGiftingClues assignments participantMap exclusions).
Proof. unfold generateGenderGiftingClues. cbv zeta. clue_types. Qed.

Lemma year_clues_type assignments participantMap :
  Forall (fun clue => type clue = type_year)
    (generateYearGiftingClues assignments participantMap).
Proof. unfold generateYearGiftingClues. cbv zeta. clue_types. Qed.

Lemma specific_clues_type assignments participantMap rs :
  Forall (fun clue => type clue = type_year)
    (fst (generateSpecificPatternClues assignments participantMap rs)).
Proof.
  unfold generateSpecificPatternClues. cbv zeta.
  match goal with
  | |- context [let (_, _) := ?e in _] => destruct e as [gap_clues rs'] eqn:E
  end.
  cbn [fst]. apply Forall_app. split; [|clue_types].
  revert E.
  repeat match goal with
         | |- context [if ?c then _ else _] => destruct c
         | |- context [match nth_error ?l ?n with _ => _ end] =>
             destruct (nth_error l n)
         | |- context [let (_, _) := Math_random ?r in _] =>
             destruct (Math_random r)
         end;
    intros E; injection E as <- _; clue_types.
Qed.

Section ClueOrigins.
Context {P : Platform}.

Lemma backup_clues_type assignments participantMap analysis exclusions
  needed :
  Forall (fun clue => type clue = type_specific \/ type clue = type_year)
    (generateSmartBackupClues assignments participantMap analysis exclusions
       needed).
Proof.
  unfold generateSmartBackupClues. cbv zeta.
  apply Forall_forall. intros clue Hin.
  apply firstn_In in Hin. apply filter_In in Hin. destruct Hin as [Hin _].
  revert clue Hin. apply Forall_forall. clue_types.
Qed.

(** A returned clue was proposed by one of the three generators or by
    the backfill, and passed the filter. *)
Lemma returned_clue_origin assignments participants exclusions rs clue :
  In clue (fst (generateClues_from assignments participants exclusions rs)) ->
  (In clue
     (generateGenderGiftingClues assignments (participantMap_of participants)
        exclusions)
   /\ type clue = type_gender)
  \/ type clue = type_year
  \/ type clue = type_specific.
Proof.
  intros Hin.
  destruct (generateClues_from_shape assignments participants exclusions rs)
    as (shuffled & Hperm & E).
  rewrite E in Hin. apply firstn_In in Hin. apply in_app_or in Hin.
  destruct Hin as [Hin|Hin].
  - eapply Permutation_in in Hin; [|exact Hperm].
    unfold surviving_candidates in Hin. apply filter_In in Hin.
    destruct Hin as [Hin _].
    apply in_app_or in Hin. destruct Hin as [Hin|Hin].
    + left. split; [exact Hin|].
      exact (proj1 (Forall_forall _ _) (gender_clues_type _ _ _) _ Hin).
    + right. left. apply in_app_or in Hin. destruct Hin as [Hin|Hin].
      * exact (proj1 (Forall_forall _ _) (year_clues_type _ _) _ Hin).
      * exact (proj1 (Forall_forall _ _) (specific_clues_type _ _ _) _ Hin).
  - unfold backfill_for in Hin.
    destruct (length shuffled <? 10)%nat; [|contradiction].
    pose proof (proj1 (Forall_forall _ _)
                  (backup_clues_type _ _ _ _ _) _ Hin) as [Ht|Ht]; auto.
Qed.

(** X16. [generateClues] never returns a clue of type [count]: no generator
    and no backfill rule proposes one, so the test the filter has for
    clues of that type is never taken. *)
Theorem generateClues_never_returns_count_clue
  (encryptedAssignments : string) (participants : list Participant)
  (exclusions : list Exclusion) (rs : RandomSource)
  (value : JSValue) (assignments : list Assignment) :
  decryptAssignments encryptedAssignments = Ok value ->
  assignments_of_js value = Some assignments ->
  exists clues rs',
    generateClues encryptedAssignments participants exclusions rs
    = (Ok clues, rs')
    /\ Forall (fun clue => type clue <> type_count) clues.
Proof.
  intros Hd Ha.
  rewrite (generateClues_decodable _ participants exclusions rs Hd Ha).
  eexists. eexists. split; [reflexivity|].
  apply Forall_forall. intros clue Hin.
  destruct (returned_clue_origin _ _ _ _ _ Hin) as [[_ ->]|[->| ->]];
    discriminate.
Qed.

End ClueOrigins.

Lemma generateClues_never_returns_count_clue_witness :
  exists clues rs',
    generateClues (P := Reference.platform) demo_token four carol_dave rs_low
    = (Ok clues, rs')
    /\ Forall (fun clue => type clue <> type_count) clues.
Proof.
  exact (@generateClues_never_returns_count_clue Reference.platform
           demo_token four carol_dave rs_low _ _ demo_token_decodes
           (assignments_of_js_of_assignments demo_assignments)).
Defined.

(* ================================================================== *)
(** * More of the clue engine: what the filter suppresses *)
(* ================================================================== *)

Lemma unique_years_bound (participants : list Participant)
  (exclusions : list Exclusion) (years : list Z) :
  (forall p, In p participants -> In (yearMoved p) years) ->
  (uniqueYears (analyzeParticipantDistribution participants exclusions)
   <= length years)%nat.
Proof.
  intros Hyears.
  pose proof (year_distribution_entries participants exclusions) as Hentries.
  unfold analyzeParticipantDistribution in *.
  cbn [uniqueYears yearDistribution] in *.
  rewrite <- (length_map fst).
  apply NoDup_incl_length; [apply tally_years_keys; constructor|].
  intros year Hin. apply in_map_iff in Hin.
  destruct Hin as ([y n] & E & Hin). simpl in E. subst y.
  apply Hentries in Hin. destruct Hin as [-> Hpos].
  assert (Hy : In year (map yearMoved participants))
    by now apply year_count_positive.
  apply in_map_iff in Hy. destruct Hy as (p & <- & Hp). auto.
Qed.

Lemma year_clue_obvious clue assignments participantMap analysis exclusions :
  type clue = type_year ->
  (uniqueYears analysis <= 2)%nat ->
  isClueObvious clue assignments participantMap analysis exclusions = true.
Proof.
  intros Ht Hle. unfold isClueObvious. rewrite Ht. cbn [ClueType_eqb].
  apply Nat.leb_le in Hle. rewrite Hle. now rewrite !orb_true_r.
Qed.

Lemma imbalanced_gender_clue_obvious clue assignments participantMap analysis
  exclusions :
  type clue = type_gender ->
  (8 * (male (genderDistribution analysis)
        + female (genderDistribution analysis))
   < 10 * Nat.max (male (genderDistribution analysis))
            (female (genderDistribution analysis)))%nat ->
  isClueObvious clue assignments participantMap analysis exclusions = true.
Proof.
  intros Ht Hlt. unfold isClueObvious. rewrite Ht. cbn [ClueType_eqb].
  cbv zeta.
  assert (Hpos : (0 <? male (genderDistribution analysis)
                       + female (genderDistribution analysis))%nat = true)
    by (apply Nat.ltb_lt; lia).
  apply Nat.ltb_lt in Hlt. rewrite Hpos, Hlt. reflexivity.
Qed.

Lemma same_year_clue_obvious clue assignments participantMap analysis :
  type clue = type_year ->
  isYearDistributionSkewed analysis = true ->
  excludedPairsCount analysis = 0%nat ->
  includes (toLowerCase (text clue)) "same year" = true ->
  isClueObvious clue assignments participantMap analysis [] = true.
Proof.
  intros Ht Hs He Hi. unfold isClueObvious.
  rewrite Ht, Hs, He, Hi. cbn [ClueType_eqb filter length].
  now rewrite orb_true_r.
Qed.

Section Suppression.
Context {P : Platform}.

(** X17. When the participants moved in at most two distinct years,
    [generateClues] returns no clue of type [year]. *)
Theorem no_year_clue_with_two_years
  (encryptedAssignments : string) (participants : list Participant)
  (exclusions : list Exclusion) (rs : RandomSource)
  (value : JSValue) (assignments : list Assignment) (year1 year2 : Z) :
  decryptAssignments encryptedAssignments = Ok value ->
  assignments_of_js value = Some assignments ->
  (forall p, In p participants ->
     yearMoved p = year1 \/ yearMoved p = year2) ->
  exists clues rs',
    generateClues encryptedAssignments participants exclusions rs
    = (Ok clues, rs')
    /\ Forall (fun clue => type clue <> type_year) clues.
Proof.
  intros Hd Ha Hyears.
  rewrite (generateClues_decodable _ participants exclusions rs Hd Ha).
  eexists. eexists. split; [reflexivity|].
  apply Forall_forall. intros clue Hin Ht.
  apply generateClues_from_not_obvious in Hin.
  rewrite year_clue_obvious in Hin; [discriminate | exact Ht |].
  apply (@unique_years_bound participants exclusions [year1; year2]).
  intros p Hp. simpl. destruct (Hyears p Hp) as [E|E]; auto.
Qed.

(** X18. When more than 80% of the participants counted as male or female
    have the same gender, [generateClues] returns no clue of type
    [gender]. *)
Theorem no_gender_clue_when_imbalanced
  (encryptedAssignments : string) (participants : list Participant)
  (exclusions : list Exclusion) (rs : RandomSource)
  (value : JSValue) (assignments : list Assignment) :
  decryptAssignments encryptedAssignments = Ok value ->
  assignments_of_js value = Some assignments ->
  (8 * (length (filter is_male participants)
        + length (filter is_female participants))
   < 10 * Nat.max (length (filter is_male participants))
            (length (filter is_female participants)))%nat ->
  exists clues rs',
    generateClues encryptedAssignments participants exclusions rs
    = (Ok clues, rs')
    /\ Forall (fun clue => type clue <> type_gender) clues.
Proof.
  intros Hd Ha Hlt.
  rewrite (generateClues_decodable _ participants exclusions rs Hd Ha).
  eexists. eexists. split; [reflexivity|].
  apply Forall_forall. intros clue Hin Ht.
  apply generateClues_from_not_obvious in Hin.
  destruct (analysis_gender_counts participants exclusions) as [Hm Hf].
  rewrite imbalanced_gender_clue_obvious in Hin;
    [discriminate | exact Ht |].
  now rewrite Hm, Hf.
Qed.

(** X19. When more than 70% of the participants moved in one same year and
    no exclusion is given, [generateClues] returns no clue of type
    [year] whose text mentions the same year: the share of the
    exclusions inside the majority year, which the filter compares with
    one half, is then taken as reached. *)
Theorem no_same_year_clue_when_skewed_without_exclusions
  (encryptedAssignments : string) (participants : list Participant)
  (rs : RandomSource) (value : JSValue) (assignments : list Assignment)
  (year : Z) :
  decryptAssignments encryptedAssignments = Ok value ->
  assignments_of_js value = Some assignments ->
  (7 * length participants < 10 * year_count participants year)%nat ->
  exists clues rs',
    generateClues encryptedAssignments participants [] rs = (Ok clues, rs')
    /\ Forall
         (fun clue =>
            type clue = type_year ->
            includes (toLowerCase (text clue)) "same year" = false)
         clues.
Proof.
  intros Hd Ha Hskew.
  rewrite (generateClues_decodable _ participants [] rs Hd Ha).
  eexists. eexists. split; [reflexivity|].
  apply Forall_forall. intros clue Hin Ht.
  apply generateClues_from_not_obvious in Hin.
  destruct (includes (toLowerCase (text clue)) "same year") eqn:Hi;
    [|reflexivity].
  rewrite same_year_clue_obvious in Hin;
    [discriminate | exact Ht | | reflexivity | exact Hi].
  now apply majority_year_is_skewed with (year := year).
Qed.

End Suppression.

Lemma no_year_clue_with_two_years_witness :
  exists clues rs',
    generateClues (P := Reference.platform) demo_token newcomers carol_dave
      rs_low
    = (Ok clues, rs')
    /\ Forall (fun clue => type clue <> type_year) clues.
Proof.
  apply (@no_year_clue_with_two_years Reference.platform
           demo_token newcomers carol_dave rs_low _ _ 2019%Z 2020%Z
           demo_token_decodes
           (assignments_of_js_of_assignments demo_assignments)).
  intros p [<-|[<-|[<-|[<-|[]]]]];
    [left | left | left | right]; reflexivity.
Defined.

Lemma no_gender_clue_when_imbalanced_witness :
  exists clues rs',
    generateClues (P := Reference.platform) demo_token newcomers [] rs_low
    = (Ok clues, rs')
    /\ Forall (fun clue => type clue <> type_gender) clues.
Proof.
  apply (@no_gender_clue_when_imbalanced Reference.platform
           demo_token newcomers [] rs_low _ _ demo_token_decodes
           (assignments_of_js_of_assignments demo_assignments)).
  vm_compute. lia.
Defined.

Lemma no_same_year_clue_when_skewed_without_exclusions_witness :
  exists clues rs',
    generateClues (P := Reference.platform) demo_token newcomers [] rs_low
    = (Ok clues, rs')
    /\ Forall
         (fun clue =>
            type clue = type_year ->
            includes (toLowerCase (text clue)) "same year" = false)
         clues.
Proof.
  apply (@no_same_year_clue_when_skewed_without_exclusions
           Reference.platform demo_token newcomers rs_low _ _ 2019%Z
           demo_token_decodes
           (assignments_of_js_of_assignments demo_assignments)).
  vm_compute. lia.
Defined.

(* ================================================================== *)
(** * More of the clue engine: the gender clues tell the truth *)
(* ================================================================== *)

Lemma find_id_None (i : string) :
  forall participants,
    ~ In i (map id participants) ->
    find (fun p => id p =? i) participants = None.
Proof.
  induction participants as [|p ps IH]; simpl; [reflexivity|].
  intros Hnot. destruct (String.eqb_spec (id p) i) as [E|Hne];
    [exfalso; auto | apply IH; auto].
Qed.

Lemma participantMap_fold_get (i : string) :
  forall participants m,
    NoDup (map id participants) ->
    Map_get String.eqb
      (fold_left (fun m kv => Map_set String.eqb m (fst kv) (snd kv))
         (map (fun p => (id p, p)) participants) m) i
    = match find (fun p => id p =? i) participants with
      | Some p => Some p
      | None => Map_get String.eqb m i
      end.
Proof.
  induction participants as [|p ps IH]; intros m Hnd; [reflexivity|].
  inversion Hnd as [|? ? Hnot Hnd']; subst.
  cbn [map fold_left fst snd find]. rewrite (IH _ Hnd').
  destruct (String.eqb_spec (id p) i) as [E|Hne].
  - subst i. rewrite (@find_id_None _ _ Hnot).
    apply (@Map_get_set_same _ _ _ String.eqb_spec).
  - destruct (find (fun p0 => id p0 =? i) ps); [reflexivity|].
    now apply (@Map_get_set_other _ _ _ String.eqb_spec).
Qed.

(** With distinct ids, [participantMap.get(i)] is the participant whose
    id is [i]. *)
Lemma get_participant_find (participants : list Participant) (i : string) :
  NoDup (map id participants) ->
  get_participant (participantMap_of participants) i
  = find (fun p => id p =? i) participants.
Proof.
  intros Hnd. unfold get_participant, participantMap_of, Map_of.
  rewrite (@participantMap_fold_get i participants [] Hnd).
  now destruct (find (fun p => id p =? i) participants).
Qed.

Lemma existsb_id_find (test : Participant -> bool) (i : string) :
  forall participants,
    NoDup (map id participants) ->
    existsb (fun p => (id p =? i) && test p) participants
    = match find (fun p => id p =? i) participants with
      | Some p => test p
      | None => false
      end.
Proof.
  induction participants as [|p ps IH]; intros Hnd; [reflexivity|].
  inversion Hnd as [|? ? Hnot Hnd']; subst. cbn [existsb find].
  destruct (String.eqb_spec (id p) i) as [E|Hne]; cbn [andb orb].
  - subst i. rewrite (IH Hnd'), (@find_id_None _ _ Hnot).
    now rewrite orb_false_r.
  - apply IH, Hnd'.
Qed.

Lemma resolved_pairs_matching giver_test receiver_test assignments
  participants :
  NoDup (map id participants) ->
  resolved_pairs giver_test receiver_test assignments
    (participantMap_of participants)
  = pairs_matching giver_test receiver_test assignments participants.
Proof.
  intros Hnd. unfold resolved_pairs, pairs_matching. f_equal.
  apply filter_ext. intros a.
  rewrite !(@get_participant_find _ _ Hnd).
  rewrite !(@existsb_id_find _ _ _ Hnd).
  destruct (find (fun p => id p =? giverId a) participants) as [g|];
    [|reflexivity].
  destruct (find (fun p => id p =? receiverId a) participants) as [r|];
    [reflexivity|].
  now rewrite andb_false_r.
Qed.

Lemma tally_genders_from (participantMap : ParticipantMap) :
  forall assignments t,
    fold_left
      (fun t assignment =>
         match get_participant participantMap (giverId assignment),
               get_participant participantMap (receiverId assignment) with
         | Some giver, Some receiver =>
             if is_male giver && is_female receiver then
               mkTally (S (menToWomen t)) (womenToMen t) (menToMen t)
                 (womenToWomen t)
             else if is_female giver && is_male receiver then
               mkTally (menToWomen t) (S (womenToMen t)) (menToMen t)
                 (womenToWomen t)
             else if is_male giver && is_male receiver then
               mkTally (menToWomen t) (womenToMen t) (S (menToMen t))
                 (womenToWomen t)
             else if is_female giver && is_female receiver then
               mkTally (menToWomen t) (womenToMen t) (menToMen t)
                 (S (womenToWomen t))
             else t
         | _, _ => t
         end)
      assignments t
    = mkTally
        (menToWomen t
         + resolved_pairs is_male is_female assignments participantMap)
        (womenToMen t
         + resolved_pairs is_female is_male assignments participantMap)
        (menToMen t
         + resolved_pairs is_male is_male assignments participantMap)
        (womenToWomen t
         + resolved_pairs is_female is_female assignments participantMap).
Proof.
  unfold resolved_pairs.
  induction assignments as [|a l IH]; intros [mw wm mm ww].
  - cbn [fold_left filter length menToWomen womenToMen menToMen womenToWomen].
    now rewrite !Nat.add_0_r.
  - cbn [fold_left filter]. rewrite IH. clear IH.
    destruct (get_participant participantMap (giverId a)) as [g|];
      [|reflexivity].
    destruct (get_participant participantMap (receiverId a)) as [r|];
      [|reflexivity].
    destruct (is_male g) eqn:Emg;
      [rewrite (male_not_female g Emg) | destruct (is_female g)];
      (destruct (is_male r) eqn:Emr;
       [rewrite (male_not_female r Emr) | destruct (is_female r)]);
      cbn [andb length menToWomen womenToMen menToMen womenToWomen];
      f_equal; lia.
Qed.

Lemma tally_genders_counts assignments participantMap :
  tally_genders assignments participantMap
  = mkTally
      (resolved_pairs is_male is_female assignments participantMap)
      (resolved_pairs is_female is_male assignments participantMap)
      (resolved_pairs is_male is_male assignments participantMap)
      (resolved_pairs is_female is_female assignments participantMap).
Proof. unfold tally_genders. now rewrite tally_genders_from. Qed.

Lemma gender_generator_truthful assignments participants exclusions clue :
  NoDup (map id participants) ->
  In clue
    (generateGenderGiftingClues assignments (participantMap_of participants)
       exclusions) ->
  gender_clue_holds assignments participants (text clue).
Proof.
  intros Hnd Hin. unfold generateGenderGiftingClues in Hin.
  cbv zeta in Hin. rewrite tally_genders_counts in Hin.
  cbn [menToWomen womenToMen menToMen womenToWomen] in Hin.
  rewrite !(@resolved_pairs_matching _ _ _ _ Hnd) in Hin.
  unfold gender_clue_holds. cbv zeta.
  set (mw := pairs_matching is_male is_female assignments participants) in *.
  set (wm := pairs_matching is_female is_male assignments participants) in *.
  set (mm := pairs_matching is_male is_male assignments participants) in *.
  set (ww := pairs_matching is_female is_female assignments participants)
    in *.
  repeat (apply in_app_or in Hin; destruct Hin as [Hin|Hin]).
  - destruct (Nat.eqb_spec mw 0) as [E0|N0]; cbn [andb] in Hin.
    + destruct (negb _).
      * destruct Hin as [<-|[]]. left. auto.
      * rewrite E0 in Hin. cbn in Hin. contradiction.
    + destruct (Nat.eqb_spec mw 1) as [E1|N1].
      * destruct Hin as [<-|[]]. right. left. auto.
      * destruct (Nat.ltb_spec 1 mw) as [Hlt|Hge]; [|contradiction].
        destruct Hin as [<-|[]]. right. right. left. auto.
  - destruct (Nat.eqb_spec wm 0) as [E0|N0]; cbn [andb] in Hin.
    + destruct (negb _).
      * destruct Hin as [<-|[]]. do 3 right. left. auto.
      * rewrite E0 in Hin. cbn in Hin. contradiction.
    + destruct (Nat.eqb_spec wm 1) as [E1|N1].
      * destruct Hin as [<-|[]]. do 4 right. left. auto.
      * destruct (Nat.ltb_spec 1 wm) as [Hlt|Hge]; [|contradiction].
        destruct Hin as [<-|[]]. do 5 right. left. auto.
  - destruct (Nat.eqb_spec mm 0) as [E0|N0]; cbn [andb] in Hin;
      [|contradiction].
    destruct (negb _); [|contradiction].
    destruct Hin as [<-|[]]. do 6 right. left. auto.
  - destruct (Nat.eqb_spec ww 0) as [E0|N0]; cbn [andb] in Hin;
      [|contradiction].
    destruct (negb _); [|contradiction].
    destruct Hin as [<-|[]]. do 7 right. auto.
Qed.

(** X20. Every gender clue that [generateClues] returns is true of the
    decoded assignments: its text gives the number of gifts from men to
    women, from women to men, between men or between women, the two
    ends of an assignment being the participants with these ids. *)
Theorem returned_gender_clues_are_true {P : Platform}
  (encryptedAssignments : string) (participants : list Participant)
  (exclusions : list Exclusion) (rs : RandomSource)
  (value : JSValue) (assignments : list Assignment) :
  decryptAssignments encryptedAssignments = Ok value ->
  assignments_of_js value = Some assignments ->
  NoDup (map id participants) ->
  exists clues rs',
    generateClues encryptedAssignments participants exclusions rs
    = (Ok clues, rs')
    /\ Forall
         (fun clue =>
            type clue = type_gender ->
            gender_clue_holds assignments participants (text clue))
         clues.
Proof.
  intros Hd Ha Hnd.
  rewrite (generateClues_decodable _ participants exclusions rs Hd Ha).
  eexists. eexists. split; [reflexivity|].
  apply Forall_forall. intros clue Hin Ht.
  destruct (returned_clue_origin _ _ _ _ _ Hin) as [[Hg _]|[E|E]];
    [|rewrite E in Ht; discriminate ..].
  now apply gender_generator_truthful with (exclusions := exclusions).
Qed.

Lemma returned_gender_clues_are_true_witness :
  exists clues rs',
    generateClues (P := Reference.platform) demo_token four [] rs_low
    = (Ok clues, rs')
    /\ Forall
         (fun clue =>
            type clue = type_gender ->
            gender_clue_holds demo_assignments four (text clue))
         clues.
Proof.
  apply (@returned_gender_clues_are_true Reference.platform
           demo_token four [] rs_low _ _ demo_token_decodes
           (assignments_of_js_of_assignments demo_assignments)).
  apply four_distinct_ids.
Defined.

(* ================================================================== *)
(** * The three-clue engine of lib/clues.ts *)
(* ================================================================== *)

Lemma cross_gender_pattern_not_obvious participantMap exclusions :
  isGenderPatternObvious participantMap exclusions "men to women" = false
  /\ isGenderPatternObvious participantMap exclusions "women to men" = false.
Proof.
  unfold isGenderPatternObvious. cbv zeta.
  assert (H1 : includes "men to women"
                 "women are giving gifts to other women" = false)
    by reflexivity.
  assert (H2 : includes "men to women"
                 "men are giving gifts to other men" = false)
    by reflexivity.
  assert (H3 : includes "women to men"
                 "women are giving gifts to other women" = false)
    by reflexivity.
  assert (H4 : includes "women to men"
                 "men are giving gifts to other men" = false)
    by reflexivity.
  rewrite H1, H2, H3, H4. split; reflexivity.
Qed.

Lemma count_slot_length (n : nat) (none one many : ClueData) :
  length
    (if (n =? 0)%nat then [none]
     else if (n =? 1)%nat then [one]
     else if (1 <? n)%nat then [many]
     else [])
  = 1%nat.
Proof.
  destruct (Nat.eqb_spec n 0); [reflexivity|].
  destruct (Nat.eqb_spec n 1); [reflexivity|].
  destruct (Nat.ltb_spec 1 n); [reflexivity | lia].
Qed.

(** The gender generator always proposes a clue on the gifts from men
    to women and one on the gifts from women to men. *)
Lemma gender_clues_at_least_two assignments participantMap exclusions :
  (2 <= length
          (generateGenderGiftingClues assignments participantMap exclusions))
  %nat.
Proof.
  unfold generateGenderGiftingClues. cbv zeta.
  destruct (cross_gender_pattern_not_obvious participantMap exclusions)
    as [-> ->].
  cbn [negb]. rewrite !andb_true_r.
  rewrite !length_app, !count_slot_length. lia.
Qed.

Lemma lib_year_clues_at_least_one assignments participantMap :
  (1 <= length (LibClues.generateYearGiftingClues assignments participantMap))
  %nat.
Proof.
  unfold LibClues.generateYearGiftingClues. cbv zeta.
  rewrite !length_app, !count_slot_length. lia.
Qed.

Lemma lib_year_clues_type assignments participantMap :
  Forall (fun clue => type clue = type_year)
    (LibClues.generateYearGiftingClues assignments participantMap).
Proof. unfold LibClues.generateYearGiftingClues. cbv zeta. clue_types. Qed.

Lemma lib_specific_clues_type assignments participantMap rs :
  Forall (fun clue => type clue = type_year)
    (fst (LibClues.generateSpecificPatternClues assignments participantMap
            rs)).
Proof.
  unfold LibClues.generateSpecificPatternClues. cbv zeta.
  match goal with
  | |- context [let (_, _) := ?e in _] => destruct e as [gap_clues rs'] eqn:E
  end.
  cbn [fst]. apply Forall_app. split; [|clue_types].
  revert E.
  repeat match goal with
         | |- context [if ?c then _ else _] => destruct c
         | |- context [match nth_error ?l ?n with _ => _ end] =>
             destruct (nth_error l n)
         | |- context [let (_, _) := Math_random ?r in _] =>
             destruct (Math_random r)
         end;
    intros E; injection E as <- _; clue_types.
Qed.

(** The three clues are the first three of the shuffled candidates:
    there are always three candidates, and the backup is never
    consulted. *)
Lemma lib_generateClues_from_shape assignments participants exclusions rs :
  exists shuffled,
    Permutation shuffled
      (LibClues.candidates assignments participants exclusions rs)
    /\ (3 <= length shuffled)%nat
    /\ fst (LibClues.generateClues_from assignments participants exclusions
              rs)
       = firstn 3 shuffled.
Proof.
  unfold LibClues.generateClues_from, LibClues.candidates.
  destruct (LibClues.generateSpecificPatternClues assignments
              (participantMap_of participants) rs) as [specific rs1].
  cbn [fst].
  match goal with
  | |- context [Array_sort_random ?l rs1] =>
      pose proof (Array_sort_random_Permutation l rs1) as Hperm;
      destruct (Array_sort_random l rs1) as [shuffled rs2]
  end.
  cbn [fst] in Hperm |- *. exists shuffled. split; [exact Hperm|].
  assert (Hlen : (3 <= length shuffled)%nat).
  { rewrite (Permutation_length Hperm), !length_app.
    pose proof (gender_clues_at_least_two assignments
                  (participantMap_of participants) exclusions).
    pose proof (lib_year_clues_at_least_one assignments
                  (participantMap_of participants)).
    lia. }
  split; [exact Hlen|].
  destruct (Nat.ltb_spec (length shuffled) 3); [lia | reflexivity].
Qed.

Lemma lib_generateClues_decodable {P : Platform} token participants
  exclusions rs v assignments :
  decryptAssignments token = Ok v ->
  assignments_of_js v = Some assignments ->
  LibClues.generateClues token participants exclusions rs
  = (Ok (fst (LibClues.generateClues_from assignments participants
                exclusions rs)),
     snd (LibClues.generateClues_from assignments participants exclusions
            rs)).
Proof.
  intros Hd Ha. unfold LibClues.generateClues. rewrite Hd, Ha.
  now destruct (LibClues.generateClues_from assignments participants
                  exclusions rs).
Qed.

(** X21. On a token that decodes to an assignment list, the [generateClues]
    of lib/clues.ts returns exactly three clues, whatever the
    participants and the random numbers: they are the first three of
    the shuffled candidates of the three generators, and
    [generateBackupClues] contributes nothing. *)
Theorem lib_generateClues_returns_exactly_three {P : Platform}
  (encryptedAssignments : string) (participants : list Participant)
  (exclusions : list Exclusion) (rs : RandomSource)
  (value : JSValue) (assignments : list Assignment) :
  decryptAssignments encryptedAssignments = Ok value ->
  assignments_of_js value = Some assignments ->
  exists clues rs',
    LibClues.generateClues encryptedAssignments participants exclusions rs
    = (Ok clues, rs')
    /\ length clues = 3%nat
    /\ exists shuffled,
         Permutation shuffled
           (LibClues.candidates assignments participants exclusions rs)
         /\ clues = firstn 3 shuffled.
Proof.
  intros Hd Ha.
  rewrite (lib_generateClues_decodable _ participants exclusions rs Hd Ha).
  eexists. eexists. split; [reflexivity|].
  destruct (lib_generateClues_from_shape assignments participants exclusions
              rs) as (shuffled & Hperm & Hlen & ->).
  split; [now apply firstn_length_le|].
  exists shuffled. auto.
Qed.

Lemma lib_generateClues_returns_exactly_three_witness :
  exists clues rs',
    LibClues.generateClues (P := Reference.platform) demo_token four
      carol_dave rs_low
    = (Ok clues, rs')
    /\ length clues = 3%nat
    /\ exists shuffled,
         Permutation shuffled
           (LibClues.candidates demo_assignments four carol_dave rs_low)
         /\ clues = firstn 3 shuffled.
Proof.
  exact (@lib_generateClues_returns_exactly_three Reference.platform
           demo_token four carol_dave rs_low _ _ demo_token_decodes
           (assignments_of_js_of_assignments demo_assignments)).
Defined.

(** X22. The three clues of lib/clues.ts are gender or year clues, and a
    gender clue among them is true of the decoded assignments when the
    participants have distinct ids. *)
Theorem lib_returned_clues_are_gender_or_year {P : Platform}
  (encryptedAssignments : string) (participants : list Participant)
  (exclusions : list Exclusion) (rs : RandomSource)
  (value : JSValue) (assignments : list Assignment) :
  decryptAssignments encryptedAssignments = Ok value ->
  assignments_of_js value = Some assignments ->
  NoDup (map id participants) ->
  exists clues rs',
    LibClues.generateClues encryptedAssignments participants exclusions rs
    = (Ok clues, rs')
    /\ Forall
         (fun clue =>
            type clue = type_year
            \/ (type clue = type_gender
                /\ gender_clue_holds assignments participants (text clue)))
         clues.
Proof.
  intros Hd Ha Hnd.
  rewrite (lib_generateClues_decodable _ participants exclusions rs Hd Ha).
  eexists. eexists. split; [reflexivity|].
  destruct (lib_generateClues_from_shape assignments participants exclusions
              rs) as (shuffled & Hperm & _ & ->).
  apply Forall_forall. intros clue Hin. apply firstn_In in Hin.
  eapply Permutation_in in Hin; [|exact Hperm].
  unfold LibClues.candidates in Hin. cbv zeta in Hin.
  apply in_app_or in Hin. destruct Hin as [Hin|Hin].
  - right. split.
    + exact (proj1 (Forall_forall _ _) (gender_clues_type _ _ _) _ Hin).
    + now apply gender_generator_truthful with (exclusions := exclusions).
  - left. apply in_app_or in Hin. destruct Hin as [Hin|Hin].
    + exact (proj1 (Forall_forall _ _) (lib_year_clues_type _ _) _ Hin).
    + exact (proj1 (Forall_forall _ _)
               (lib_specific_clues_type _ _ _) _ Hin).
Qed.

Lemma lib_returned_clues_are_gender_or_year_witness :
  exists clues rs',
    LibClues.generateClues (P := Reference.platform) demo_token four
      carol_dave rs_low
    = (Ok clues, rs')
    /\ Forall
         (fun clue =>
            type clue = type_year
            \/ (type clue = type_gender
                /\ gender_clue_holds demo_assignments four (text clue)))
         clues.
Proof.
  apply (@lib_returned_clues_are_gender_or_year Reference.platform
           demo_token four carol_dave rs_low _ _ demo_token_decodes
           (assignments_of_js_of_assignments demo_assignments)).
  apply four_distinct_ids.
Defined.

(* ================================================================== *)
(** * The dispatch loops of email.ts *)
(* ================================================================== *)

Lemma requests_sent_app (a b : list Email.Event) :
  Email.requests_sent (a ++ b)
  = Email.requests_sent a ++ Email.requests_sent b.
Proof. unfold Email.requests_sent. apply flat_map_app. Qed.

Lemma sleeps_app (a b : list Email.Event) :
  Email.sleeps (a ++ b) = (Email.sleeps a + Email.sleeps b)%nat.
Proof. unfold Email.sleeps. now rewrite filter_app, length_app. Qed.

Lemma lookup_returns {P : Platform} (encryptedData participantId : string) :
  exists v,
    getAssignmentForParticipant encryptedData participantId = Ok v.
Proof.
  unfold getAssignmentForParticipant.
  match goal with
  | |- context [match ?e with Ok _ => _ | Throw _ => _ end] => destruct e
  end; eauto.
Qed.

Section EmailProperties.
Context {P : Platform}.
Variable generateEmailContent :
  Participant -> Participant -> Email.EmailData -> Email.EmailContent.
Variable generateReminderEmailContent :
  Participant -> list Email.ClueRow -> Email.EmailData -> Email.EmailContent.

Lemma assignment_loop_facts env fromEmail participantMap encryptedAssignments
  emailData participants_length :
  forall remaining i outcomes,
    let run :=
      Email.sendAssignmentEmails_loop generateEmailContent env fromEmail
        participantMap encryptedAssignments emailData participants_length i
        remaining outcomes in
    snd (fst run) = Ok tt
    /\ Email.requests_sent (fst (fst run))
       = flat_map
           (Email.planned_request generateEmailContent env fromEmail
              participantMap encryptedAssignments emailData)
           remaining
    /\ (Email.sleeps (fst (fst run)) <= participants_length - 1 - i)%nat.
Proof.
  induction remaining as [|p rest IH]; intros i outcomes; cbv zeta.
  - cbn. repeat split; lia.
  - cbn [Email.sendAssignmentEmails_loop flat_map].
    unfold Email.planned_request at 1.
    destruct (lookup_returns encryptedAssignments (id p)) as [v ->].
    assert (Hstep :
              forall events outcomes' planned,
                Email.requests_sent events = planned ->
                (Email.sleeps events
                 <= (if (i <? participants_length - 1)%nat then 1 else 0))
                %nat ->
                let run :=
                  match
                    Email.sendAssignmentEmails_loop generateEmailContent env
                      fromEmail participantMap encryptedAssignments emailData
                      participants_length (S i) rest outcomes'
                  with
                  | (later, end_, outcomes'') =>
                      (events ++ later, end_, outcomes'')
                  end in
                snd (fst run) = Ok tt
                /\ Email.requests_sent (fst (fst run))
                   = planned
                     ++ flat_map
                          (Email.planned_request generateEmailContent env
                             fromEmail participantMap encryptedAssignments
                             emailData)
                          rest
                /\ (Email.sleeps (fst (fst run))
                    <= participants_length - 1 - i)%nat).
    { intros events outcomes' planned Hreq Hsl. cbv zeta.
      destruct (IH (S i) outcomes') as (Hend & Hrest & Hsleeps).
      cbv zeta in Hend, Hrest, Hsleeps.
      destruct (Email.sendAssignmentEmails_loop generateEmailContent env
                  fromEmail participantMap encryptedAssignments emailData
                  participants_length (S i) rest outcomes')
        as [[later end_] outcomes''].
      cbn [fst snd] in *. split; [exact Hend|]. split.
      - now rewrite requests_sent_app, Hreq, Hrest.
      - rewrite sleeps_app.
        destruct (Nat.ltb_spec i (participants_length - 1)); lia. }
    assert (Hquiet :
              (0 <= (if (i <? participants_length - 1)%nat then 1 else 0))
              %nat) by lia.
    destruct v as [| |b|n|key|items|fields]; cbn [truthy negb];
      try (apply Hstep; [reflexivity | exact Hquiet]).
    + destruct b; cbn [negb];
        destruct (Email.resend env);
        apply Hstep; first [reflexivity | exact Hquiet].
    + destruct (n =? 0)%Z; cbn [negb];
        destruct (Email.resend env);
        apply Hstep; first [reflexivity | exact Hquiet].
    + destruct (key =? EmptyString); cbn [negb].
      * destruct (Email.resend env);
          apply Hstep; first [reflexivity | exact Hquiet].
      * destruct (get_participant participantMap key) as [receiver|].
        -- destruct (Email.resend env) as [client|].
           ++ destruct (outcomes O).
              ** apply Hstep;
                   destruct (i <? participants_length - 1)%nat;
                   first [reflexivity | cbn; lia].
              ** apply Hstep; [reflexivity | exact Hquiet].
           ++ apply Hstep; [reflexivity | exact Hquiet].
        -- destruct (Email.resend env);
             apply Hstep; first [reflexivity | exact Hquiet].
Qed.

Lemma reminder_loop_facts env fromEmail clues emailData participants_length :
  forall remaining i outcomes,
    let run :=
      Email.sendReminderEmails_loop generateReminderEmailContent env
        fromEmail clues emailData participants_length i remaining outcomes in
    snd (fst run) = Ok tt
    /\ Email.requests_sent (fst (fst run))
       = match Email.resend env with
         | Some _ =>
             map
               (fun p =>
                  Email.mkEmailRequest fromEmail [email p]
                    (Email.gameName emailData ++ " - Party tomorrow!")
                    (generateReminderEmailContent p clues emailData))
               remaining
         | None => []
         end
    /\ (Email.sleeps (fst (fst run)) <= participants_length - 1 - i)%nat.
Proof.
  induction remaining as [|p rest IH]; intros i outcomes; cbv zeta.
  - cbn. destruct (Email.resend env); repeat split; lia.
  - cbn [Email.sendReminderEmails_loop map].
    assert (Hstep :
              forall events outcomes' planned,
                Email.requests_sent events = planned ->
                (Email.sleeps events
                 <= (if (i <? participants_length - 1)%nat then 1 else 0))
                %nat ->
                let run :=
                  match
                    Email.sendReminderEmails_loop generateReminderEmailContent
                      env fromEmail clues emailData participants_length (S i)
                      rest outcomes'
                  with
                  | (later, end_, outcomes'') =>
                      (events ++ later, end_, outcomes'')
                  end in
                snd (fst run) = Ok tt
                /\ Email.requests_sent (fst (fst run))
                   = planned
                     ++ match Email.resend env with
                        | Some _ =>
                            map
                              (fun p =>
                                 Email.mkEmailRequest fromEmail [email p]
                                   (Email.gameName emailData
                                    ++ " - Party tomorrow!")
                                   (generateReminderEmailContent p clues
                                      emailData))
                              rest
                        | None => []
                        end
                /\ (Email.sleeps (fst (fst run))
                    <= participants_length - 1 - i)%nat).
    { intros events outcomes' planned Hreq Hsl. cbv zeta.
      destruct (IH (S i) outcomes') as (Hend & Hrest & Hsleeps).
      cbv zeta in Hend, Hrest, Hsleeps.
      destruct (Email.sendReminderEmails_loop generateReminderEmailContent
                  env fromEmail clues emailData participants_length (S i)
                  rest outcomes')
        as [[later end_] outcomes''].
      cbn [fst snd] in *. split; [exact Hend|]. split.
      - now rewrite requests_sent_app, Hreq, Hrest.
      - rewrite sleeps_app.
        destruct (Nat.ltb_spec i (participants_length - 1)); lia. }
    assert (Hquiet :
              (0 <= (if (i <? participants_length - 1)%nat then 1 else 0))
              %nat) by lia.
    destruct (Email.resend env) as [client|] eqn:Eclient.
    + destruct (outcomes O).
      * apply (Hstep _ _ [_]);
          destruct (i <? participants_length - 1)%nat;
          first [reflexivity | cbn; lia].
      * apply (Hstep _ _ [_]); [reflexivity | exact Hquiet].
    + apply (Hstep _ _ []); [reflexivity | exact Hquiet].
Qed.

End EmailProperties.

Lemma find_id_In :
  forall participants q,
    NoDup (map id participants) -> In q participants ->
    find (fun p => id p =? id q) participants = Some q.
Proof.
  induction participants as [|p ps IH]; intros q Hnd Hin; [contradiction|].
  inversion Hnd as [|? ? Hnot Hnd']; subst. cbn [find].
  destruct Hin as [->|Hin]; [now rewrite String.eqb_refl|].
  destruct (String.eqb_spec (id p) (id q)) as [E|Hne]; [|now apply IH].
  exfalso. apply Hnot. rewrite E. now apply in_map.
Qed.

Lemma flat_map_singletons {A B : Type} (f : A -> list B) (g : A -> B) :
  forall l,
    (forall x, In x l -> f x = [g x]) -> flat_map f l = map g l.
Proof.
  induction l as [|x l IH]; intros H; [reflexivity|].
  cbn [flat_map map]. rewrite (H x (or_introl eq_refl)), IH;
    [reflexivity|]. intros y Hy. apply H. now right.
Qed.


(** On a generated token every participant looks up the id of the
    participant [receiver_in] gives, who is another participant; no two
    participants share one. *)
Lemma generated_receivers {P : Platform} {L : Lawful P}
  (participants : list Participant) (constraints : list AssignmentConstraint)
  (salt : N) (rs rs' : RandomSource) (token : string) :
  generateAssignments participants constraints salt rs = (Ok token, rs') ->
  NoDup (map id participants) ->
  exists assignments,
    decryptAssignments token = Ok (js_of_assignments assignments)
    /\ forall p, In p participants ->
         getAssignmentForParticipant token (id p)
         = Ok (JStr (id (receiver_in assignments participants p)))
         /\ In (receiver_in assignments participants p) participants
         /\ id (receiver_in assignments participants p) <> id p
         /\ forall p', In p' participants ->
              receiver_in assignments participants p
              = receiver_in assignments participants p' ->
              p = p'.
Proof.
  intros H Hnd. apply generateAssignments_Ok in H.
  destruct H as (_ & assignments & rs0 & constraints' & _ & Ha & ->).
  pose proof (attempt_giver_order _ _ _ Ha) as Hg.
  pose proof (attempt_receivers_permuted _ _ _ Ha) as Hr.
  pose proof (attempt_no_self_assignment _ _ _ Ha) as Hself.
  exists assignments. split; [apply decrypt_encrypt|].
  assert (Hndr : NoDup (map receiverId assignments))
    by (eapply Permutation_NoDup; [symmetry; exact Hr | exact Hnd]).
  assert (Hrecv : forall p, In p participants ->
             exists a,
               find (fun a => giverId a =? id p) assignments = Some a
               /\ In a assignments /\ giverId a = id p
               /\ In (receiver_in assignments participants p) participants
               /\ id (receiver_in assignments participants p)
                  = receiverId a).
  { intros p Hp.
    destruct (find_giver_In (id p) assignments) as (a & Hf & Hin & Ega).
    { rewrite Hg. now apply in_map. }
    exists a. repeat split; try assumption.
    - unfold receiver_in. rewrite Hf.
      destruct (find (fun q => id q =? receiverId a) participants)
        as [q|] eqn:Eq; [|exact Hp].
      now apply find_some in Eq.
    - unfold receiver_in. rewrite Hf.
      assert (Hq : In (receiverId a) (map id participants)).
      { eapply Permutation_in; [exact Hr | now apply in_map]. }
      apply in_map_iff in Hq. destruct Hq as (q & Eq & Hq).
      rewrite <- Eq, (find_id_In _ _ Hnd Hq). reflexivity. }
  intros p Hp. destruct (Hrecv p Hp) as (a & Hf & Hin & Ega & Hq & Eq).
  split; [|split; [exact Hq|split]].
  - rewrite (lookup_decoded _ (id p) (decrypt_encrypt assignments salt)
               (assignments_of_js_of_assignments assignments)).
    now rewrite Hf, Eq.
  - rewrite Eq, <- Ega. intros E. apply (Hself a Hin). now symmetry.
  - intros p' Hp' E.
    destruct (Hrecv p' Hp') as (a' & Hf' & Hin' & Ega' & _ & Eq').
    assert (Er : receiverId a = receiverId a') by congruence.
    pose proof (NoDup_map_injective receiverId _ a a' Hndr Hin Hin' Er)
      as Eaa.
    apply (NoDup_map_injective id _ p p' Hnd Hp Hp').
    rewrite <- Ega, <- Ega'. now rewrite Eaa.
Qed.

Section EmailTheorems.
Context {P : Platform}.

(** X23. [sendReminderEmails], with a key and a client, asks for one email
    to each participant, in the order of the list, whatever happens to
    the earlier ones; it never rejects, and waits at most once less
    than there are participants. *)
Theorem reminder_emails_go_to_every_participant
  (generateReminderEmailContent :
     Participant -> list Email.ClueRow -> Email.EmailData ->
     Email.EmailContent)
  (env : Email.Env) (client : string) (participants : list Participant)
  (clues : list Email.ClueRow) (emailData : Email.EmailData)
  (outcomes : Email.Outcomes) :
  Email.env_truthy (Email.RESEND_API_KEY env) = true ->
  Email.resend env = Some client ->
  let run :=
    Email.sendReminderEmails generateReminderEmailContent env participants
      clues emailData outcomes in
  snd (fst run) = Ok tt
  /\ Email.requests_sent (fst (fst run))
     = map
         (fun p =>
            Email.mkEmailRequest
              (Email.env_or (Email.RESEND_FROM_EMAIL env)
                 "santa@secretsanta.bar")
              [email p]
              (Email.gameName emailData ++ " - Party tomorrow!")
              (generateReminderEmailContent p clues emailData))
         participants
  /\ (Email.sleeps (fst (fst run)) <= length participants - 1)%nat.
Proof.
  intros Hkey Hclient. cbv zeta. unfold Email.sendReminderEmails.
  rewrite Hkey. cbn [negb].
  destruct (reminder_loop_facts generateReminderEmailContent env
              (Email.env_or (Email.RESEND_FROM_EMAIL env)
                 "santa@secretsanta.bar")
              clues emailData (length participants) participants 0 outcomes)
    as (Hend & Hreq & Hsl).
  cbv zeta in Hend, Hreq, Hsl. rewrite Hclient in Hreq.
  split; [exact Hend|]. split; [exact Hreq | lia].
Qed.



(** X26. After [generateAssignments], with distinct non-empty ids, a key and
    a client, [sendAssignmentEmails] asks for exactly one email to each
    participant, in the order of the list, whose content is made for
    that participant and the one they give to: another participant, a
    different one for each. *)
Theorem assignment_emails_after_generation {L : Lawful P}
  (generateEmailContent :
     Participant -> Participant -> Email.EmailData -> Email.EmailContent)
  (env : Email.Env) (client : string) (participants : list Participant)
  (constraints : list AssignmentConstraint) (salt : N)
  (rs rs' : RandomSource) (token : string) (emailData : Email.EmailData)
  (outcomes : Email.Outcomes) :
  generateAssignments participants constraints salt rs = (Ok token, rs') ->
  NoDup (map id participants) ->
  Forall (fun p => id p <> EmptyString) participants ->
  Email.env_truthy (Email.RESEND_API_KEY env) = true ->
  Email.resend env = Some client ->
  exists receiver_of : Participant -> Participant,
    Email.requests_sent
      (fst (fst (Email.sendAssignmentEmails generateEmailContent env
                   participants token emailData outcomes)))
    = map
        (fun p =>
           Email.mkEmailRequest
             (Email.env_or (Email.RESEND_FROM_EMAIL env)
                "santa@secretsanta.bar")
             [email p] (Email.gameName emailData)
             (generateEmailContent p (receiver_of p) emailData))
        participants
    /\ forall p, In p participants ->
         In (receiver_of p) participants
         /\ id (receiver_of p) <> id p
         /\ forall p', In p' participants ->
              receiver_of p = receiver_of p' -> p = p'.
Proof.
  intros Hgen Hnd Hids Hkey Hclient.
  destruct (generated_receivers _ _ _ _ Hgen Hnd)
    as (assignments & _ & Hrecv).
  exists (receiver_in assignments participants). split.
  - unfold Email.sendAssignmentEmails. rewrite Hkey. cbn [negb].
    destruct (assignment_loop_facts generateEmailContent env
                (Email.env_or (Email.RESEND_FROM_EMAIL env)
                   "santa@secretsanta.bar")
                (participantMap_of participants) token emailData
                (length participants) participants 0 outcomes)
      as (_ & Hreq & _).
    cbv zeta in Hreq. rewrite Hreq.
    apply flat_map_singletons. intros p Hp.
    destruct (Hrecv p Hp) as (Hlook & Hin & _).
    unfold Email.planned_request. rewrite Hlook, Hclient.
    rewrite Forall_forall in Hids.
    destruct (String.eqb_spec
                (id (receiver_in assignments participants p)) EmptyString)
      as [E|_]; [now apply Hids in E|].
    rewrite (@get_participant_find _ _ Hnd), (find_id_In _ _ Hnd Hin).
    reflexivity.
  - intros p Hp. destruct (Hrecv p Hp) as (_ & Hin & Hne & Hinj). auto.
Qed.

End EmailTheorems.

Lemma reminder_emails_go_to_every_participant_witness :
  let run :=
    Email.sendReminderEmails demo_reminder_content demo_env four
      demo_clue_rows demo_email_data flaky in
  snd (fst run) = Ok tt
  /\ Email.requests_sent (fst (fst run))
     = map
         (fun p =>
            Email.mkEmailRequest
              (Email.env_or (Email.RESEND_FROM_EMAIL demo_env)
                 "santa@secretsanta.bar")
              [email p]
              (Email.gameName demo_email_data ++ " - Party tomorrow!")
              (demo_reminder_content p demo_clue_rows demo_email_data))
         four
  /\ (Email.sleeps (fst (fst run)) <= length four - 1)%nat.
Proof.
  apply (@reminder_emails_go_to_every_participant demo_reminder_content
           demo_env "re_key" four demo_clue_rows demo_email_data flaky);
    reflexivity.
Defined.


Lemma assignment_emails_after_generation_witness :
  exists receiver_of : Participant -> Participant,
    Email.requests_sent
      (fst (fst (Email.sendAssignmentEmails (P := Reference.platform)
                   demo_content demo_env four
                   (encryptAssignments (P := Reference.platform)
                      demo_assignments 0)
                   demo_email_data flaky)))
    = map
        (fun p =>
           Email.mkEmailRequest
             (Email.env_or (Email.RESEND_FROM_EMAIL demo_env)
                "santa@secretsanta.bar")
             [email p] (Email.gameName demo_email_data)
             (demo_content p (receiver_of p) demo_email_data))
        four
    /\ forall p, In p four ->
         In (receiver_of p) four
         /\ id (receiver_of p) <> id p
         /\ forall p', In p' four ->
              receiver_of p = receiver_of p' -> p = p'.
Proof.
  apply (@assignment_emails_after_generation Reference.platform
           ReferenceLaws.lawful demo_content demo_env "re_key" four
           [couple "Carol" "Dave"] 0%N rs_zero _ _ demo_email_data flaky
           generate_four_zero four_distinct_ids).
  - repeat constructor; discriminate.
  - reflexivity.
  - reflexivity.
Defined.

(** X27. A token returned by [generateAssignments] is accepted by both clue
    engines: the ten-clue one returns at most ten clues and the one of
    lib/clues.ts exactly three, neither throws. *)
Theorem clue_engines_accept_generated_tokens {P : Platform} {L : Lawful P}
  (participants : list Participant) (constraints : list AssignmentConstraint)
  (exclusions : list Exclusion) (salt : N) (rs rs' rs1 : RandomSource)
  (token : string) :
  generateAssignments participants constraints salt rs = (Ok token, rs') ->
  exists clues rs2 clues3 rs3,
    generateClues token participants exclusions rs1 = (Ok clues, rs2)
    /\ (length clues <= 10)%nat
    /\ LibClues.generateClues token participants exclusions rs1
       = (Ok clues3, rs3)
    /\ length clues3 = 3%nat.
Proof.
  intros H. apply generateAssignments_Ok in H.
  destruct H as (_ & assignments & rs0 & constraints' & _ & _ & ->).
  pose proof (decrypt_encrypt assignments salt) as Hd.
  pose proof (assignments_of_js_of_assignments assignments) as Ha.
  rewrite (generateClues_decodable _ participants exclusions rs1 Hd Ha).
  rewrite (lib_generateClues_decodable _ participants exclusions rs1 Hd Ha).
  do 4 eexists. split; [reflexivity|].
  split; [apply generateClues_from_length|]. split; [reflexivity|].
  destruct (lib_generateClues_from_shape assignments participants exclusions
              rs1) as (shuffled & _ & Hlen & ->).
  now apply firstn_length_le.
Qed.

Lemma clue_engines_accept_generated_tokens_witness :
  exists clues rs2 clues3 rs3,
    generateClues (P := Reference.platform)
      (encryptAssignments (P := Reference.platform) demo_assignments 0)
      four carol_dave rs_low
    = (Ok clues, rs2)
    /\ (length clues <= 10)%nat
    /\ LibClues.generateClues (P := Reference.platform)
         (encryptAssignments (P := Reference.platform) demo_assignments 0)
         four carol_dave rs_low
       = (Ok clues3, rs3)
    /\ length clues3 = 3%nat.
Proof.
  exact (@clue_engines_accept_generated_tokens Reference.platform
           ReferenceLaws.lawful four [couple "Carol" "Dave"] carol_dave 0%N
           rs_zero _ rs_low _ generate_four_zero).
Defined.

(* ================================================================== *)
(** * The gender generator and the excluded pairs *)
(* ================================================================== *)

Lemma participantMap_fold_new :
  forall participants (m : ParticipantMap),
    NoDup (map fst m ++ map id participants) ->
    fold_left (fun m kv => Map_set String.eqb m (fst kv) (snd kv))
      (map (fun p => (id p, p)) participants) m
    = m ++ map (fun p => (id p, p)) participants.
Proof.
  induction participants as [|p ps IH]; intros m Hnd.
  - cbn. now rewrite app_nil_r.
  - cbn [map fold_left fst snd].
    assert (Hnot : ~ In (id p) (map fst m)).
    { intros Hin. apply NoDup_remove_2 in Hnd. apply Hnd.
      apply in_or_app. now left. }
    rewrite (@Map_set_new _ _ _ String.eqb_spec _ _ _ Hnot).
    rewrite IH.
    + now rewrite <- app_assoc.
    + rewrite map_app. cbn [map fst]. rewrite <- app_assoc. exact Hnd.
Qed.

(** With distinct ids, the values of the participant map are the
    participants, in order. *)
Lemma participantMap_values (participants : list Participant) :
  NoDup (map id participants) ->
  Map_values (participantMap_of participants) = participants.
Proof.
  intros Hnd. unfold participantMap_of, Map_of, Map_values.
  rewrite participantMap_fold_new by exact Hnd.
  cbn [app]. rewrite map_map. cbn [snd]. apply map_id.
Qed.

Lemma pair_among_two (group : list Participant) (w1 w2 : Participant)
  (e : Exclusion) :
  group = [w1; w2] ->
  In (participant1 e) [name w1; name w2] ->
  In (participant2 e) [name w1; name w2] ->
  existsb (fun p => name p =? participant1 e) group
  && existsb (fun p => name p =? participant2 e) group = true.
Proof.
  intros -> H1 H2. apply andb_true_intro. split; apply existsb_exists.
  - destruct H1 as [E|[E|[]]]; [exists w1 | exists w2];
      (split; [simpl; auto | rewrite E; apply String.eqb_refl]).
  - destruct H2 as [E|[E|[]]]; [exists w1 | exists w2];
      (split; [simpl; auto | rewrite E; apply String.eqb_refl]).
Qed.

Lemma excluded_women_pattern_obvious participants exclusions w1 w2 e :
  NoDup (map id participants) ->
  filter is_female participants = [w1; w2] ->
  In e exclusions ->
  In (participant1 e) [name w1; name w2] ->
  In (participant2 e) [name w1; name w2] ->
  isGenderPatternObvious (participantMap_of participants) exclusions
    "women are giving gifts to other women" = true.
Proof.
  intros Hnd Hw He H1 H2. unfold isGenderPatternObvious. cbv zeta.
  rewrite (@participantMap_values _ Hnd), Hw.
  assert (Hi : includes "women are giving gifts to other women"
                 "women are giving gifts to other women" = true)
    by reflexivity.
  rewrite Hi. cbn [length Nat.eqb andb].
  apply existsb_exists. exists e. split; [exact He|].
  now apply (@pair_among_two _ w1 w2 e).
Qed.

Lemma excluded_men_pattern_obvious participants exclusions m1 m2 e :
  NoDup (map id participants) ->
  filter is_male participants = [m1; m2] ->
  In e exclusions ->
  In (participant1 e) [name m1; name m2] ->
  In (participant2 e) [name m1; name m2] ->
  isGenderPatternObvious (participantMap_of participants) exclusions
    "men are giving gifts to other men" = true.
Proof.
  intros Hnd Hm He H1 H2. unfold isGenderPatternObvious. cbv zeta.
  rewrite (@participantMap_values _ Hnd), Hm.
  assert (Hi : includes "men are giving gifts to other men"
                 "women are giving gifts to other women" = false)
    by reflexivity.
  assert (Hi' : includes "men are giving gifts to other men"
                  "men are giving gifts to other men" = true)
    by reflexivity.
  rewrite Hi, Hi'. cbn [length Nat.eqb andb].
  apply existsb_exists. exists e. split; [exact He|].
  now apply (@pair_among_two _ m1 m2 e).
Qed.

(** The only places of the gender generator that propose the two clues
    on gifts inside one gender. *)
Lemma same_gender_clue_proposed assignments participantMap exclusions :
  (In (mkClue "No women are giving gifts to other women" type_gender medium)
     (generateGenderGiftingClues assignments participantMap exclusions) ->
   isGenderPatternObvious participantMap exclusions
     "women are giving gifts to other women" = false)
  /\ (In (mkClue "No men are giving gifts to other men" type_gender medium)
        (generateGenderGiftingClues assignments participantMap exclusions) ->
      isGenderPatternObvious participantMap exclusions
        "men are giving gifts to other men" = false).
Proof.
  unfold generateGenderGiftingClues. cbv zeta.
  destruct (cross_gender_pattern_not_obvious participantMap exclusions)
    as [-> ->].
  set (t := tally_genders assignments participantMap).
  split; intros Hin;
    repeat (apply in_app_or in Hin; destruct Hin as [Hin|Hin]);
    repeat match type of Hin with
           | In _ (if ?c then _ else _) => destruct c eqn:?
           end;
    repeat match type of Hin with
           | In _ (_ :: _) => destruct Hin as [Hin|Hin]
           | In _ [] => contradiction
           | mkClue _ _ _ = mkClue _ _ _ => inversion Hin
           end;
    match goal with
    | H : (_ && negb ?o)%bool = true |- ?o = false =>
        apply andb_prop in H; destruct H as [_ H];
        now apply negb_true_iff in H
    end.
Qed.

Section ExcludedPairs.
Context {P : Platform}.

(** X28. With distinct ids, when exactly two participants are women (or
    exactly two are men) and an exclusion names two of that pair, the
    clue that no woman gives to another woman (no man to another man)
    is never returned, by the ten-clue [generateClues] or by the one of
    lib/clues.ts. *)
Theorem excluded_pair_hides_same_gender_clue
  (encryptedAssignments : string) (participants : list Participant)
  (exclusions : list Exclusion) (rs : RandomSource)
  (value : JSValue) (assignments : list Assignment) :
  decryptAssignments encryptedAssignments = Ok value ->
  assignments_of_js value = Some assignments ->
  NoDup (map id participants) ->
  exists clues rs' clues3 rs3,
    generateClues encryptedAssignments participants exclusions rs
    = (Ok clues, rs')
    /\ LibClues.generateClues encryptedAssignments participants exclusions rs
       = (Ok clues3, rs3)
    /\ (forall w1 w2 e,
          filter is_female participants = [w1; w2] ->
          In e exclusions ->
          In (participant1 e) [name w1; name w2] ->
          In (participant2 e) [name w1; name w2] ->
          ~ In (mkClue "No women are giving gifts to other women"
                  type_gender medium) (clues ++ clues3))
    /\ (forall m1 m2 e,
          filter is_male participants = [m1; m2] ->
          In e exclusions ->
          In (participant1 e) [name m1; name m2] ->
          In (participant2 e) [name m1; name m2] ->
          ~ In (mkClue "No men are giving gifts to other men"
                  type_gender medium) (clues ++ clues3)).
Proof.
  intros Hd Ha Hnd.
  rewrite (generateClues_decodable _ participants exclusions rs Hd Ha).
  rewrite (lib_generateClues_decodable _ participants exclusions rs Hd Ha).
  do 4 eexists. split; [reflexivity|]. split; [reflexivity|].
  assert (Hgen : forall clue,
             type clue = type_gender ->
             In clue
               (fst (generateClues_from assignments participants exclusions
                       rs)
                ++ fst (LibClues.generateClues_from assignments participants
                          exclusions rs)) ->
             In clue
               (generateGenderGiftingClues assignments
                  (participantMap_of participants) exclusions)).
  { intros clue Ht Hin. apply in_app_or in Hin. destruct Hin as [Hin|Hin].
    - destruct (returned_clue_origin _ _ _ _ _ Hin) as [[Hg _]|[E|E]];
        [exact Hg | rewrite E in Ht; discriminate ..].
    - destruct (lib_generateClues_from_shape assignments participants
                  exclusions rs) as (shuffled & Hperm & _ & E).
      rewrite E in Hin. apply firstn_In in Hin.
      eapply Permutation_in in Hin; [|exact Hperm].
      unfold LibClues.candidates in Hin. cbv zeta in Hin.
      apply in_app_or in Hin. destruct Hin as [Hin|Hin]; [exact Hin|].
      exfalso. apply in_app_or in Hin. destruct Hin as [Hin|Hin].
      + pose proof (proj1 (Forall_forall _ _)
                      (lib_year_clues_type _ _) _ Hin) as E'.
        rewrite E' in Ht. discriminate.
      + pose proof (proj1 (Forall_forall _ _)
                      (lib_specific_clues_type _ _ _) _ Hin) as E'.
        rewrite E' in Ht. discriminate. }
  destruct (same_gender_clue_proposed assignments
              (participantMap_of participants) exclusions) as [Hw Hm].
  split.
  - intros w1 w2 e Hf He H1 H2 Hin.
    apply Hgen in Hin; [|reflexivity]. apply Hw in Hin.
    rewrite (@excluded_women_pattern_obvious _ _ _ _ _ Hnd Hf He H1 H2) in Hin.
    discriminate.
  - intros m1 m2 e Hf He H1 H2 Hin.
    apply Hgen in Hin; [|reflexivity]. apply Hm in Hin.
    rewrite (@excluded_men_pattern_obvious _ _ _ _ _ Hnd Hf He H1 H2) in Hin.
    discriminate.
Qed.

End ExcludedPairs.

Lemma excluded_pair_hides_same_gender_clue_witness :
  exists clues rs' clues3 rs3,
    generateClues (P := Reference.platform) demo_token four alice_carol
      rs_low
    = (Ok clues, rs')
    /\ LibClues.generateClues (P := Reference.platform) demo_token four
         alice_carol rs_low
       = (Ok clues3, rs3)
    /\ (forall w1 w2 e,
          filter is_female four = [w1; w2] ->
          In e alice_carol ->
          In (participant1 e) [name w1; name w2] ->
          In (participant2 e) [name w1; name w2] ->
          ~ In (mkClue "No women are giving gifts to other women"
                  type_gender medium) (clues ++ clues3))
    /\ (forall m1 m2 e,
          filter is_male four = [m1; m2] ->
          In e alice_carol ->
          In (participant1 e) [name m1; name m2] ->
          In (participant2 e) [name m1; name m2] ->
          ~ In (mkClue "No men are giving gifts to other men"
                  type_gender medium) (clues ++ clues3)).
Proof.
  exact (@excluded_pair_hides_same_gender_clue Reference.platform
           demo_token four alice_carol rs_low _ _ demo_token_decodes
           (assignments_of_js_of_assignments demo_assignments)
           four_distinct_ids).
Defined.
